(** * StreamForge comment subsystem: the stored procedures of the two
    migrations, embedded as functions over an explicit database state.

    Sources:
    - supabase/migrations/20250813043841_wispy_bridge.sql
      (tables [comments], [comment_likes]; [toggle_comment_like],
      [create_comment], [get_comments_with_stats])
    - supabase/migrations/20250814034445_soft_queen.sql
      ([series_status], [admin_update_series_status])

    A table is the list of its rows in heap order.  A nullable SQL value is
    an [option]; a [NOT NULL] column has the plain type.  A statement that
    raises aborts the call, and the caller keeps the database it had. *)

From Stdlib Require Import ZArith NArith List String Ascii Bool Lia.
From Stdlib Require Import Permutation Sorted.
Import ListNotations.

Local Open Scope string_scope.
Local Open Scope Z_scope.

(** ** SQL values *)

(** [uuid], [text] and [timestamptz] are names for the carriers. *)
Abbreviation uuid := N (only parsing).
Abbreviation text := string (only parsing).
Abbreviation timestamptz := Z (only parsing).

(** Three-valued logic: [None] is SQL's NULL (unknown). *)
Definition sql_bool := option bool.

Definition sql_and (a b : sql_bool) : sql_bool :=
  match a, b with
  | Some false, _ => Some false
  | _, Some false => Some false
  | Some true, Some true => Some true
  | _, _ => None
  end.

Definition sql_or (a b : sql_bool) : sql_bool :=
  match a, b with
  | Some true, _ => Some true
  | _, Some true => Some true
  | Some false, Some false => Some false
  | _, _ => None
  end.

Definition sql_not (a : sql_bool) : sql_bool := option_map negb a.

(** [x = y] and [x <> y]: NULL as soon as one side is NULL. *)
Definition sql_eq {A} (eqb : A -> A -> bool) (x y : option A) : sql_bool :=
  match x, y with
  | Some a, Some b => Some (eqb a b)
  | _, _ => None
  end.

Definition sql_neq {A} (eqb : A -> A -> bool) (x y : option A) : sql_bool :=
  sql_not (sql_eq eqb x y).

Definition sql_gt (x y : option nat) : sql_bool :=
  match x, y with
  | Some a, Some b => Some (Nat.ltb b a)
  | _, _ => None
  end.

Definition sql_le (x y : option nat) : sql_bool :=
  match x, y with
  | Some a, Some b => Some (Nat.leb a b)
  | _, _ => None
  end.

(** [x IS NULL] and [x IS NOT NULL] are never unknown. *)
Definition is_null {A} (x : option A) : sql_bool :=
  Some (match x with None => true | Some _ => false end).

Definition is_not_null {A} (x : option A) : sql_bool :=
  Some (match x with None => false | Some _ => true end).

(** [IF], [WHERE] and [ON] take the branch, or the row, only on TRUE. *)
Definition holds (b : sql_bool) : bool :=
  match b with Some true => true | _ => false end.

(** A [CHECK] constraint is violated only when its expression is FALSE. *)
Definition check_passes (b : sql_bool) : bool :=
  match b with Some false => false | _ => true end.

(** ** Text functions *)

Definition is_space (c : ascii) : bool := Ascii.eqb c " "%char.

Fixpoint ltrim (s : string) : string :=
  match s with
  | EmptyString => EmptyString
  | String c s' => if is_space c then ltrim s' else s
  end.

Fixpoint rtrim (s : string) : string :=
  match s with
  | EmptyString => EmptyString
  | String c s' =>
      match rtrim s' with
      | EmptyString => if is_space c then EmptyString else String c EmptyString
      | r => String c r
      end
  end.

(** [trim(s)]: both ends, the space character only. *)
Definition trim (s : string) : string := rtrim (ltrim s).

Definition sql_trim (x : option text) : option text := option_map trim x.
Definition sql_length (x : option text) : option nat :=
  option_map String.length x.

(** ** The [integer] type: 32 bits, out-of-range results raise. *)

Definition int4_min : Z := -2147483648.
Definition int4_max : Z := 2147483647.

Definition in_int4 (z : Z) : Prop := int4_min <= z <= int4_max.

(** ** Errors and the result monad *)

Inductive sql_error : Type :=
| raise_exception (message : string)
| not_null_violation (column : string)
| check_violation (constraint : string)
| unique_violation (constraint : string)
| foreign_key_violation (constraint : string)
| numeric_value_out_of_range
| ambiguous_column (name : string)
| invalid_row_count_in_limit_clause
| invalid_row_count_in_result_offset_clause.

Definition result (A : Type) : Type := (sql_error + A)%type.

Definition ok {A} (a : A) : result A := inr a.
Definition throw {A} (e : sql_error) : result A := inl e.

Definition bind {A B} (m : result A) (k : A -> result B) : result B :=
  match m with
  | inl e => inl e
  | inr a => k a
  end.

Notation "x <- m ;; k" := (bind m (fun x => k))
  (at level 61, m at next level, right associativity).
Notation "' p <- m ;; k" := (bind m (fun p => k))
  (at level 61, p pattern, m at next level, right associativity).

Definition is_ok {A} (r : result A) : bool :=
  match r with inr _ => true | inl _ => false end.

Definition int4 (z : Z) : result Z :=
  if (int4_min <=? z) && (z <=? int4_max) then ok z
  else throw numeric_value_out_of_range.

(** A [NOT NULL] column refuses NULL. *)
Definition not_null {A} (column : string) (x : option A) : result A :=
  match x with
  | Some a => ok a
  | None => throw (not_null_violation column)
  end.

(** ** Name resolution in PL/pgSQL

    An SQL statement of a PL/pgSQL function is planned with the variables of
    the function in scope: its parameters, the columns of RETURNS TABLE (they
    are OUT parameters) and the DECLAREd variables.  With
    [plpgsql.variable_conflict] at its default, [error], a name that the
    statement uses as an unqualified column reference and that is also a
    variable raises "column reference is ambiguous". *)
Definition resolve_names (variables column_refs : list string)
  : result unit :=
  match find (fun name => existsb (String.eqb name) variables) column_refs with
  | Some name => throw (ambiguous_column name)
  | None => ok tt
  end.

(** ** Regular expressions, for the [author_email] check *)

Inductive regex : Type :=
| Void
| Eps
| Class (p : ascii -> bool)
| Cat (r1 r2 : regex)
| Alt (r1 r2 : regex)
| Star (r : regex).

Fixpoint nullable (r : regex) : bool :=
  match r with
  | Void => false
  | Eps => true
  | Class _ => false
  | Cat r1 r2 => nullable r1 && nullable r2
  | Alt r1 r2 => nullable r1 || nullable r2
  | Star _ => true
  end.

Fixpoint deriv (c : ascii) (r : regex) : regex :=
  match r with
  | Void => Void
  | Eps => Void
  | Class p => if p c then Eps else Void
  | Cat r1 r2 =>
      if nullable r1 then Alt (Cat (deriv c r1) r2) (deriv c r2)
      else Cat (deriv c r1) r2
  | Alt r1 r2 => Alt (deriv c r1) (deriv c r2)
  | Star r1 => Cat (deriv c r1) (Star r1)
  end.

(** Dead branches are pruned so that the residual stays small. *)
Fixpoint is_void (r : regex) : bool :=
  match r with
  | Void => true
  | Eps => false
  | Class _ => false
  | Cat r1 r2 => is_void r1 || is_void r2
  | Alt r1 r2 => is_void r1 && is_void r2
  | Star _ => false
  end.

Fixpoint prune (r : regex) : regex :=
  match r with
  | Cat r1 r2 =>
      if is_void r1 || is_void r2 then Void else Cat (prune r1) (prune r2)
  | Alt r1 r2 =>
      if is_void r1 then prune r2
      else if is_void r2 then prune r1
      else Alt (prune r1) (prune r2)
  | _ => r
  end.

(** Anchored match ([^ ... $]) of the whole string. *)
Fixpoint re_match (r : regex) (s : string) : bool :=
  match s with
  | EmptyString => nullable r
  | String c s' => re_match (prune (deriv c r)) s'
  end.

Definition Plus (r : regex) : regex := Cat r (Star r).

Definition between (lo hi c : ascii) : bool :=
  (nat_of_ascii lo <=? nat_of_ascii c)%nat
  && (nat_of_ascii c <=? nat_of_ascii hi)%nat.

Definition one_of (cs : list ascii) (c : ascii) : bool :=
  existsb (Ascii.eqb c) cs.

Definition alpha (c : ascii) : bool :=
  between "A"%char "Z"%char c || between "a"%char "z"%char c.

Definition alnum (c : ascii) : bool := alpha c || between "0"%char "9"%char c.

(** [[A-Za-z0-9._%+-]] *)
Definition email_local (c : ascii) : bool :=
  alnum c || one_of ["."; "_"; "%"; "+"; "-"]%char c.

(** [[A-Za-z0-9.-]] *)
Definition email_domain (c : ascii) : bool :=
  alnum c || one_of ["."; "-"]%char c.

Definition lit (a : ascii) : regex := Class (Ascii.eqb a).

(** [^[A-Za-z0-9._%+-]+@[A-Za-z0-9.-]+\.[A-Za-z]{2,}$]; the operator [~*]
    ignores case, which the classes already do. *)
Definition email_regex : regex :=
  Cat (Plus (Class email_local))
    (Cat (lit "@"%char)
       (Cat (Plus (Class email_domain))
          (Cat (lit "."%char)
             (Cat (Class alpha) (Cat (Class alpha) (Star (Class alpha))))))).

Definition sql_imatch (x : option text) (r : regex) : sql_bool :=
  option_map (re_match r) x.

(** ** Tables *)

(** [CREATE TYPE series_status AS ENUM ('ongoing', 'completed')] *)
Inductive series_status : Type := ongoing | completed.

Module Series.
(** Modelled from the spec: the [series] table is created by an earlier
    migration that is not among the sources.  The columns kept are the ones
    the procedures read or write ([id], [status], [updated_at]) and, of the
    data model of the spec, the title and the cumulative view counter. *)
Record row : Type := mk
  { id : uuid;
    title : text;
    views_count : Z;
    status : series_status;
    updated_at : timestamptz }.
End Series.

Module Episode.
(** Modelled from the spec: the [episodes] table is created by an earlier
    migration that is not among the sources.  The columns kept are the ones
    the procedures read ([id], [series_id]) and the title. *)
Record row : Type := mk
  { id : uuid;
    series_id : uuid;
    title : text }.
End Episode.

Module Comment.
(** [CREATE TABLE comments] *)
Record row : Type := mk
  { id : uuid;
    content : text;
    author_name : text;
    author_email : option text;
    series_id : uuid;
    episode_id : option uuid;
    parent_id : option uuid;
    likes_count : Z;
    created_at : timestamptz;
    updated_at : timestamptz }.
End Comment.

Module CommentLike.
(** [CREATE TABLE comment_likes] *)
Record row : Type := mk
  { id : uuid;
    comment_id : uuid;
    user_identifier : text;
    created_at : timestamptz }.
End CommentLike.

Record database : Type := mkdb
  { series : list Series.row;
    episodes : list Episode.row;
    comments : list Comment.row;
    comment_likes : list CommentLike.row }.

Definition with_series (db : database) (rows : list Series.row) : database :=
  mkdb rows (episodes db) (comments db) (comment_likes db).

Definition with_comments (db : database) (rows : list Comment.row)
  : database :=
  mkdb (series db) (episodes db) rows (comment_likes db).

Definition with_comment_likes (db : database) (rows : list CommentLike.row)
  : database :=
  mkdb (series db) (episodes db) (comments db) rows.

(** What a call draws from its environment: the transaction time [now()] and
    the value of [gen_random_uuid()] (each procedure inserts at most one
    row). *)
Record env : Type := mkenv
  { now : timestamptz;
    gen_random_uuid : uuid }.

(** ** Triggers *)

(** Modelled from the spec: [update_updated_at_column()], the function of the
    trigger [trg_comments_updated_at] (BEFORE UPDATE ON comments FOR EACH
    ROW), is defined by an earlier migration that is not among the sources.
    It refreshes the timestamp of the new row, as the procedures' own
    [updated_at = now()] does. *)
Definition update_updated_at_column (e : env) (new : Comment.row)
  : Comment.row :=
  Comment.mk (Comment.id new) (Comment.content new) (Comment.author_name new)
    (Comment.author_email new) (Comment.series_id new)
    (Comment.episode_id new) (Comment.parent_id new)
    (Comment.likes_count new) (Comment.created_at new) (now e).

(** ** Statements on [comment_likes] *)

(** [WHERE comment_id = p_comment_id AND user_identifier = p_user_identifier] *)
Definition like_matches (p_comment_id : option uuid)
    (p_user_identifier : option text) (l : CommentLike.row) : bool :=
  holds (sql_and
           (sql_eq N.eqb (Some (CommentLike.comment_id l)) p_comment_id)
           (sql_eq String.eqb (Some (CommentLike.user_identifier l))
              p_user_identifier)).

(** [DELETE FROM comment_likes WHERE ...] *)
Definition delete_comment_likes (p_comment_id : option uuid)
    (p_user_identifier : option text) (db : database) : database :=
  with_comment_likes db
    (filter (fun l => negb (like_matches p_comment_id p_user_identifier l))
       (comment_likes db)).

(** [INSERT INTO comment_likes (comment_id, user_identifier) VALUES (...)]:
    the defaults fill [id] and [created_at]; then NOT NULL, the CHECK, the
    primary key, UNIQUE(comment_id, user_identifier) and the foreign key. *)
Definition insert_comment_like (e : env) (v_comment_id : option uuid)
    (v_user_identifier : option text) (db : database) : result database :=
  cid <- not_null "comment_id" v_comment_id ;;
  uid <- not_null "user_identifier" v_user_identifier ;;
  if negb (check_passes
             (sql_gt (sql_length (sql_trim (Some uid))) (Some 0%nat)))
  then throw (check_violation "comment_likes_user_identifier_check")
  else if existsb (fun l => N.eqb (CommentLike.id l) (gen_random_uuid e))
            (comment_likes db)
  then throw (unique_violation "comment_likes_pkey")
  else if existsb
            (fun l => N.eqb (CommentLike.comment_id l) cid
                      && String.eqb (CommentLike.user_identifier l) uid)
            (comment_likes db)
  then throw (unique_violation "comment_likes_comment_id_user_identifier_key")
  else if negb (existsb (fun c => N.eqb (Comment.id c) cid) (comments db))
  then throw (foreign_key_violation "comment_likes_comment_id_fkey")
  else ok (with_comment_likes db
             (comment_likes db
              ++ [CommentLike.mk (gen_random_uuid e) cid uid (now e)])).

(** ** Statements on [comments] *)

Definition set_likes_count (c : Comment.row) (n : Z) (t : timestamptz)
  : Comment.row :=
  Comment.mk (Comment.id c) (Comment.content c) (Comment.author_name c)
    (Comment.author_email c) (Comment.series_id c) (Comment.episode_id c)
    (Comment.parent_id c) n (Comment.created_at c) t.

(** [UPDATE comments SET likes_count = likes_count + delta,
    updated_at = now() WHERE id = p_comment_id RETURNING likes_count]:
    the new table and the returned values, one per updated row. *)
Fixpoint update_likes_count (e : env) (delta : Z) (p_comment_id : option uuid)
    (rows : list Comment.row) : result (list Comment.row * list Z) :=
  match rows with
  | [] => ok ([], [])
  | c :: rest =>
      if holds (sql_eq N.eqb (Some (Comment.id c)) p_comment_id) then
        n <- int4 (Comment.likes_count c + delta) ;;
        let c' := update_updated_at_column e (set_likes_count c n (now e)) in
        '(rest', returned) <- update_likes_count e delta p_comment_id rest ;;
        ok (c' :: rest', Comment.likes_count c' :: returned)
      else
        '(rest', returned) <- update_likes_count e delta p_comment_id rest ;;
        ok (c :: rest', returned)
  end.

(** [INSERT INTO comments (content, author_name, author_email, series_id,
    episode_id, parent_id) VALUES (...) RETURNING *]: the defaults fill
    [id], [likes_count], [created_at] and [updated_at]; then NOT NULL, the
    three CHECKs in the order of their names, the primary key and the three
    foreign keys. *)
Definition insert_comment (e : env) (v_content v_author_name
    v_author_email : option text) (v_series_id v_episode_id
    v_parent_id : option uuid) (db : database)
  : result (database * Comment.row) :=
  content <- not_null "content" v_content ;;
  author_name <- not_null "author_name" v_author_name ;;
  series_id <- not_null "series_id" v_series_id ;;
  if negb (check_passes
             (sql_or (is_null v_author_email)
                (sql_imatch v_author_email email_regex)))
  then throw (check_violation "comments_author_email_check")
  else if negb (check_passes
             (sql_and
                (sql_gt (sql_length (sql_trim (Some author_name)))
                   (Some 0%nat))
                (sql_le (sql_length (Some author_name)) (Some 100%nat))))
  then throw (check_violation "comments_author_name_check")
  else if negb (check_passes
             (sql_and
                (sql_gt (sql_length (sql_trim (Some content))) (Some 0%nat))
                (sql_le (sql_length (Some content)) (Some 2000%nat))))
  then throw (check_violation "comments_content_check")
  else if existsb (fun c => N.eqb (Comment.id c) (gen_random_uuid e))
            (comments db)
  then throw (unique_violation "comments_pkey")
  else if negb (existsb (fun s => N.eqb (Series.id s) series_id) (series db))
  then throw (foreign_key_violation "comments_series_id_fkey")
  else if match v_episode_id with
          | None => false
          | Some ep =>
              negb (existsb (fun x => N.eqb (Episode.id x) ep) (episodes db))
          end
  then throw (foreign_key_violation "comments_episode_id_fkey")
  else if match v_parent_id with
          | None => false
          | Some p =>
              negb (existsb (fun c => N.eqb (Comment.id c) p) (comments db))
          end
  then throw (foreign_key_violation "comments_parent_id_fkey")
  else
    let new_comment :=
      Comment.mk (gen_random_uuid e) content author_name v_author_email
        series_id v_episode_id v_parent_id 0 (now e) (now e) in
    ok (with_comments db (comments db ++ [new_comment]), new_comment).

(** ** [toggle_comment_like] *)

Module ToggleJson.
Record t : Type := mk
  { action : text;
    likes_count : option Z;
    user_liked : bool }.
End ToggleJson.

(** Parameters and DECLARE section. *)
Definition toggle_comment_like_variables : list string :=
  ["p_comment_id"; "p_user_identifier"; "like_exists"; "new_likes_count";
   "action_taken"].

(** The columns its statements name without a qualifier. *)
Definition toggle_comment_like_column_refs : list string :=
  ["comment_id"; "user_identifier"; "likes_count"; "id"].

Definition toggle_comment_like (e : env) (p_comment_id : option uuid)
    (p_user_identifier : option text) (db : database)
  : result (database * ToggleJson.t) :=
  _ <- resolve_names toggle_comment_like_variables
         toggle_comment_like_column_refs ;;
  if holds (sql_or
              (sql_or (is_null p_comment_id) (is_null p_user_identifier))
              (sql_eq Nat.eqb (sql_length (sql_trim p_user_identifier))
                 (Some 0%nat)))
  then throw (raise_exception "Invalid parameters")
  else
    let like_exists :=
      existsb (like_matches p_comment_id p_user_identifier)
        (comment_likes db) in
    if like_exists then
      let db1 := delete_comment_likes p_comment_id p_user_identifier db in
      '(rows, returned) <-
        update_likes_count e (-1) p_comment_id (comments db1) ;;
      let new_likes_count := hd_error returned in
      ok (with_comments db1 rows,
          ToggleJson.mk "unliked" new_likes_count (negb like_exists))
    else
      db1 <- insert_comment_like e p_comment_id p_user_identifier db ;;
      '(rows, returned) <-
        update_likes_count e 1 p_comment_id (comments db1) ;;
      let new_likes_count := hd_error returned in
      ok (with_comments db1 rows,
          ToggleJson.mk "liked" new_likes_count (negb like_exists)).

(** ** [create_comment] *)

(** [length(trim(x)) = 0] *)
Definition blank (x : option text) : sql_bool :=
  sql_eq Nat.eqb (sql_length (sql_trim x)) (Some 0%nat).

Definition series_exists (p_series_id : option uuid) (db : database) : bool :=
  existsb (fun s => holds (sql_eq N.eqb (Some (Series.id s)) p_series_id))
    (series db).

Definition episode_exists (p_episode_id p_series_id : option uuid)
    (db : database) : bool :=
  existsb
    (fun x =>
       holds (sql_and (sql_eq N.eqb (Some (Episode.id x)) p_episode_id)
                (sql_eq N.eqb (Some (Episode.series_id x)) p_series_id)))
    (episodes db).

Definition parent_exists (p_parent_id p_series_id : option uuid)
    (db : database) : bool :=
  existsb
    (fun c =>
       holds (sql_and (sql_eq N.eqb (Some (Comment.id c)) p_parent_id)
                (sql_eq N.eqb (Some (Comment.series_id c)) p_series_id)))
    (comments db).

Definition create_comment_variables : list string :=
  ["p_content"; "p_author_name"; "p_author_email"; "p_series_id";
   "p_episode_id"; "p_parent_id"; "new_comment"].

Definition create_comment_column_refs : list string := ["id"; "series_id"].

Definition create_comment (e : env) (p_content p_author_name
    p_author_email : option text) (p_series_id p_episode_id
    p_parent_id : option uuid) (db : database)
  : result (database * Comment.row) :=
  _ <- resolve_names create_comment_variables create_comment_column_refs ;;
  if holds (sql_or (is_null p_content) (blank p_content))
  then throw (raise_exception "Comment content is required")
  else if holds (sql_or (is_null p_author_name) (blank p_author_name))
  then throw (raise_exception "Author name is required")
  else if holds (is_null p_series_id)
  then throw (raise_exception "Series ID is required")
  else if negb (series_exists p_series_id db)
  then throw (raise_exception "Series not found")
  else if holds (sql_and (is_not_null p_episode_id)
                   (sql_not
                      (Some (episode_exists p_episode_id p_series_id db))))
  then throw (raise_exception
          "Episode not found or does not belong to the specified series")
  else if holds (sql_and (is_not_null p_parent_id)
                   (sql_not
                      (Some (parent_exists p_parent_id p_series_id db))))
  then throw (raise_exception
          "Parent comment not found or does not belong to the specified series")
  else
    '(db', new_comment) <-
      insert_comment e (sql_trim p_content) (sql_trim p_author_name)
        (if holds (sql_and (is_not_null p_author_email)
                     (sql_gt (sql_length (sql_trim p_author_email))
                        (Some 0%nat)))
         then sql_trim p_author_email else None)
        p_series_id p_episode_id p_parent_id db ;;
    ok (db', new_comment).

(** ** [get_comments_with_stats] *)

Module CommentStats.
Record row : Type := mk
  { id : uuid;
    content : text;
    author_name : text;
    author_email : option text;
    series_id : uuid;
    episode_id : option uuid;
    parent_id : option uuid;
    likes_count : Z;
    reply_count : Z;
    created_at : timestamptz;
    updated_at : timestamptz }.
End CommentStats.

(** Two grouping keys fall in one group when they are not distinct. *)
Definition same_key (k1 k2 : option uuid) : bool :=
  match k1, k2 with
  | Some a, Some b => N.eqb a b
  | None, None => true
  | _, _ => false
  end.

Fixpoint add_to_group (k : option uuid) (groups : list (option uuid * Z))
  : list (option uuid * Z) :=
  match groups with
  | [] => [(k, 1)]
  | (k', n) :: rest =>
      if same_key k k' then (k', n + 1) :: rest
      else (k', n) :: add_to_group k rest
  end.

(** [SELECT k, COUNT( * ) ... GROUP BY k] over the column of keys. *)
Fixpoint group_by_count (keys : list (option uuid))
  : list (option uuid * Z) :=
  match keys with
  | [] => []
  | k :: rest => add_to_group k (group_by_count rest)
  end.

(** The subquery [reply_counts]:
    [SELECT parent_id, COUNT( * ) AS reply_count FROM comments
     WHERE parent_id IS NOT NULL GROUP BY parent_id]. *)
Definition reply_counts (db : database) : list (option uuid * Z) :=
  group_by_count
    (map Comment.parent_id
       (filter (fun c => holds (is_not_null (Comment.parent_id c)))
          (comments db))).

(** [comments c LEFT JOIN reply_counts ON c.id = reply_counts.parent_id]:
    one row per matching group, and one NULL-extended row when none
    matches. *)
Definition left_join_reply_counts (cs : list Comment.row)
    (rc : list (option uuid * Z)) : list (Comment.row * option Z) :=
  flat_map
    (fun c =>
       match filter (fun g => holds (sql_eq N.eqb (Some (Comment.id c))
                                       (fst g))) rc with
       | [] => [(c, None)]
       | matches => map (fun g => (c, Some (snd g))) matches
       end)
    cs.

(** [WHERE c.series_id = p_series_id
      AND (p_episode_id IS NULL OR c.episode_id = p_episode_id)
      AND c.parent_id IS NULL] *)
Definition stats_where (p_series_id p_episode_id : option uuid)
    (c : Comment.row) : bool :=
  holds (sql_and
           (sql_and
              (sql_eq N.eqb (Some (Comment.series_id c)) p_series_id)
              (sql_or (is_null p_episode_id)
                 (sql_eq N.eqb (Comment.episode_id c) p_episode_id)))
           (is_null (Comment.parent_id c))).

(** [ORDER BY c.created_at DESC], by insertion.  The statement names no
    second key: of two rows of equal time the executor puts either one first,
    and not the same one in every run.  [tie x y] tells whether this run puts
    [x] before [y] when their times are equal; nothing is asked of it. *)
Fixpoint insert_desc {A} (key : A -> timestamptz) (tie : A -> A -> bool)
    (x : A) (l : list A) : list A :=
  match l with
  | [] => [x]
  | y :: rest =>
      if (key y <? key x) || ((key y =? key x) && tie x y) then x :: l
      else y :: insert_desc key tie x rest
  end.

Fixpoint order_by_desc {A} (key : A -> timestamptz) (tie : A -> A -> bool)
    (l : list A) : list A :=
  match l with
  | [] => []
  | x :: rest => insert_desc key tie x (order_by_desc key tie rest)
  end.

(** The place of [x] in [l]: the number of rows before its first
    occurrence. *)
Fixpoint place {A} (eqb : A -> A -> bool) (x : A) (l : list A) : nat :=
  match l with
  | [] => O
  | y :: rest => if eqb x y then O else S (place eqb x rest)
  end.

(** The run that puts rows of equal time in the order [out] has them. *)
Definition tie_of {A} (eqb : A -> A -> bool) (out : list A) (x y : A)
  : bool :=
  Nat.leb (place eqb x out) (place eqb y out).

(** [LIMIT p_limit OFFSET p_offset]: a NULL offset is 0, a NULL limit is no
    limit, a negative count raises. *)
Definition limit_offset {A} (p_limit p_offset : option Z) (rows : list A)
  : result (list A) :=
  skip <- match p_offset with
          | None => ok 0%nat
          | Some o =>
              if o <? 0 then throw invalid_row_count_in_result_offset_clause
              else ok (Z.to_nat o)
          end ;;
  match p_limit with
  | None => ok (skipn skip rows)
  | Some l =>
      if l <? 0 then throw invalid_row_count_in_limit_clause
      else ok (firstn (Z.to_nat l) (skipn skip rows))
  end.

(** [COALESCE(x, d)] *)
Definition coalesce {A} (x : option A) (d : A) : A :=
  match x with Some a => a | None => d end.

(** The SELECT list. *)
Definition stats_select (j : Comment.row * option Z) : CommentStats.row :=
  let c := fst j in
  CommentStats.mk (Comment.id c) (Comment.content c) (Comment.author_name c)
    (Comment.author_email c) (Comment.series_id c) (Comment.episode_id c)
    (Comment.parent_id c) (Comment.likes_count c) (coalesce (snd j) 0)
    (Comment.created_at c) (Comment.updated_at c).

(** The rows the query yields before LIMIT and OFFSET cut them, in the
    order of one run. *)
Definition stats_ordered (tie : Comment.row -> Comment.row -> bool)
    (p_series_id p_episode_id : option uuid) (db : database)
  : list (Comment.row * option Z) :=
  order_by_desc (fun j => Comment.created_at (fst j))
    (fun a b => tie (fst a) (fst b))
    (filter (fun j => stats_where p_series_id p_episode_id (fst j))
       (left_join_reply_counts (comments db) (reply_counts db))).

(** The statement of RETURN QUERY, run once. *)
Definition return_query (tie : Comment.row -> Comment.row -> bool)
    (p_series_id p_episode_id : option uuid) (p_limit p_offset : option Z)
    (db : database) : result (list CommentStats.row) :=
  rows <- limit_offset p_limit p_offset
            (stats_ordered tie p_series_id p_episode_id db) ;;
  ok (map stats_select rows).

(** The parameters and the eleven columns of RETURNS TABLE. *)
Definition get_comments_with_stats_variables : list string :=
  ["p_series_id"; "p_episode_id"; "p_limit"; "p_offset";
   "id"; "content"; "author_name"; "author_email"; "series_id"; "episode_id";
   "parent_id"; "likes_count"; "reply_count"; "created_at"; "updated_at"].

(** The outer query qualifies every column with [c.] or [reply_counts.]; the
    subquery names [parent_id] bare, in its SELECT list, its WHERE and its
    GROUP BY. *)
Definition get_comments_with_stats_column_refs : list string :=
  ["parent_id"; "parent_id"; "parent_id"].

Definition get_comments_with_stats (tie : Comment.row -> Comment.row -> bool)
    (p_series_id p_episode_id : option uuid) (p_limit p_offset : option Z)
    (db : database) : result (list CommentStats.row) :=
  _ <- resolve_names get_comments_with_stats_variables
         get_comments_with_stats_column_refs ;;
  return_query tie p_series_id p_episode_id p_limit p_offset db.

(** A parameter with a DEFAULT: [None] is an argument left out of the call,
    [Some v] an argument given (NULL included). *)
Definition with_default {A} (default : A) (given : option A) : A :=
  match given with Some v => v | None => default end.

(** The call as a client issues it: [p_episode_id DEFAULT NULL],
    [p_limit DEFAULT 50], [p_offset DEFAULT 0]. *)
Definition call_get_comments_with_stats
    (tie : Comment.row -> Comment.row -> bool) (p_series_id : option uuid)
    (p_episode_id : option (option uuid)) (p_limit p_offset : option (option Z))
    (db : database) : result (list CommentStats.row) :=
  get_comments_with_stats tie p_series_id (with_default None p_episode_id)
    (with_default (Some 50) p_limit) (with_default (Some 0) p_offset) db.

(** ** [admin_update_series_status] *)

Definition set_status (s : Series.row) (st : series_status) (t : timestamptz)
  : Series.row :=
  Series.mk (Series.id s) (Series.title s) (Series.views_count s) st t.

(** [UPDATE series SET status = p_status, updated_at = now()
     WHERE id = p_series_id]: the new table and the number of rows updated;
    [status] is NOT NULL. *)
Fixpoint update_series_status (e : env) (p_series_id : option uuid)
    (p_status : option series_status) (rows : list Series.row)
  : result (list Series.row * nat) :=
  match rows with
  | [] => ok ([], 0%nat)
  | s :: rest =>
      if holds (sql_eq N.eqb (Some (Series.id s)) p_series_id) then
        st <- not_null "status" p_status ;;
        '(rest', n) <- update_series_status e p_series_id p_status rest ;;
        ok (set_status s st (now e) :: rest', S n)
      else
        '(rest', n) <- update_series_status e p_series_id p_status rest ;;
        ok (s :: rest', n)
  end.

Definition admin_secret : text := "Shivam2008".

Definition admin_update_series_status_variables : list string :=
  ["admin_code"; "p_series_id"; "p_status"].

Definition admin_update_series_status_column_refs : list string := ["id"].

Definition admin_update_series_status (e : env) (admin_code : option text)
    (p_series_id : option uuid) (p_status : option series_status)
    (db : database) : result (database * unit) :=
  _ <- resolve_names admin_update_series_status_variables
         admin_update_series_status_column_refs ;;
  if holds (sql_neq String.eqb admin_code (Some admin_secret))
  then throw (raise_exception "Unauthorized")
  else
    '(rows, row_count) <-
      update_series_status e p_series_id p_status (series db) ;;
    let found := negb (Nat.eqb row_count 0) in
    if negb found then throw (raise_exception "Series not found")
    else ok (with_series db rows, tt).

(** ** Calls and reachable states *)

Inductive call : Type :=
| ToggleCommentLike (p_comment_id : option uuid)
    (p_user_identifier : option text)
| CreateComment (p_content p_author_name p_author_email : option text)
    (p_series_id p_episode_id p_parent_id : option uuid)
| GetCommentsWithStats (p_series_id p_episode_id : option uuid)
    (p_limit p_offset : option Z)
| AdminUpdateSeriesStatus (admin_code : option text)
    (p_series_id : option uuid) (p_status : option series_status).

(** The database after a call: the one the procedure built when it returned,
    the one before when it raised (the transaction is rolled back). *)
Definition commit {A} (db : database) (r : result (database * A))
  : database :=
  match r with
  | inr (db', _) => db'
  | inl _ => db
  end.

Definition exec (e : env) (c : call) (db : database) : database :=
  match c with
  | ToggleCommentLike cid uid => commit db (toggle_comment_like e cid uid db)
  | CreateComment c n m s ep p =>
      commit db (create_comment e c n m s ep p db)
  | GetCommentsWithStats _ _ _ _ => db
  | AdminUpdateSeriesStatus code s st =>
      commit db (admin_update_series_status e code s st db)
  end.

(** States reached from [init] by any sequence of calls. *)
Inductive reachable (init : database) : database -> Prop :=
| reach_init : reachable init init
| reach_exec (db : database) (e : env) (c : call) :
    reachable init db -> reachable init (exec e c db).

(** The state the comments migration leaves: both new tables empty. *)
Definition fresh_database (db : database) : Prop :=
  comments db = [] /\ comment_likes db = [].

(** ** Vocabulary of the statements *)

(** Everything of a comment but its like counter and its update time. *)
Definition same_but_likes (c c' : Comment.row) : Prop :=
  Comment.id c' = Comment.id c
  /\ Comment.content c' = Comment.content c
  /\ Comment.author_name c' = Comment.author_name c
  /\ Comment.author_email c' = Comment.author_email c
  /\ Comment.series_id c' = Comment.series_id c
  /\ Comment.episode_id c' = Comment.episode_id c
  /\ Comment.parent_id c' = Comment.parent_id c
  /\ Comment.created_at c' = Comment.created_at c.

(** The row the UPDATE writes for a row it matches. *)
Definition bump (e : env) (delta : Z) (c : Comment.row) : Comment.row :=
  update_updated_at_column e
    (set_likes_count c (Comment.likes_count c + delta) (now e)).

Definition targets (cid : uuid) (c : Comment.row) : bool :=
  N.eqb (Comment.id c) cid.

Definition updated (e : env) (delta : Z) (cid : uuid) (c : Comment.row)
  : Comment.row :=
  if targets cid c then bump e delta c else c.

(** The counter of comment [cid] and whether [uid] has a like row on it. *)
Definition likes_of (db : database) (cid : uuid) : option Z :=
  option_map Comment.likes_count (find (targets cid) (comments db)).

Definition liked_by (db : database) (cid : uuid) (uid : text) : bool :=
  existsb (like_matches (Some cid) (Some uid)) (comment_likes db).

(** ** Sample data *)

Module Sample.
Definition show : Series.row := Series.mk 1%N "Show" 0 ongoing 100.
Definition pilot : Episode.row := Episode.mk 10%N 1%N "Pilot".

(** One series with one episode, and the two comment tables empty. *)
Definition empty_db : database := mkdb [show] [pilot] [] [].

Definition at1 : env := mkenv 1000 100%N.
Definition at2 : env := mkenv 2000 101%N.
Definition at3 : env := mkenv 3000 102%N.

(** A top-level comment, a reply to it, and a reply to the reply. *)
Definition one_comment : database :=
  exec at1
    (CreateComment (Some "  Great episode! ") (Some "Alex") (Some "  ")
       (Some 1%N) None None)
    empty_db.

Definition two_comments : database :=
  exec at2
    (CreateComment (Some "Agreed") (Some "Bob") (Some "bob@example.com")
       (Some 1%N) (Some 10%N) (Some 100%N))
    one_comment.

Definition three_comments : database :=
  exec at3
    (CreateComment (Some "Me too") (Some "Eve") None
       (Some 1%N) (Some 10%N) (Some 101%N))
    two_comments.

(** A comment whose counter is the largest [integer]. *)
Definition full_counter : database :=
  mkdb [show] [pilot]
    [Comment.mk 100%N "Great episode!" "Alex" None 1%N None None int4_max
       1000 1000]
    [].

(** An author name of 101 letters. *)
Definition long_name : string :=
  string_of_list_ascii (repeat "a"%char 101).
End Sample.

(** What [toggle_comment_like] may change in a comment: the row with id
    [cid] keeps everything but its counter and gets the time of the call as
    its update time; every other row is kept as it is. *)
Definition only_likes_touched (e : env) (cid : uuid) (c c' : Comment.row)
  : Prop :=
  same_but_likes c c'
  /\ (Comment.id c <> cid -> c' = c)
  /\ (Comment.id c = cid -> Comment.updated_at c' = now e).

(** The like rows of every pair other than ([cid], [uid]). *)
Definition other_likes (cid : uuid) (uid : text) (db : database)
  : list CommentLike.row :=
  filter (fun l => negb (like_matches (Some cid) (Some uid) l))
    (comment_likes db).

(** The like rows of the pair ([cid], [uid]). *)
Definition likes_of_pair (cid : uuid) (uid : text) (db : database)
  : list CommentLike.row :=
  filter (like_matches (Some cid) (Some uid)) (comment_likes db).

(** UNIQUE(comment_id, user_identifier): at most one like row per pair. *)
Definition likes_unique (db : database) : Prop :=
  forall (cid : uuid) (uid : text),
    (List.length (likes_of_pair cid uid db) <= 1)%nat.

(** Replies hang under top-level comments only. *)
Definition two_level (db : database) : Prop :=
  forall (c : Comment.row) (p : uuid),
    In c (comments db) -> Comment.parent_id c = Some p ->
    exists pc, In pc (comments db) /\ Comment.id pc = p
               /\ Comment.parent_id pc = None.

(** Replies hang under a comment of their own series. *)
Definition replies_in_series (db : database) : Prop :=
  forall (c : Comment.row) (p : uuid),
    In c (comments db) -> Comment.parent_id c = Some p ->
    exists pc, In pc (comments db) /\ Comment.id pc = p
               /\ Comment.series_id pc = Comment.series_id c.

(** The number of comments whose parent is the comment [cid]. *)
Definition replies_to (cid : uuid) (db : database) : nat :=
  List.length
    (filter (fun c => match Comment.parent_id c with
                      | Some p => N.eqb p cid
                      | None => false
                      end)
       (comments db)).

(** A top-level comment of series [sid], of episode [eid] when one is
    given. *)
Definition top_level_of (sid : uuid) (eid : option uuid) (c : Comment.row)
  : bool :=
  N.eqb (Comment.series_id c) sid
  && match Comment.parent_id c with None => true | Some _ => false end
  && match eid with
     | None => true
     | Some ep =>
         match Comment.episode_id c with
         | Some x => N.eqb x ep
         | None => false
         end
     end.

(** The comment a returned row shows. *)
Definition comment_of (r : CommentStats.row) : Comment.row :=
  Comment.mk (CommentStats.id r) (CommentStats.content r)
    (CommentStats.author_name r) (CommentStats.author_email r)
    (CommentStats.series_id r) (CommentStats.episode_id r)
    (CommentStats.parent_id r) (CommentStats.likes_count r)
    (CommentStats.created_at r) (CommentStats.updated_at r).

(** Newest first. *)
Definition newest_first (rows : list CommentStats.row) : Prop :=
  StronglySorted
    (fun a b => CommentStats.created_at b <= CommentStats.created_at a) rows.

(** The groups of key [cid] in a grouped relation. *)
Definition groups_of (cid : uuid) (groups : list (option uuid * Z))
  : list (option uuid * Z) :=
  filter (fun g => holds (sql_eq N.eqb (Some cid) (fst g))) groups.

Definition key_count (cid : uuid) (keys : list (option uuid)) : nat :=
  List.length (filter (same_key (Some cid)) keys).

(** ** Vocabulary of the statements on [create_comment] *)

(** NULL, or blank once trimmed. *)
Definition missing (x : option text) : bool :=
  match x with
  | None => true
  | Some s => String.eqb (trim s) ""
  end.

(** NULL, or the id of no row of [series]. *)
Definition no_such_series (p_series_id : option uuid) (db : database) : bool :=
  match p_series_id with
  | None => true
  | Some sid => negb (existsb (fun s => N.eqb (Series.id s) sid) (series db))
  end.

(** Not NULL, and the id of no episode of that series. *)
Definition no_such_episode (p_episode_id p_series_id : option uuid)
    (db : database) : bool :=
  match p_episode_id with
  | None => false
  | Some ep =>
      negb (existsb
              (fun x => N.eqb (Episode.id x) ep
                        && match p_series_id with
                           | Some sid => N.eqb (Episode.series_id x) sid
                           | None => false
                           end)
              (episodes db))
  end.

(** Not NULL, and the id of no comment of that series. *)
Definition no_such_parent (p_parent_id p_series_id : option uuid)
    (db : database) : bool :=
  match p_parent_id with
  | None => false
  | Some p =>
      negb (existsb
              (fun c => N.eqb (Comment.id c) p
                        && match p_series_id with
                           | Some sid => N.eqb (Comment.series_id c) sid
                           | None => false
                           end)
              (comments db))
  end.

(** The five reasons of refusal that the procedure raises itself. *)
Definition refused_by_validation (p_content p_author_name : option text)
    (p_series_id p_episode_id p_parent_id : option uuid) (db : database)
  : bool :=
  missing p_content || missing p_author_name
  || no_such_series p_series_id db
  || no_such_episode p_episode_id p_series_id db
  || no_such_parent p_parent_id p_series_id db.

(** Longer than [n] characters once trimmed. *)
Definition longer_than (n : nat) (x : option text) : bool :=
  match x with
  | Some s => Nat.ltb n (String.length (trim s))
  | None => false
  end.

(** Not blank once trimmed, and then not of the shape of an address. *)
Definition malformed_email (x : option text) : bool :=
  match x with
  | Some m =>
      negb (String.eqb (trim m) "") && negb (re_match email_regex (trim m))
  | None => false
  end.

(** The three reasons of refusal that the CHECKs of the table add. *)
Definition refused_by_checks (p_content p_author_name
    p_author_email : option text) : bool :=
  longer_than 2000 p_content || longer_than 100 p_author_name
  || malformed_email p_author_email.

(** The stored email: NULL for a NULL or blank one, trimmed otherwise. *)
Definition normalized_email (x : option text) : option text :=
  match x with
  | Some m => if String.eqb (trim m) "" then None else Some (trim m)
  | None => None
  end.

(** What it is for a string to match a regular expression; [re_match]
    decides it (lemma [re_match_spec]). *)
Inductive matches : regex -> string -> Prop :=
| matches_eps : matches Eps ""
| matches_class (p : ascii -> bool) (c : ascii) :
    p c = true -> matches (Class p) (String c "")
| matches_cat (r1 r2 : regex) (s1 s2 : string) :
    matches r1 s1 -> matches r2 s2 -> matches (Cat r1 r2) (s1 ++ s2)
| matches_alt_l (r1 r2 : regex) (s : string) :
    matches r1 s -> matches (Alt r1 r2) s
| matches_alt_r (r1 r2 : regex) (s : string) :
    matches r2 s -> matches (Alt r1 r2) s
| matches_star_nil (r : regex) : matches (Star r) ""
| matches_star_cons (r : regex) (s1 s2 : string) :
    matches r s1 -> matches (Star r) s2 -> matches (Star r) (s1 ++ s2).

(** ** Vocabulary of the invariants of the schema *)





(** The three CHECKs of [comments] on one row, and what [create_comment]
    adds to them: the texts are stored trimmed. *)
Definition row_checked (c : Comment.row) : Prop :=
  trim (Comment.content c) = Comment.content c
  /\ Comment.content c <> ""
  /\ (String.length (Comment.content c) <= 2000)%nat
  /\ trim (Comment.author_name c) = Comment.author_name c
  /\ Comment.author_name c <> ""
  /\ (String.length (Comment.author_name c) <= 100)%nat
  /\ match Comment.author_email c with
     | None => True
     | Some m => trim m = m /\ m <> "" /\ matches email_regex m
     end.

(** The series of a comment exists, and its episode, when it has one, is an
    episode of that series. *)
Definition row_placed (db : database) (c : Comment.row) : Prop :=
  In (Comment.series_id c) (map Series.id (series db))
  /\ match Comment.episode_id c with
     | None => True
     | Some ep =>
         exists x, In x (episodes db) /\ Episode.id x = ep
                   /\ Episode.series_id x = Comment.series_id c
     end.


(** What [admin_update_series_status] may change in a series row: the row
    with the id given takes the status and the time of the call; every other
    row is kept as it is. *)
Definition only_status_touched (e : env) (p_series_id : option N)
    (p_status : option series_status) (s s' : Series.row) : Prop :=
  Series.id s' = Series.id s /\ Series.title s' = Series.title s
  /\ Series.views_count s' = Series.views_count s
  /\ (Some (Series.id s) <> p_series_id -> s' = s)
  /\ (Some (Series.id s) = p_series_id ->
      Some (Series.status s') = p_status /\ Series.updated_at s' = now e).

(** The rows are checked and placed. *)
Definition rows_sound (db : database) : Prop :=
  forall c, In c (comments db) -> row_checked c /\ row_placed db c.

(** A run of calls of [toggle_comment_like] on one comment, one per
    (environment, identifier) pair, as [handleLike] of the first comment item
    issues them: it draws a new identifier for every click. *)
Fixpoint toggles (steps : list (env * string)) (cid : N) (db : database)
  : database :=
  match steps with
  | [] => db
  | (e, uid) :: rest =>
      toggles rest cid (exec e (ToggleCommentLike (Some cid) (Some uid)) db)
  end.

(** The message [create_comment] raises itself, if any: the tests run in the
    order content, author name, series id, series, episode, parent. *)
Definition validation_message (p_content p_author_name : option string)
    (p_series_id p_episode_id p_parent_id : option N) (db : database)
  : option string :=
  if missing p_content then Some "Comment content is required"
  else if missing p_author_name then Some "Author name is required"
  else match p_series_id with
       | None => Some "Series ID is required"
       | Some _ =>
           if no_such_series p_series_id db then Some "Series not found"
           else if no_such_episode p_episode_id p_series_id db
           then Some
                  "Episode not found or does not belong to the specified series"
           else if no_such_parent p_parent_id p_series_id db
           then Some
                  "Parent comment not found or does not belong to the specified series"
           else None
       end.

(** Every character of the string satisfies [p]. *)
Fixpoint all_chars (p : ascii -> bool) (s : string) : bool :=
  match s with
  | EmptyString => true
  | String c rest => p c && all_chars p rest
  end.

(** ** The client: the comment form

    Sources: the two comment forms ([handleSubmit]).  A JavaScript string is
    taken as the list of its code units, all below 256; a comment id is the
    [uuid] it spells.  Toasts and component state are left out: a handler is
    the request it sends. *)

(** The white space that [String.prototype.trim] strips, among the code units
    below 256: TAB, LF, VT, FF, CR, SP and NBSP. *)
Definition js_white_space (c : ascii) : bool :=
  one_of (map ascii_of_nat [9; 10; 11; 12; 13; 32; 160]%nat) c.

Fixpoint js_trim_start (s : string) : string :=
  match s with
  | EmptyString => EmptyString
  | String c s' => if js_white_space c then js_trim_start s' else s
  end.

Fixpoint js_trim_end (s : string) : string :=
  match s with
  | EmptyString => EmptyString
  | String c s' =>
      match js_trim_end s' with
      | EmptyString =>
          if js_white_space c then EmptyString else String c EmptyString
      | r => String c r
      end
  end.

(** [s.trim()] *)
Definition js_trim (s : string) : string := js_trim_end (js_trim_start s).

(** What [handleSubmit] does: a toast and no request, or the request. *)
Inductive submitted : Type :=
| Toasted (title : string)
| Requested (c : call).

(** [handleSubmit] of the comment form: [!content.trim()] and
    [!authorName.trim()] stop with a toast; otherwise the remote call
    [create_comment] is made with the trimmed texts, and
    [authorEmail.trim() || null]. *)
Definition handleSubmit (content authorName authorEmail : string)
    (seriesId : N) (episodeId parentId : option N) : submitted :=
  if String.eqb (js_trim content) "" then Toasted "Comment required"
  else if String.eqb (js_trim authorName) "" then Toasted "Name required"
  else
    Requested
      (CreateComment (Some (js_trim content)) (Some (js_trim authorName))
         (if String.eqb (js_trim authorEmail) "" then None
          else Some (js_trim authorEmail))
         (Some seriesId) episodeId parentId).

(** ** The client: the list of comments

    Sources: the count query of the comments list and [loadReplies] of the
    first comment item, two selections that the client runs on the table
    [comments] itself (its read policy lets every row through). *)

(** [select("*", { count: "exact", head: true }).eq("series_id", seriesId)
     .is("parent_id", null)], then [.eq("episode_id", episodeId)] when an
    episode is given and [.is("episode_id", null)] when none is. *)
Definition totalCount (seriesId : N) (episodeId : option N) (db : database)
  : nat :=
  List.length
    (filter
       (fun c =>
          N.eqb (Comment.series_id c) seriesId
          && match Comment.parent_id c with None => true | Some _ => false end
          && match episodeId with
             | Some ep =>
                 match Comment.episode_id c with
                 | Some x => N.eqb x ep
                 | None => false
                 end
             | None =>
                 match Comment.episode_id c with
                 | Some _ => false
                 | None => true
                 end
             end)
       (comments db)).

(** [order("created_at", { ascending: true })], by insertion; as for
    [order_by_desc], no second key is named and [tie] is the choice of the
    run among rows of equal time. *)
Fixpoint insert_asc {A} (key : A -> Z) (tie : A -> A -> bool) (x : A)
    (l : list A) : list A :=
  match l with
  | [] => [x]
  | y :: rest =>
      if (key x <? key y) || ((key x =? key y) && tie x y) then x :: l
      else y :: insert_asc key tie x rest
  end.

Fixpoint order_by_asc {A} (key : A -> Z) (tie : A -> A -> bool) (l : list A)
  : list A :=
  match l with
  | [] => []
  | x :: rest => insert_asc key tie x (order_by_asc key tie rest)
  end.

(** [loadReplies] of the first comment item.  While replies are being loaded,
    and in an item that is itself a reply, the handler returns at once
    ([if (isLoadingReplies || isReply) return]): no query is sent, which is
    [None].  Otherwise it runs
    [from("comments").select("*").eq("parent_id", comment.id)
     .order("created_at", { ascending: true })]
    and the rows become the replies shown. *)
Definition loadReplies (tie : Comment.row -> Comment.row -> bool)
    (isLoadingReplies isReply : bool) (comment_id : N) (db : database)
  : option (list Comment.row) :=
  if isLoadingReplies || isReply then None
  else
    Some
      (order_by_asc Comment.created_at tie
         (filter (fun c => match Comment.parent_id c with
                           | Some p => N.eqb p comment_id
                           | None => false
                           end)
            (comments db))).

(** Two comments without parent under one series: stored at different times
    in [apart], at the same time in [together]; and two orders a run may
    take among rows of equal time. *)
Module Pages.
Definition apart : database :=
  exec Sample.at2
    (CreateComment (Some "Second") (Some "Bob") None (Some 1%N) None None)
    Sample.one_comment.

Definition together : database :=
  exec (mkenv 1000 101%N)
    (CreateComment (Some "Second") (Some "Bob") None (Some 1%N) None None)
    Sample.one_comment.

Definition lower_id_first (x y : Comment.row) : bool :=
  N.ltb (Comment.id x) (Comment.id y).

Definition higher_id_first (x y : Comment.row) : bool :=
  N.ltb (Comment.id y) (Comment.id x).
End Pages.

(** No two of the rows that the WHERE clause keeps were created at the same
    time. *)
Definition distinct_times (p_series_id p_episode_id : option uuid)
    (db : database) : Prop :=
  NoDup (map Comment.created_at
           (filter (stats_where p_series_id p_episode_id) (comments db))).

(** Equality of comment rows, decided field by field. *)
Definition comment_eq_dec (x y : Comment.row) : {x = y} + {x <> y}.
Proof. repeat decide equality. Defined.

Definition comment_eqb (x y : Comment.row) : bool :=
  if comment_eq_dec x y then true else false.

(** * Properties *)

(** ** Name resolution *)

(** In the three procedures that write, no column reference is a variable. *)
Lemma toggle_comment_like_names :
  resolve_names toggle_comment_like_variables toggle_comment_like_column_refs
  = ok tt.
Proof. reflexivity. Qed.

Lemma create_comment_names :
  resolve_names create_comment_variables create_comment_column_refs = ok tt.
Proof. reflexivity. Qed.

Lemma admin_update_series_status_names :
  resolve_names admin_update_series_status_variables
    admin_update_series_status_column_refs = ok tt.
Proof. reflexivity. Qed.

Ltac resolved :=
  rewrite ?toggle_comment_like_names, ?create_comment_names,
    ?admin_update_series_status_names; cbn [bind ok].

(** ** The matcher decides the language of the expression *)

Lemma append_empty (s1 s2 : string) : (s1 ++ s2)%string = "" -> s1 = "" /\ s2 = "".
Proof. destruct s1; simpl; intros H; [auto | discriminate]. Qed.

Lemma matches_void_inv (s : string) : ~ matches Void s.
Proof. intros H. inversion H. Qed.

Lemma matches_eps_inv (s : string) : matches Eps s -> s = "".
Proof. intros H. now inversion H. Qed.

Lemma matches_class_inv (p : ascii -> bool) (s : string) :
  matches (Class p) s -> exists c, s = String c "" /\ p c = true.
Proof. intros H. inversion H; subst. eauto. Qed.

Lemma matches_cat_inv (r1 r2 : regex) (s : string) :
  matches (Cat r1 r2) s ->
  exists s1 s2, s = (s1 ++ s2)%string /\ matches r1 s1 /\ matches r2 s2.
Proof. intros H. inversion H; subst. eauto. Qed.

Lemma matches_alt_inv (r1 r2 : regex) (s : string) :
  matches (Alt r1 r2) s -> matches r1 s \/ matches r2 s.
Proof. intros H. inversion H; subst; auto. Qed.

Lemma nullable_spec (r : regex) : nullable r = true <-> matches r "".
Proof.
  induction r as [ | | p | r1 IH1 r2 IH2 | r1 IH1 r2 IH2 | r IH]; simpl.
  - split; [discriminate | intros H; now apply matches_void_inv in H].
  - split; [intros _; constructor | reflexivity].
  - split; [discriminate | ].
    intros H. apply matches_class_inv in H. destruct H as (c & H & _).
    discriminate.
  - rewrite andb_true_iff, IH1, IH2. split.
    + intros [H1 H2]. now apply (matches_cat r1 r2 "" "").
    + intros H. apply matches_cat_inv in H.
      destruct H as (s1 & s2 & Hs & H1 & H2). symmetry in Hs.
      apply append_empty in Hs. destruct Hs as [-> ->]. auto.
  - rewrite orb_true_iff, IH1, IH2. split.
    + intros [H | H]; [now apply matches_alt_l | now apply matches_alt_r].
    + apply matches_alt_inv.
  - split; [intros _; constructor | reflexivity].
Qed.

Lemma matches_cat_cons (r1 r2 : regex) (c : ascii) (s : string) :
  matches (Cat r1 r2) (String c s) ->
  (exists s1 s2, s = (s1 ++ s2)%string /\ matches r1 (String c s1)
                 /\ matches r2 s2)
  \/ (matches r1 "" /\ matches r2 (String c s)).
Proof.
  intros H. apply matches_cat_inv in H.
  destruct H as (s1 & s2 & Hs & H1 & H2).
  destruct s1 as [ | d s1']; simpl in Hs.
  - right. subst. auto.
  - left. injection Hs as -> ->. now exists s1', s2.
Qed.

Lemma matches_star_cons_inv (r : regex) (c : ascii) (s : string) :
  matches (Star r) (String c s) ->
  exists s1 s2, s = (s1 ++ s2)%string /\ matches r (String c s1)
                /\ matches (Star r) s2.
Proof.
  intros H. remember (Star r) as r0 eqn:Er. remember (String c s) as s0 eqn:Es.
  revert s Es.
  induction H as [ | | | | | | r' s1 s2 H1 _ H2 IH2]; intros t Et;
    try discriminate.
  injection Er as ->.
  destruct s1 as [ | d s1']; simpl in Et.
  - apply IH2; [reflexivity | exact Et].
  - injection Et as -> <-. now exists s1', s2.
Qed.

Lemma deriv_spec (c : ascii) (r : regex) (s : string) :
  matches (deriv c r) s <-> matches r (String c s).
Proof.
  revert s.
  induction r as [ | | p | r1 IH1 r2 IH2 | r1 IH1 r2 IH2 | r IH]; intros s;
    simpl.
  - split; intros H; now apply matches_void_inv in H.
  - split; intros H; [now apply matches_void_inv in H | ].
    apply matches_eps_inv in H. discriminate.
  - destruct (p c) eqn:E; split; intros H.
    + apply matches_eps_inv in H. subst. now constructor.
    + apply matches_class_inv in H. destruct H as (d & Hs & _).
      injection Hs as _ ->. constructor.
    + now apply matches_void_inv in H.
    + apply matches_class_inv in H. destruct H as (d & Hs & Hd).
      injection Hs as -> _. congruence.
  - assert (Hcat : forall x, matches (Cat (deriv c r1) r2) x ->
                             matches (Cat r1 r2) (String c x)).
    { intros x H. apply matches_cat_inv in H.
      destruct H as (s1 & s2 & -> & H1 & H2). apply IH1 in H1.
      now apply (matches_cat r1 r2 (String c s1) s2). }
    destruct (nullable r1) eqn:En; split; intros H.
    + apply matches_alt_inv in H. destruct H as [H | H].
      * now apply Hcat.
      * apply IH2 in H. apply nullable_spec in En.
        now apply (matches_cat r1 r2 "" (String c s)).
    + apply matches_cat_cons in H.
      destruct H as [(s1 & s2 & -> & H1 & H2) | [_ H2]].
      * apply matches_alt_l. constructor; [now apply IH1 | exact H2].
      * apply matches_alt_r. now apply IH2.
    + now apply Hcat.
    + apply matches_cat_cons in H.
      destruct H as [(s1 & s2 & -> & H1 & H2) | [H1 _]].
      * constructor; [now apply IH1 | exact H2].
      * apply nullable_spec in H1. congruence.
  - split; intros H; apply matches_alt_inv in H; destruct H as [H | H];
      ((apply matches_alt_l; now apply IH1)
       || (apply matches_alt_r; now apply IH2)).
  - split; intros H.
    + apply matches_cat_inv in H. destruct H as (s1 & s2 & -> & H1 & H2).
      apply IH in H1.
      now apply (matches_star_cons r (String c s1) s2).
    + apply matches_star_cons_inv in H.
      destruct H as (s1 & s2 & -> & H1 & H2).
      constructor; [now apply IH | exact H2].
Qed.

Lemma is_void_spec (r : regex) (s : string) :
  is_void r = true -> ~ matches r s.
Proof.
  revert s.
  induction r as [ | | p | r1 IH1 r2 IH2 | r1 IH1 r2 IH2 | r IH]; simpl;
    intros s Hv H; try discriminate.
  - now apply matches_void_inv in H.
  - apply matches_cat_inv in H. destruct H as (s1 & s2 & -> & H1 & H2).
    apply orb_true_iff in Hv.
    destruct Hv as [Hv | Hv]; [eapply IH1 | eapply IH2]; eassumption.
  - apply andb_true_iff in Hv. destruct Hv as [Hv1 Hv2].
    apply matches_alt_inv in H.
    destruct H as [H | H]; [eapply IH1 | eapply IH2]; eassumption.
Qed.

Lemma prune_spec (r : regex) (s : string) :
  matches (prune r) s <-> matches r s.
Proof.
  revert s.
  induction r as [ | | p | r1 IH1 r2 IH2 | r1 IH1 r2 IH2 | r IH]; intros s;
    simpl; try tauto.
  - destruct (is_void r1 || is_void r2) eqn:Ev.
    + split; intros H; [now apply matches_void_inv in H | ].
      exfalso. revert H. apply is_void_spec. exact Ev.
    + split; intros H; apply matches_cat_inv in H;
        destruct H as (s1 & s2 & -> & H1 & H2); constructor;
        now (apply IH1 || apply IH2).
  - destruct (is_void r1) eqn:E1; [ | destruct (is_void r2) eqn:E2].
    + rewrite IH2. split; intros H.
      * now apply matches_alt_r.
      * apply matches_alt_inv in H. destruct H as [H | H]; [ | assumption].
        exfalso. eapply is_void_spec; eassumption.
    + rewrite IH1. split; intros H.
      * now apply matches_alt_l.
      * apply matches_alt_inv in H. destruct H as [H | H]; [assumption | ].
        exfalso. eapply is_void_spec; eassumption.
    + split; intros H; apply matches_alt_inv in H; destruct H as [H | H];
        ((apply matches_alt_l; now apply IH1)
         || (apply matches_alt_r; now apply IH2)).
Qed.

(** [re_match r s] holds exactly when the whole of [s] matches [r]. *)
Lemma re_match_spec (r : regex) (s : string) :
  re_match r s = true <-> matches r s.
Proof.
  revert r. induction s as [ | c s IH]; intros r; simpl.
  - apply nullable_spec.
  - rewrite IH, prune_spec. apply deriv_spec.
Qed.

(** ** The result monad *)

Lemma bind_ok {A B} (m : result A) (k : A -> result B) (b : B) :
  bind m k = inr b -> exists a, m = inr a /\ k a = inr b.
Proof.
  destruct m as [err | a]; simpl; intros H.
  - discriminate.
  - exists a. split; [reflexivity | exact H].
Qed.

Lemma int4_in_range (z : Z) : in_int4 z -> int4 z = ok z.
Proof.
  unfold in_int4, int4. intros [Hlo Hhi].
  apply Z.leb_le in Hlo. apply Z.leb_le in Hhi.
  now rewrite Hlo, Hhi.
Qed.

Lemma int4_ok (z n : Z) : int4 z = inr n -> n = z /\ in_int4 z.
Proof.
  unfold int4, in_int4.
  destruct (int4_min <=? z) eqn:Hlo; destruct (z <=? int4_max) eqn:Hhi;
    simpl; intros H; try discriminate.
  apply Z.leb_le in Hlo. apply Z.leb_le in Hhi.
  injection H as <-. repeat split; assumption.
Qed.

(** ** Text *)

Lemma length_zero_iff (s : string) : String.length s = 0%nat <-> s = "".
Proof. destruct s; simpl; split; intros H; congruence. Qed.

Lemma blank_some (s : string) :
  holds (blank (Some s)) = true <-> trim s = "".
Proof.
  unfold blank; simpl. rewrite <- length_zero_iff.
  destruct (String.length (trim s)); simpl; split; congruence.
Qed.

Lemma blank_some_false (s : string) :
  trim s <> "" -> holds (blank (Some s)) = false.
Proof.
  intros H. destruct (holds (blank (Some s))) eqn:E; [ | reflexivity].
  apply blank_some in E. contradiction.
Qed.

Lemma nonblank_length (s : string) :
  trim s <> "" -> (0 <? String.length (trim s))%nat = true.
Proof.
  intros H. apply Nat.ltb_lt.
  destruct (trim s); [congruence | simpl; lia].
Qed.

(** ** [UPDATE comments SET likes_count ...] *)

Lemma same_but_likes_refl (c : Comment.row) : same_but_likes c c.
Proof. unfold same_but_likes; repeat split. Qed.

Lemma update_likes_count_null (e : env) (delta : Z) (rows : list Comment.row) :
  update_likes_count e delta None rows = ok (rows, []).
Proof.
  induction rows as [ | c rest IH]; simpl.
  - reflexivity.
  - rewrite IH. reflexivity.
Qed.

Lemma update_likes_count_ok (e : env) (delta : Z) (cid : uuid)
    (rows rows' : list Comment.row) (returned : list Z) :
  update_likes_count e delta (Some cid) rows = inr (rows', returned) ->
  rows' = map (fun c => if targets cid c then bump e delta c else c) rows
  /\ returned
     = map (fun c => Comment.likes_count c + delta) (filter (targets cid) rows)
  /\ Forall (fun c => in_int4 (Comment.likes_count c + delta))
       (filter (targets cid) rows).
Proof.
  revert rows' returned.
  induction rows as [ | c rest IH]; simpl; intros rows' returned H.
  - inversion H. auto.
  - change (N.eqb (Comment.id c) cid) with (targets cid c) in H.
    destruct (targets cid c) eqn:E.
    + apply bind_ok in H. destruct H as (n & Hn & H).
      apply int4_ok in Hn. destruct Hn as [-> Hr].
      apply bind_ok in H. destruct H as ([r1 r2] & Hrest & H).
      destruct (IH _ _ Hrest) as (-> & -> & Hall).
      injection H as <- <-.
      split; [reflexivity | split; [reflexivity | constructor; assumption]].
    + apply bind_ok in H. destruct H as ([r1 r2] & Hrest & H).
      destruct (IH _ _ Hrest) as (-> & -> & Hall).
      injection H as <- <-. auto.
Qed.

Lemma update_likes_count_runs (e : env) (delta : Z) (cid : uuid)
    (rows : list Comment.row) :
  Forall (fun c => in_int4 (Comment.likes_count c + delta))
    (filter (targets cid) rows) ->
  update_likes_count e delta (Some cid) rows
  = ok (map (fun c => if targets cid c then bump e delta c else c) rows,
        map (fun c => Comment.likes_count c + delta)
          (filter (targets cid) rows)).
Proof.
  induction rows as [ | c rest IH]; simpl; intros Hall.
  - reflexivity.
  - change (N.eqb (Comment.id c) cid) with (targets cid c).
    destruct (targets cid c) eqn:E.
    + inversion Hall as [ | ? ? Hc Hrest]; subst.
      rewrite (int4_in_range _ Hc). simpl.
      rewrite (IH Hrest). reflexivity.
    + rewrite (IH Hall). reflexivity.
Qed.

Lemma targets_eq (cid : uuid) (c : Comment.row) :
  targets cid c = true <-> Comment.id c = cid.
Proof. unfold targets. apply N.eqb_eq. Qed.

Lemma filter_targets_absent (cid : uuid) (rows : list Comment.row) :
  ~ In cid (map Comment.id rows) -> filter (targets cid) rows = [].
Proof.
  induction rows as [ | a rest IH]; simpl; intros Hnot.
  - reflexivity.
  - destruct (targets cid a) eqn:E.
    + apply targets_eq in E. tauto.
    + apply IH. tauto.
Qed.

(** Under the primary key, [WHERE id = cid] selects the one row found. *)
Lemma filter_targets_unique (cid : uuid) (rows : list Comment.row)
    (c : Comment.row) :
  NoDup (map Comment.id rows) ->
  find (targets cid) rows = Some c ->
  filter (targets cid) rows = [c].
Proof.
  induction rows as [ | a rest IH]; simpl; intros Hnd Hfind.
  - discriminate.
  - inversion Hnd as [ | ? ? Hnotin Hrest]; subst.
    destruct (targets cid a) eqn:E.
    + injection Hfind as ->. apply targets_eq in E. subst cid.
      now rewrite (filter_targets_absent _ _ Hnotin).
    + now apply IH.
Qed.

Lemma bump_same (e : env) (delta : Z) (c : Comment.row) :
  same_but_likes c (bump e delta c).
Proof. unfold same_but_likes; repeat split. Qed.

Lemma updated_id (e : env) (delta : Z) (cid : uuid) (c : Comment.row) :
  Comment.id (updated e delta cid c) = Comment.id c.
Proof. unfold updated. now destruct (targets cid c). Qed.

Lemma map_updated_ids (e : env) (delta : Z) (cid : uuid)
    (rows : list Comment.row) :
  map Comment.id (map (updated e delta cid) rows) = map Comment.id rows.
Proof.
  rewrite map_map. apply map_ext. intros c. apply updated_id.
Qed.

Lemma find_updated (e : env) (delta : Z) (cid : uuid)
    (rows : list Comment.row) :
  find (targets cid) (map (updated e delta cid) rows)
  = option_map (bump e delta) (find (targets cid) rows).
Proof.
  induction rows as [ | a rest IH]; simpl.
  - reflexivity.
  - unfold targets at 1. rewrite updated_id. fold (targets cid a).
    unfold updated at 1. destruct (targets cid a); [reflexivity | exact IH].
Qed.

Lemma like_matches_spec (cid : uuid) (uid : text) (l : CommentLike.row) :
  like_matches (Some cid) (Some uid) l
  = N.eqb (CommentLike.comment_id l) cid
    && String.eqb (CommentLike.user_identifier l) uid.
Proof.
  unfold like_matches; simpl.
  destruct (N.eqb (CommentLike.comment_id l) cid);
    destruct (String.eqb (CommentLike.user_identifier l) uid); reflexivity.
Qed.

Lemma not_liked_filter (cid : uuid) (uid : text)
    (likes : list CommentLike.row) :
  existsb (like_matches (Some cid) (Some uid)) likes = false ->
  filter (fun l => negb (like_matches (Some cid) (Some uid) l)) likes = likes.
Proof.
  induction likes as [ | l rest IH]; simpl; intros H.
  - reflexivity.
  - apply orb_false_iff in H. destruct H as [Hl Hrest].
    rewrite Hl. simpl. now rewrite IH.
Qed.

Lemma existsb_id_false {A} (key : A -> uuid) (x : uuid) (l : list A) :
  ~ In x (map key l) -> existsb (fun a => N.eqb (key a) x) l = false.
Proof.
  induction l as [ | a rest IH]; simpl; intros H.
  - reflexivity.
  - apply orb_false_iff. split.
    + apply N.eqb_neq. tauto.
    + apply IH. tauto.
Qed.

Lemma existsb_id_true {A} (key : A -> uuid) (x : uuid) (l : list A) :
  In x (map key l) -> existsb (fun a => N.eqb (key a) x) l = true.
Proof.
  intros H. apply in_map_iff in H. destruct H as (a & Ha & Hin).
  apply existsb_exists. exists a. split; [exact Hin | now apply N.eqb_eq].
Qed.

Lemma existsb_pointwise {A} (f g : A -> bool) (l : list A) :
  (forall a, f a = g a) -> existsb f l = existsb g l.
Proof.
  intros H. induction l as [ | a rest IH]; simpl.
  - reflexivity.
  - now rewrite H, IH.
Qed.

(** The validation of [toggle_comment_like] lets through exactly the calls
    with a comment id and a non-blank identifier. *)
Lemma toggle_validation (cid : uuid) (uid : text) :
  trim uid <> "" ->
  holds (sql_or (sql_or (is_null (Some cid)) (is_null (Some uid)))
           (sql_eq Nat.eqb (sql_length (sql_trim (Some uid))) (Some 0%nat)))
  = false.
Proof.
  intros H. simpl.
  destruct (String.length (trim uid)) eqn:E; [ | reflexivity].
  apply length_zero_iff in E. contradiction.
Qed.

Lemma nonblank_check (uid : text) :
  trim uid <> "" ->
  check_passes (sql_gt (sql_length (sql_trim (Some uid))) (Some 0%nat))
  = true.
Proof. intros H. simpl. now rewrite (nonblank_length _ H). Qed.

(** The INSERT of the like branch goes through: none of the constraints of
    [comment_likes] fires. *)
Lemma insert_comment_like_ok (e : env) (cid : uuid) (uid : text)
    (db : database) :
  trim uid <> "" ->
  liked_by db cid uid = false ->
  ~ In (gen_random_uuid e) (map CommentLike.id (comment_likes db)) ->
  In cid (map Comment.id (comments db)) ->
  insert_comment_like e (Some cid) (Some uid) db
  = ok (with_comment_likes db
          (comment_likes db
           ++ [CommentLike.mk (gen_random_uuid e) cid uid (now e)])).
Proof.
  intros Hblank Hnot Hfresh Hin.
  unfold insert_comment_like. cbn [not_null bind ok].
  rewrite (nonblank_check _ Hblank). cbn [negb].
  rewrite (existsb_id_false _ _ _ Hfresh).
  unfold liked_by in Hnot.
  rewrite (existsb_pointwise _ _ _ (like_matches_spec cid uid)) in Hnot.
  rewrite Hnot.
  rewrite (existsb_id_true _ _ _ Hin). reflexivity.
Qed.

Lemma find_targets_in (cid : uuid) (rows : list Comment.row)
    (c : Comment.row) :
  find (targets cid) rows = Some c -> In cid (map Comment.id rows).
Proof.
  intros Hfind. apply find_some in Hfind. destruct Hfind as [Hin Ht].
  apply targets_eq in Ht. subst cid. now apply in_map.
Qed.

(** The UPDATE on the one row the primary key selects. *)
Lemma update_likes_count_unique (e : env) (delta : Z) (cid : uuid)
    (rows : list Comment.row) (c : Comment.row) :
  NoDup (map Comment.id rows) ->
  find (targets cid) rows = Some c ->
  in_int4 (Comment.likes_count c + delta) ->
  update_likes_count e delta (Some cid) rows
  = ok (map (updated e delta cid) rows, [Comment.likes_count c + delta]).
Proof.
  intros Hpk Hfind Hrange.
  rewrite update_likes_count_runs;
    rewrite (filter_targets_unique _ _ _ Hpk Hfind).
  - reflexivity.
  - constructor; [exact Hrange | constructor].
Qed.

(** The like branch, step by step. *)
Lemma toggle_like_branch (e : env) (cid : uuid) (uid : text) (db : database)
    (c : Comment.row) :
  NoDup (map Comment.id (comments db)) ->
  find (targets cid) (comments db) = Some c ->
  in_int4 (Comment.likes_count c + 1) ->
  trim uid <> "" ->
  liked_by db cid uid = false ->
  ~ In (gen_random_uuid e) (map CommentLike.id (comment_likes db)) ->
  toggle_comment_like e (Some cid) (Some uid) db
  = ok (mkdb (series db) (episodes db)
          (map (updated e 1 cid) (comments db))
          (comment_likes db
           ++ [CommentLike.mk (gen_random_uuid e) cid uid (now e)]),
        ToggleJson.mk "liked" (Some (Comment.likes_count c + 1)) true).
Proof.
  intros Hpk Hfind Hrange Hblank Hnot Hfresh.
  unfold toggle_comment_like. resolved. rewrite (toggle_validation _ _ Hblank).
  pose proof Hnot as Hnot'. unfold liked_by in Hnot'. rewrite Hnot'.
  rewrite (insert_comment_like_ok e cid uid db Hblank Hnot Hfresh
             (find_targets_in _ _ _ Hfind)).
  cbn [bind ok with_comment_likes comments].
  rewrite (update_likes_count_unique e 1 cid _ c Hpk Hfind Hrange).
  reflexivity.
Qed.

(** The unlike branch, step by step. *)
Lemma toggle_unlike_branch (e : env) (cid : uuid) (uid : text)
    (db : database) (c : Comment.row) :
  NoDup (map Comment.id (comments db)) ->
  find (targets cid) (comments db) = Some c ->
  in_int4 (Comment.likes_count c - 1) ->
  trim uid <> "" ->
  liked_by db cid uid = true ->
  toggle_comment_like e (Some cid) (Some uid) db
  = ok (mkdb (series db) (episodes db)
          (map (updated e (-1) cid) (comments db))
          (filter (fun l => negb (like_matches (Some cid) (Some uid) l))
             (comment_likes db)),
        ToggleJson.mk "unliked" (Some (Comment.likes_count c - 1)) false).
Proof.
  intros Hpk Hfind Hrange Hblank Hyes.
  unfold toggle_comment_like. resolved. rewrite (toggle_validation _ _ Hblank).
  unfold liked_by in Hyes. rewrite Hyes.
  cbn [delete_comment_likes with_comment_likes comments].
  rewrite (update_likes_count_unique e (-1) cid _ c Hpk Hfind Hrange).
  reflexivity.
Qed.

(** ** [toggle_comment_like]: toggling once and twice *)

Lemma liked_by_app (cid : uuid) (uid : text)
    (likes : list CommentLike.row) (l : CommentLike.row) :
  CommentLike.comment_id l = cid ->
  CommentLike.user_identifier l = uid ->
  existsb (like_matches (Some cid) (Some uid)) (likes ++ [l]) = true.
Proof.
  intros Hc Hu. rewrite existsb_app. apply orb_true_iff. right. simpl.
  rewrite like_matches_spec, Hc, Hu, N.eqb_refl, String.eqb_refl.
  reflexivity.
Qed.

Lemma unlike_filter_app (cid : uuid) (uid : text)
    (likes : list CommentLike.row) (l : CommentLike.row) :
  existsb (like_matches (Some cid) (Some uid)) likes = false ->
  CommentLike.comment_id l = cid ->
  CommentLike.user_identifier l = uid ->
  filter (fun x => negb (like_matches (Some cid) (Some uid) x)) (likes ++ [l])
  = likes.
Proof.
  intros Hnot Hc Hu. rewrite filter_app, (not_liked_filter _ _ _ Hnot).
  simpl. rewrite like_matches_spec, Hc, Hu, N.eqb_refl, String.eqb_refl.
  simpl. apply app_nil_r.
Qed.

(** C1: from a state where user [U] has no like row on the comment [C], one
    call of [toggle_comment_like] answers "liked", [user_liked = true] and the
    counter of [C] plus one; a second call answers "unliked",
    [user_liked = false], and the counter of [C] is back at its value.  The
    comment exists under its primary key, its counter is an [integer] below
    the largest one, and the identifier is not blank. *)
Theorem toggle_comment_like_twice (e1 e2 : env) (C : uuid) (U : text)
    (db : database) (n : Z) :
  NoDup (map Comment.id (comments db)) ->
  likes_of db C = Some n ->
  int4_min <= n < int4_max ->
  trim U <> "" ->
  liked_by db C U = false ->
  ~ In (gen_random_uuid e1) (map CommentLike.id (comment_likes db)) ->
  exists db1 db2 : database,
    toggle_comment_like e1 (Some C) (Some U) db
    = ok (db1, ToggleJson.mk "liked" (Some (n + 1)) true)
    /\ likes_of db1 C = Some (n + 1)
    /\ liked_by db1 C U = true
    /\ toggle_comment_like e2 (Some C) (Some U) db1
       = ok (db2, ToggleJson.mk "unliked" (Some n) false)
    /\ likes_of db2 C = Some n
    /\ liked_by db2 C U = false.
Proof.
  intros Hpk Hlikes Hn Hblank Hnot Hfresh.
  unfold likes_of in Hlikes.
  destruct (find (targets C) (comments db)) as [c | ] eqn:Hfind;
    [ | discriminate].
  injection Hlikes as Hc.
  assert (Hup : in_int4 (Comment.likes_count c + 1))
    by (unfold in_int4, int4_min, int4_max in *; lia).
  pose proof (toggle_like_branch e1 C U db c Hpk Hfind Hup Hblank Hnot Hfresh)
    as Hfirst.
  set (db1 := mkdb (series db) (episodes db)
                (map (updated e1 1 C) (comments db))
                (comment_likes db
                 ++ [CommentLike.mk (gen_random_uuid e1) C U (now e1)]))
    in Hfirst.
  assert (Hpk1 : NoDup (map Comment.id (comments db1)))
    by (simpl; now rewrite map_updated_ids).
  assert (Hfind1 : find (targets C) (comments db1) = Some (bump e1 1 c))
    by (simpl; now rewrite find_updated, Hfind).
  assert (Hdown : in_int4 (Comment.likes_count (bump e1 1 c) - 1))
    by (simpl; unfold in_int4, int4_min, int4_max in *; lia).
  assert (Hyes : liked_by db1 C U = true)
    by (unfold liked_by; simpl; now apply liked_by_app).
  pose proof (toggle_unlike_branch e2 C U db1 _ Hpk1 Hfind1 Hdown Hblank Hyes)
    as Hsecond.
  exists db1. eexists. repeat split.
  - rewrite Hfirst, Hc. reflexivity.
  - unfold likes_of. rewrite Hfind1. simpl. now rewrite Hc.
  - exact Hyes.
  - rewrite Hsecond. simpl. rewrite Hc.
    replace (n + 1 - 1) with n by lia. reflexivity.
  - unfold likes_of. simpl. rewrite !find_updated, Hfind. simpl.
    rewrite Hc. f_equal. lia.
  - unfold liked_by. simpl.
    rewrite unlike_filter_app by (exact Hnot || reflexivity). exact Hnot.
Qed.

Lemma toggle_comment_like_twice_witness :
  exists db1 db2 : database,
    toggle_comment_like Sample.at2 (Some 100%N) (Some "u1") Sample.one_comment
    = ok (db1, ToggleJson.mk "liked" (Some (0 + 1)) true)
    /\ likes_of db1 100%N = Some (0 + 1)
    /\ liked_by db1 100%N "u1" = true
    /\ toggle_comment_like Sample.at3 (Some 100%N) (Some "u1") db1
       = ok (db2, ToggleJson.mk "unliked" (Some 0) false)
    /\ likes_of db2 100%N = Some 0
    /\ liked_by db2 100%N "u1" = false.
Proof.
  apply (toggle_comment_like_twice Sample.at2 Sample.at3 100%N "u1"
           Sample.one_comment 0).
  - vm_compute. constructor; [intros [] | constructor].
  - reflexivity.
  - unfold int4_min, int4_max. lia.
  - vm_compute. discriminate.
  - reflexivity.
  - vm_compute. intros [].
Defined.

(** Where the assumptions of the statement above end: a like on an id that is
    no comment's is refused by the foreign key, and a counter at the largest
    [integer] cannot be raised. *)
Lemma toggle_comment_like_unknown_comment :
  toggle_comment_like Sample.at2 (Some 999%N) (Some "u1") Sample.one_comment
  = throw (foreign_key_violation "comment_likes_comment_id_fkey").
Proof. reflexivity. Qed.

Lemma toggle_comment_like_counter_at_max :
  toggle_comment_like Sample.at2 (Some 100%N) (Some "u1") Sample.full_counter
  = throw numeric_value_out_of_range.
Proof. reflexivity. Qed.

(** ** [toggle_comment_like]: invalid parameters *)

(** C10: whatever the database, a call with a NULL comment id, a NULL user
    identifier or an identifier that is blank once trimmed raises
    'Invalid parameters', and the database is left as it was. *)
Theorem toggle_comment_like_invalid_parameters (e : env)
    (p_comment_id : option uuid) (p_user_identifier : option text)
    (db : database) :
  p_comment_id = None
  \/ p_user_identifier = None
  \/ (exists u, p_user_identifier = Some u /\ trim u = "") ->
  toggle_comment_like e p_comment_id p_user_identifier db
  = throw (raise_exception "Invalid parameters")
  /\ exec e (ToggleCommentLike p_comment_id p_user_identifier) db = db.
Proof.
  intros H.
  assert (Hraise : toggle_comment_like e p_comment_id p_user_identifier db
                   = throw (raise_exception "Invalid parameters")).
  { unfold toggle_comment_like. resolved.
    destruct H as [-> | [-> | (u & -> & Hu)]].
    - destruct p_user_identifier as [u | ]; simpl; [ | reflexivity].
      destruct (String.length (trim u)); reflexivity.
    - destruct p_comment_id; reflexivity.
    - destruct p_comment_id; simpl; [rewrite Hu | ]; reflexivity. }
  split; [exact Hraise | ].
  simpl. rewrite Hraise. reflexivity.
Qed.

Lemma toggle_comment_like_invalid_parameters_witness :
  toggle_comment_like Sample.at2 (Some 100%N) (Some "   ") Sample.one_comment
  = throw (raise_exception "Invalid parameters")
  /\ exec Sample.at2 (ToggleCommentLike (Some 100%N) (Some "   "))
       Sample.one_comment
     = Sample.one_comment.
Proof.
  apply (toggle_comment_like_invalid_parameters Sample.at2 (Some 100%N)
           (Some "   ") Sample.one_comment).
  right. right. exists "   ". split; reflexivity.
Defined.

(** ** [toggle_comment_like]: what a successful call did *)

Lemma insert_comment_like_inv (e : env) (v_comment_id : option uuid)
    (v_user_identifier : option text) (db db1 : database) :
  insert_comment_like e v_comment_id v_user_identifier db = inr db1 ->
  exists cid uid,
    v_comment_id = Some cid /\ v_user_identifier = Some uid
    /\ db1 = with_comment_likes db
               (comment_likes db
                ++ [CommentLike.mk (gen_random_uuid e) cid uid (now e)])
    /\ existsb (fun l => N.eqb (CommentLike.id l) (gen_random_uuid e))
         (comment_likes db) = false
    /\ liked_by db cid uid = false
    /\ existsb (fun c => N.eqb (Comment.id c) cid) (comments db) = true.
Proof.
  unfold insert_comment_like. intros H.
  destruct v_comment_id as [cid | ]; [ | discriminate].
  destruct v_user_identifier as [uid | ]; [ | discriminate].
  cbn [not_null bind ok] in H.
  destruct (negb (check_passes _)); [discriminate | ].
  destruct (existsb _ (comment_likes db)) eqn:Hpk in H; [discriminate | ].
  destruct (existsb _ (comment_likes db)) eqn:Huq in H; [discriminate | ].
  destruct (existsb _ (comments db)) eqn:Hfk in H; [ | discriminate].
  injection H as <-.
  exists cid, uid. repeat split; try assumption.
  unfold liked_by.
  now rewrite (existsb_pointwise _ _ _ (like_matches_spec cid uid)).
Qed.

(** The two ways a call of [toggle_comment_like] can return. *)
Lemma toggle_comment_like_inv (e : env) (p_comment_id : option uuid)
    (p_user_identifier : option text) (db db' : database)
    (j : ToggleJson.t) :
  toggle_comment_like e p_comment_id p_user_identifier db = inr (db', j) ->
  exists cid uid,
    p_comment_id = Some cid /\ p_user_identifier = Some uid
    /\ series db' = series db /\ episodes db' = episodes db
    /\ ((liked_by db cid uid = true
         /\ comments db' = map (updated e (-1) cid) (comments db)
         /\ comment_likes db'
            = filter (fun l => negb (like_matches (Some cid) (Some uid) l))
                (comment_likes db)
         /\ ToggleJson.action j = "unliked"
         /\ ToggleJson.user_liked j = false)
        \/ (liked_by db cid uid = false
            /\ comments db' = map (updated e 1 cid) (comments db)
            /\ comment_likes db'
               = (comment_likes db
                  ++ [CommentLike.mk (gen_random_uuid e) cid uid (now e)])%list
            /\ ToggleJson.action j = "liked"
            /\ ToggleJson.user_liked j = true)).
Proof.
  unfold toggle_comment_like. resolved. intros H.
  destruct p_comment_id as [cid | ]; [ | discriminate].
  destruct p_user_identifier as [uid | ]; [ | discriminate].
  destruct (holds _); [discriminate | ].
  exists cid, uid. split; [reflexivity | split; [reflexivity | ]].
  fold (liked_by db cid uid) in H.
  destruct (liked_by db cid uid) eqn:Hliked.
  - apply bind_ok in H. destruct H as ([rows returned] & Hupd & H).
    cbn [delete_comment_likes with_comment_likes comments] in Hupd.
    apply update_likes_count_ok in Hupd. destruct Hupd as (-> & _ & _).
    injection H as <- <-. simpl. repeat split. left. repeat split.
  - apply bind_ok in H. destruct H as (db1 & Hins & H).
    apply insert_comment_like_inv in Hins.
    destruct Hins as (cid' & uid' & Hc & Hu & -> & _ & _ & _).
    injection Hc as <-. injection Hu as <-.
    apply bind_ok in H. destruct H as ([rows returned] & Hupd & H).
    cbn [with_comment_likes comments] in Hupd.
    apply update_likes_count_ok in Hupd. destruct Hupd as (-> & _ & _).
    injection H as <- <-. simpl. repeat split. right. repeat split.
Qed.

Lemma updated_frame (e : env) (delta : Z) (cid : uuid) (c : Comment.row) :
  same_but_likes c (updated e delta cid c)
  /\ (Comment.id c <> cid -> updated e delta cid c = c)
  /\ (Comment.id c = cid ->
      Comment.likes_count (updated e delta cid c)
      = Comment.likes_count c + delta
      /\ Comment.updated_at (updated e delta cid c) = now e).
Proof.
  unfold updated. destruct (targets cid c) eqn:E.
  - apply targets_eq in E. repeat split; try contradiction.
  - split; [apply same_but_likes_refl | ].
    split; [reflexivity | ].
    intros Heq. apply targets_eq in Heq. congruence.
Qed.

Lemma Forall2_map_r {A B} (R : A -> B -> Prop) (f : A -> B) (l : list A) :
  (forall a, R a (f a)) -> Forall2 R l (map f l).
Proof.
  intros H. induction l as [ | a rest IH]; simpl; constructor; auto.
Qed.

Lemma filter_idem {A} (f : A -> bool) (l : list A) :
  filter f (filter f l) = filter f l.
Proof.
  induction l as [ | a rest IH]; simpl.
  - reflexivity.
  - destruct (f a) eqn:E; simpl; [rewrite E, IH | rewrite IH]; reflexivity.
Qed.

(** C9: a call of [toggle_comment_like] that returns leaves [series] and
    [episodes] as they were; of the comments it changes only the counter and
    the update time of the target, which becomes the time of the call on
    either branch; of the likes it changes only the rows of the pair
    ([C], [U]): one row appended when the answer is liked, the rows of the
    pair deleted when it is not. *)
Theorem toggle_comment_like_frame (e : env) (C : uuid) (U : text)
    (db db' : database) (j : ToggleJson.t) :
  toggle_comment_like e (Some C) (Some U) db = inr (db', j) ->
  series db' = series db
  /\ episodes db' = episodes db
  /\ Forall2 (only_likes_touched e C) (comments db) (comments db')
  /\ other_likes C U db' = other_likes C U db
  /\ (if ToggleJson.user_liked j
      then comment_likes db'
           = (comment_likes db
              ++ [CommentLike.mk (gen_random_uuid e) C U (now e)])%list
      else comment_likes db' = other_likes C U db).
Proof.
  intros H. apply toggle_comment_like_inv in H.
  destruct H as (cid & uid & Hc & Hu & Hs & He & Hbranch).
  injection Hc as <-. injection Hu as <-.
  split; [exact Hs | split; [exact He | ]].
  assert (Hframe : forall delta,
             Forall2 (only_likes_touched e C) (comments db)
               (map (updated e delta C) (comments db))).
  { intros delta. apply Forall2_map_r. intros c.
    destruct (updated_frame e delta C c) as (Hsame & Hother & Htarget).
    split; [exact Hsame | split; [exact Hother | ]].
    intros Hid. now apply Htarget. }
  destruct Hbranch as [(Hl & Hcs & Hls & _ & Hj) | (Hl & Hcs & Hls & _ & Hj)];
    rewrite Hj, Hcs; unfold other_likes; rewrite Hls.
  - split; [apply Hframe | ]. split; [ | reflexivity].
    apply filter_idem.
  - split; [apply Hframe | ]. split; [ | reflexivity].
    rewrite filter_app. simpl.
    rewrite like_matches_spec. simpl.
    rewrite N.eqb_refl, String.eqb_refl. simpl. apply app_nil_r.
Qed.

Lemma toggle_comment_like_frame_witness :
  series (exec Sample.at3 (ToggleCommentLike (Some 100%N) (Some "u1"))
            Sample.two_comments)
  = series Sample.two_comments
  /\ Forall2 (only_likes_touched Sample.at3 100%N)
       (comments Sample.two_comments)
       (comments (exec Sample.at3 (ToggleCommentLike (Some 100%N) (Some "u1"))
                    Sample.two_comments)).
Proof.
  destruct (toggle_comment_like_frame Sample.at3 100%N "u1"
              Sample.two_comments
              (exec Sample.at3 (ToggleCommentLike (Some 100%N) (Some "u1"))
                 Sample.two_comments)
              (ToggleJson.mk "liked" (Some 1) true))
    as (Hs & _ & Hc & _).
  - reflexivity.
  - split; [exact Hs | exact Hc].
Defined.

(** ** [create_comment]: what a successful call did *)

Lemma insert_comment_inv (e : env) (v_content v_author_name
    v_author_email : option text) (v_series_id v_episode_id
    v_parent_id : option uuid) (db db' : database) (row : Comment.row) :
  insert_comment e v_content v_author_name v_author_email v_series_id
    v_episode_id v_parent_id db = inr (db', row) ->
  exists content author_name sid,
    v_content = Some content /\ v_author_name = Some author_name
    /\ v_series_id = Some sid
    /\ row = Comment.mk (gen_random_uuid e) content author_name
               v_author_email sid v_episode_id v_parent_id 0 (now e) (now e)
    /\ db' = with_comments db (comments db ++ [row]).
Proof.
  unfold insert_comment. intros H.
  destruct v_content as [content | ]; [ | discriminate].
  destruct v_author_name as [author_name | ]; [ | discriminate].
  destruct v_series_id as [sid | ]; [ | discriminate].
  cbn [not_null bind ok] in H.
  repeat match type of H with
         | (if ?b then _ else _) = _ => destruct b; [discriminate | ]
         end.
  injection H as <- <-.
  exists content, author_name, sid. repeat split.
Qed.

Lemma create_comment_inv (e : env) (p_content p_author_name
    p_author_email : option text) (p_series_id p_episode_id
    p_parent_id : option uuid) (db db' : database) (row : Comment.row) :
  create_comment e p_content p_author_name p_author_email p_series_id
    p_episode_id p_parent_id db = inr (db', row) ->
  db' = with_comments db (comments db ++ [row])
  /\ Some (Comment.series_id row) = p_series_id
  /\ Comment.parent_id row = p_parent_id
  /\ (p_parent_id <> None -> parent_exists p_parent_id p_series_id db = true).
Proof.
  unfold create_comment. resolved. intros H.
  repeat match type of H with
         | (if ?b then _ else _) = _ =>
             let E := fresh "E" in destruct b eqn:E; [discriminate | ]
         end.
  apply bind_ok in H. destruct H as ([db1 row1] & Hins & H).
  injection H as <- <-.
  apply insert_comment_inv in Hins.
  destruct Hins as (content & name & sid & _ & _ & Hsid & -> & ->).
  simpl. repeat split; try congruence.
  intros Hp. destruct p_parent_id as [p | ]; [ | congruence].
  simpl in E4. destruct (parent_exists (Some p) p_series_id db);
    [reflexivity | discriminate].
Qed.

(** ** [admin_update_series_status]: what a successful call did *)

Lemma admin_update_series_status_inv (e : env) (admin_code : option text)
    (p_series_id : option uuid) (p_status : option series_status)
    (db db' : database) (u : unit) :
  admin_update_series_status e admin_code p_series_id p_status db
  = inr (db', u) ->
  exists rows, db' = with_series db rows.
Proof.
  unfold admin_update_series_status. resolved. intros H.
  destruct (holds _); [discriminate | ].
  apply bind_ok in H. destruct H as ([rows n] & _ & H).
  destruct (negb (negb _)); [discriminate | ].
  injection H as <- _. now exists rows.
Qed.

(** ** Invariants of the reachable states *)

Section Invariants.

Variable inv : database -> Prop.

Hypothesis inv_toggle :
  forall e cid uid db db' j,
    inv db -> toggle_comment_like e cid uid db = inr (db', j) -> inv db'.
Hypothesis inv_create :
  forall e c n m s ep p db db' row,
    inv db -> create_comment e c n m s ep p db = inr (db', row) -> inv db'.
Hypothesis inv_admin :
  forall e code s st db db' u,
    inv db ->
    admin_update_series_status e code s st db = inr (db', u) -> inv db'.

Lemma inv_exec (e : env) (c : call) (db : database) :
  inv db -> inv (exec e c db).
Proof.
  intros Hdb. destruct c; simpl.
  - destruct (toggle_comment_like _ _ _ _) as [err | [db' j]] eqn:E;
      simpl; [exact Hdb | eapply inv_toggle; eassumption].
  - destruct (create_comment _ _ _ _ _ _ _ _) as [err | [db' row]] eqn:E;
      simpl; [exact Hdb | eapply inv_create; eassumption].
  - exact Hdb.
  - destruct (admin_update_series_status _ _ _ _ _) as [err | [db' u]] eqn:E;
      simpl; [exact Hdb | eapply inv_admin; eassumption].
Qed.

Lemma inv_reachable (init db : database) :
  inv init -> reachable init db -> inv db.
Proof.
  intros Hinit Hreach. induction Hreach as [ | db e c _ IH].
  - exact Hinit.
  - apply inv_exec. exact IH.
Qed.

End Invariants.

(** ** At most one like row per pair *)

Lemma filter_filter_length {A} (f g : A -> bool) (l : list A) :
  (List.length (filter f (filter g l)) <= List.length (filter f l))%nat.
Proof.
  induction l as [ | a rest IH]; simpl.
  - lia.
  - destruct (g a); simpl; destruct (f a); simpl; lia.
Qed.

Lemma existsb_false_filter {A} (f : A -> bool) (l : list A) :
  existsb f l = false -> filter f l = [].
Proof.
  induction l as [ | a rest IH]; simpl; intros H.
  - reflexivity.
  - apply orb_false_iff in H. destruct H as [-> Hrest]. now apply IH.
Qed.

Lemma like_matches_eq (c1 c2 : uuid) (u1 u2 : text) (l : CommentLike.row) :
  like_matches (Some c1) (Some u1) l = true ->
  like_matches (Some c2) (Some u2) l = true ->
  c1 = c2 /\ u1 = u2.
Proof.
  rewrite !like_matches_spec. intros H1 H2.
  apply andb_true_iff in H1. apply andb_true_iff in H2.
  destruct H1 as [Hc1 Hu1]. destruct H2 as [Hc2 Hu2].
  apply N.eqb_eq in Hc1. apply N.eqb_eq in Hc2.
  apply String.eqb_eq in Hu1. apply String.eqb_eq in Hu2.
  split; congruence.
Qed.

Lemma likes_unique_toggle (e : env) (p_comment_id : option uuid)
    (p_user_identifier : option text) (db db' : database)
    (j : ToggleJson.t) :
  likes_unique db ->
  toggle_comment_like e p_comment_id p_user_identifier db = inr (db', j) ->
  likes_unique db'.
Proof.
  intros Hu H. apply toggle_comment_like_inv in H.
  destruct H as (C & U & _ & _ & _ & _ & Hbranch).
  intros cid uid. unfold likes_of_pair.
  destruct Hbranch as [(_ & _ & -> & _) | (Hnot & _ & -> & _)].
  - etransitivity; [apply filter_filter_length | apply Hu].
  - rewrite filter_app, length_app. simpl.
    destruct (like_matches (Some cid) (Some uid) _) eqn:E; simpl.
    + pose proof (like_matches_spec C U
                    (CommentLike.mk (gen_random_uuid e) C U (now e))) as Hnew.
      simpl in Hnew. rewrite N.eqb_refl, String.eqb_refl in Hnew.
      destruct (like_matches_eq _ _ _ _ _ E Hnew) as [-> ->].
      unfold liked_by in Hnot.
      rewrite (existsb_false_filter _ _ Hnot). simpl. lia.
    + specialize (Hu cid uid). unfold likes_of_pair in Hu. lia.
Qed.

Lemma likes_unique_create (e : env) (p_content p_author_name
    p_author_email : option text) (p_series_id p_episode_id
    p_parent_id : option uuid) (db db' : database) (row : Comment.row) :
  likes_unique db ->
  create_comment e p_content p_author_name p_author_email p_series_id
    p_episode_id p_parent_id db = inr (db', row) ->
  likes_unique db'.
Proof.
  intros Hu H. apply create_comment_inv in H. destruct H as (-> & _).
  exact Hu.
Qed.

Lemma likes_unique_admin (e : env) (admin_code : option text)
    (p_series_id : option uuid) (p_status : option series_status)
    (db db' : database) (u : unit) :
  likes_unique db ->
  admin_update_series_status e admin_code p_series_id p_status db
  = inr (db', u) ->
  likes_unique db'.
Proof.
  intros Hu H. apply admin_update_series_status_inv in H.
  destruct H as (rows & ->). exact Hu.
Qed.

Lemma likes_unique_fresh (db : database) :
  fresh_database db -> likes_unique db.
Proof.
  intros [_ Hlikes] cid uid. unfold likes_of_pair. rewrite Hlikes. simpl. lia.
Qed.

(** C8: in every state reached through the procedures from a state with at
    most one like row per (comment_id, user_identifier) pair (the two empty
    tables of the migration, for one), there is at most one like row per
    pair; and from such a state a call of [toggle_comment_like] that returns,
    on the like branch as on the unlike branch, leaves at most one row per
    pair. *)
Theorem likes_unique_invariant (init db : database) :
  likes_unique init ->
  reachable init db ->
  likes_unique db
  /\ forall e p_comment_id p_user_identifier db' j,
       toggle_comment_like e p_comment_id p_user_identifier db = inr (db', j)
       -> likes_unique db'.
Proof.
  intros Hinit Hreach.
  assert (Hdb : likes_unique db).
  { revert Hinit Hreach. apply inv_reachable.
    - intros e cid uid d d' j. apply likes_unique_toggle.
    - intros e c n m s ep p d d' row. apply likes_unique_create.
    - intros e code s st d d' u. apply likes_unique_admin. }
  split; [exact Hdb | ].
  intros e cid uid db' j. now apply likes_unique_toggle.
Qed.

Lemma likes_unique_invariant_witness :
  likes_unique
    (exec Sample.at3 (ToggleCommentLike (Some 100%N) (Some "u1"))
       Sample.two_comments).
Proof.
  apply (likes_unique_invariant Sample.empty_db).
  - intros cid uid. simpl. lia.
  - apply reach_exec. apply reach_exec. apply reach_exec. apply reach_init.
Defined.

(** ** The reply tree *)

Lemma parent_exists_spec (p sid : uuid) (db : database) :
  parent_exists (Some p) (Some sid) db = true ->
  exists pc, In pc (comments db) /\ Comment.id pc = p
             /\ Comment.series_id pc = sid.
Proof.
  unfold parent_exists. intros H. apply existsb_exists in H.
  destruct H as (pc & Hin & H). exists pc. simpl in H.
  destruct (N.eqb (Comment.id pc) p) eqn:E1;
    destruct (N.eqb (Comment.series_id pc) sid) eqn:E2; try discriminate.
  apply N.eqb_eq in E1. apply N.eqb_eq in E2. auto.
Qed.

Lemma replies_in_series_toggle (e : env) (p_comment_id : option uuid)
    (p_user_identifier : option text) (db db' : database)
    (j : ToggleJson.t) :
  replies_in_series db ->
  toggle_comment_like e p_comment_id p_user_identifier db = inr (db', j) ->
  replies_in_series db'.
Proof.
  intros Hinv H. apply toggle_comment_like_inv in H.
  destruct H as (C & U & _ & _ & _ & _ & Hbranch).
  assert (Hmap : forall delta, comments db'
                               = map (updated e delta C) (comments db) ->
                               replies_in_series db').
  { intros delta Hcs c' p Hin Hp. rewrite Hcs in Hin.
    apply in_map_iff in Hin. destruct Hin as (c & <- & Hin).
    destruct (updated_frame e delta C c) as ((_ & _ & _ & _ & Hs & _ & Hpar & _)
                                              & _).
    rewrite Hpar in Hp. destruct (Hinv c p Hin Hp) as (pc & Hpin & Hid & Hser).
    exists (updated e delta C pc). rewrite Hcs.
    destruct (updated_frame e delta C pc)
      as ((Hid' & _ & _ & _ & Hs' & _) & _).
    split; [now apply in_map | ]. split; congruence. }
  destruct Hbranch as [(_ & Hcs & _) | (_ & Hcs & _)]; eapply Hmap; eassumption.
Qed.

Lemma replies_in_series_create (e : env) (p_content p_author_name
    p_author_email : option text) (p_series_id p_episode_id
    p_parent_id : option uuid) (db db' : database) (row : Comment.row) :
  replies_in_series db ->
  create_comment e p_content p_author_name p_author_email p_series_id
    p_episode_id p_parent_id db = inr (db', row) ->
  replies_in_series db'.
Proof.
  intros Hinv H. apply create_comment_inv in H.
  destruct H as (-> & Hsid & Hpar & Hexists).
  intros c p Hin Hp. simpl in Hin |- *. apply in_app_or in Hin.
  destruct Hin as [Hin | [<- | []]].
  - destruct (Hinv c p Hin Hp) as (pc & Hpin & Hid & Hser).
    exists pc. split; [apply in_or_app; now left | auto].
  - rewrite Hpar in Hp. rewrite Hp, <- Hsid in Hexists.
    destruct (parent_exists_spec _ _ _ (Hexists ltac:(discriminate)))
      as (pc & Hpin & Hid & Hser).
    exists pc. split; [apply in_or_app; now left | auto].
Qed.

Lemma replies_in_series_admin (e : env) (admin_code : option text)
    (p_series_id : option uuid) (p_status : option series_status)
    (db db' : database) (u : unit) :
  replies_in_series db ->
  admin_update_series_status e admin_code p_series_id p_status db
  = inr (db', u) ->
  replies_in_series db'.
Proof.
  intros Hinv H. apply admin_update_series_status_inv in H.
  destruct H as (rows & ->). exact Hinv.
Qed.

(** C7, as the code has it: [create_comment] accepts a parent that is itself
    a reply, so the tree can grow deeper than two levels.  What holds of every
    reply, in every state reached through the procedures from a state where it
    holds (the empty tables of the migration, for one), is that its parent is
    a stored comment of the same series; and a call of [create_comment] that
    returns a row with a parent found that parent under the series given. *)
Theorem replies_in_series_invariant (init db : database) :
  replies_in_series init ->
  reachable init db ->
  replies_in_series db
  /\ forall e p_content p_author_name p_author_email p_series_id p_episode_id
            p_parent db' row,
       create_comment e p_content p_author_name p_author_email p_series_id
         p_episode_id (Some p_parent) db = inr (db', row) ->
       Comment.parent_id row = Some p_parent
       /\ exists pc, In pc (comments db) /\ Comment.id pc = p_parent
                     /\ Comment.series_id pc = Comment.series_id row.
Proof.
  intros Hinit Hreach. split.
  - revert Hinit Hreach. apply inv_reachable.
    + intros e cid uid d d' j. apply replies_in_series_toggle.
    + intros e c n m s ep p d d' row. apply replies_in_series_create.
    + intros e code s st d d' u. apply replies_in_series_admin.
  - intros e c n m s ep p db' row H. apply create_comment_inv in H.
    destruct H as (_ & Hsid & Hpar & Hexists).
    split; [exact Hpar | ]. rewrite <- Hsid in Hexists.
    apply parent_exists_spec. apply Hexists. discriminate.
Qed.

Lemma replies_in_series_invariant_witness :
  replies_in_series Sample.three_comments.
Proof.
  apply (replies_in_series_invariant Sample.empty_db).
  - intros c p Hin. simpl in Hin. destruct Hin.
  - apply reach_exec. apply reach_exec. apply reach_exec. apply reach_init.
Defined.

(** C7, as the claim has it, fails: from the empty tables, three calls of
    [create_comment] that all return build a reply (id 102) whose parent
    (id 101) is itself a reply (to 100). *)
Lemma reply_to_reply_accepted :
  fresh_database Sample.empty_db
  /\ reachable Sample.empty_db Sample.three_comments
  /\ is_ok (create_comment Sample.at3 (Some "Me too") (Some "Eve") None
              (Some 1%N) (Some 10%N) (Some 101%N) Sample.two_comments) = true
  /\ map (fun c => (Comment.id c, Comment.parent_id c))
       (comments Sample.three_comments)
     = [(100%N, None); (101%N, Some 100%N); (102%N, Some 101%N)]
  /\ ~ two_level Sample.three_comments.
Proof.
  split; [split; reflexivity | ].
  split; [apply reach_exec; apply reach_exec; apply reach_exec;
          apply reach_init | ].
  split; [reflexivity | ].
  split; [reflexivity | ].
  intros H.
  destruct (H (Comment.mk 102%N "Me too" "Eve" None 1%N (Some 10%N)
                 (Some 101%N) 0 3000 3000) 101%N)
    as (pc & Hin & Hid & Hpar).
  - simpl. auto.
  - reflexivity.
  - simpl in Hin. destruct Hin as [<- | [<- | [<- | []]]]; discriminate.
Qed.

(** ** [get_comments_with_stats]: the reply counts *)

Lemma same_key_on (cid : uuid) (k : option uuid) :
  holds (sql_eq N.eqb (Some cid) k) = same_key (Some cid) k.
Proof. destruct k as [a | ]; simpl; [destruct (N.eqb cid a) | ]; reflexivity. Qed.

Lemma same_key_eq (k1 k2 : option uuid) : same_key k1 k2 = true -> k1 = k2.
Proof.
  destruct k1 as [a | ], k2 as [b | ]; simpl; intros H; try discriminate.
  - apply N.eqb_eq in H. now subst.
  - reflexivity.
Qed.

Lemma same_key_sym (k1 k2 : option uuid) : same_key k1 k2 = same_key k2 k1.
Proof.
  destruct k1 as [a | ], k2 as [b | ]; simpl; try reflexivity.
  apply N.eqb_sym.
Qed.

Lemma groups_of_add_same (cid : uuid) (groups : list (option uuid * Z)) :
  groups_of cid (add_to_group (Some cid) groups)
  = match groups_of cid groups with
    | [] => [(Some cid, 1)]
    | (k, n) :: rest => (k, n + 1) :: rest
    end.
Proof.
  unfold groups_of.
  induction groups as [ | [k n] rest IH]; cbn [add_to_group filter fst].
  - rewrite same_key_on. cbn [same_key]. now rewrite N.eqb_refl.
  - rewrite !same_key_on.
    destruct (same_key (Some cid) k) eqn:E; cbn [filter fst];
      rewrite !same_key_on, E.
    + reflexivity.
    + exact IH.
Qed.

Lemma groups_of_add_other (cid : uuid) (k : option uuid)
    (groups : list (option uuid * Z)) :
  same_key (Some cid) k = false ->
  groups_of cid (add_to_group k groups) = groups_of cid groups.
Proof.
  intros Hk. unfold groups_of.
  induction groups as [ | [k' n] rest IH]; cbn [add_to_group filter fst].
  - now rewrite same_key_on, Hk.
  - destruct (same_key k k') eqn:E; cbn [filter fst].
    + apply same_key_eq in E. subst k'. now rewrite same_key_on, Hk.
    + rewrite IH. reflexivity.
Qed.

(** GROUP BY yields one group per key, with the count of the key. *)
Lemma groups_of_group_by_count (cid : uuid) (keys : list (option uuid)) :
  groups_of cid (group_by_count keys)
  = match key_count cid keys with
    | O => []
    | S n => [(Some cid, Z.of_nat (S n))]
    end.
Proof.
  unfold key_count.
  induction keys as [ | k rest IH]; cbn [group_by_count filter].
  - reflexivity.
  - destruct (same_key (Some cid) k) eqn:E.
    + apply same_key_eq in E. subst k.
      rewrite groups_of_add_same, IH. cbn [List.length].
      destruct (List.length (filter (same_key (Some cid)) rest)) as [ | n].
      * reflexivity.
      * f_equal. f_equal. lia.
    + rewrite (groups_of_add_other _ _ _ E). exact IH.
Qed.

Lemma key_count_replies (cid : uuid) (db : database) :
  key_count cid
    (map Comment.parent_id
       (filter (fun c => holds (is_not_null (Comment.parent_id c)))
          (comments db)))
  = replies_to cid db.
Proof.
  unfold key_count, replies_to.
  induction (comments db) as [ | c rest IH]; [reflexivity | ].
  simpl in IH |- *.
  destruct (Comment.parent_id c) as [p | ] eqn:E; simpl.
  - rewrite ?E. simpl. rewrite (N.eqb_sym cid p).
    destruct (N.eqb p cid); simpl; now rewrite IH.
  - exact IH.
Qed.

Lemma flat_map_single {A B} (f : A -> B) (l : list A) :
  flat_map (fun a => [f a]) l = map f l.
Proof.
  induction l as [ | a rest IH]; simpl; [reflexivity | now rewrite IH].
Qed.

(** The LEFT JOIN pairs every comment with its one count, NULL for none. *)
Lemma left_join_reply_counts_spec (db : database) (cs : list Comment.row) :
  left_join_reply_counts cs (reply_counts db)
  = map (fun c => (c, match replies_to (Comment.id c) db with
                      | O => None
                      | S n => Some (Z.of_nat (S n))
                      end)) cs.
Proof.
  unfold left_join_reply_counts.
  rewrite <- flat_map_single. apply flat_map_ext. intros c.
  fold (groups_of (Comment.id c) (reply_counts db)).
  unfold reply_counts.
  rewrite groups_of_group_by_count, key_count_replies.
  destruct (replies_to (Comment.id c) db); reflexivity.
Qed.

Lemma coalesce_reply_count (n : nat) :
  coalesce match n with O => None | S m => Some (Z.of_nat (S m)) end 0
  = Z.of_nat n.
Proof. destruct n; reflexivity. Qed.

(** ** [get_comments_with_stats]: ordering and paging *)

Lemma insert_desc_perm {A} (key : A -> timestamptz) (tie : A -> A -> bool)
    (x : A) (l : list A) :
  Permutation (insert_desc key tie x l) (x :: l).
Proof.
  induction l as [ | y rest IH]; simpl.
  - apply Permutation_refl.
  - destruct ((key y <? key x) || ((key y =? key x) && tie x y)).
    + apply Permutation_refl.
    + eapply perm_trans; [apply perm_skip, IH | apply perm_swap].
Qed.

(** Whatever the run, the sort loses and adds no row. *)
Lemma order_by_desc_perm {A} (key : A -> timestamptz) (tie : A -> A -> bool)
    (l : list A) :
  Permutation (order_by_desc key tie l) l.
Proof.
  induction l as [ | x rest IH]; simpl.
  - apply perm_nil.
  - eapply perm_trans; [apply insert_desc_perm | apply perm_skip, IH].
Qed.

Lemma before_or_tie (a b : Z) (t : bool) :
  (a <? b) || ((a =? b) && t) = true -> a <= b.
Proof.
  intros E. apply orb_true_iff in E. destruct E as [E | E].
  - apply Z.ltb_lt in E. lia.
  - apply andb_true_iff in E. destruct E as [E _].
    apply Z.eqb_eq in E. lia.
Qed.

Lemma not_before_nor_tie (a b : Z) (t : bool) :
  (a <? b) || ((a =? b) && t) = false -> b <= a.
Proof.
  intros E. apply orb_false_iff in E. destruct E as [E _].
  now apply Z.ltb_ge in E.
Qed.

Lemma insert_desc_sorted {A} (key : A -> timestamptz) (tie : A -> A -> bool)
    (x : A) (l : list A) :
  StronglySorted (fun a b => key b <= key a) l ->
  StronglySorted (fun a b => key b <= key a) (insert_desc key tie x l).
Proof.
  induction l as [ | y rest IH]; simpl; intros Hs.
  - constructor; constructor.
  - inversion Hs as [ | ? ? Hrest Hall]; subst.
    destruct ((key y <? key x) || ((key y =? key x) && tie x y)) eqn:E.
    + apply before_or_tie in E. constructor; [exact Hs | ].
      constructor; [exact E | ].
      rewrite Forall_forall in Hall |- *. intros z Hz.
      specialize (Hall z Hz). simpl in Hall. lia.
    + apply not_before_nor_tie in E. constructor; [now apply IH | ].
      rewrite Forall_forall in Hall |- *. intros z Hz.
      apply (Permutation_in _ (insert_desc_perm key tie x rest)) in Hz.
      destruct Hz as [<- | Hz]; [lia | now apply Hall].
Qed.

(** Whatever the run, the rows come newest first. *)
Lemma order_by_desc_sorted {A} (key : A -> timestamptz)
    (tie : A -> A -> bool) (l : list A) :
  StronglySorted (fun a b => key b <= key a) (order_by_desc key tie l).
Proof.
  induction l as [ | x rest IH]; simpl.
  - constructor.
  - now apply insert_desc_sorted.
Qed.

(** *** Every order that the statement allows is the order of some run *)

Section AnyRun.
Context {A : Type} (eqb : A -> A -> bool) (key : A -> timestamptz).
Hypothesis eqb_eq : forall x y, eqb x y = true <-> x = y.

Lemma place_inj (l : list A) (x y : A) :
  In x l -> In y l -> place eqb x l = place eqb y l -> x = y.
Proof.
  induction l as [ | a rest IH]; cbn [place]; intros Hx Hy E.
  - destruct Hx.
  - destruct (eqb x a) eqn:Ex, (eqb y a) eqn:Ey; try discriminate.
    + apply eqb_eq in Ex, Ey. congruence.
    + destruct Hx as [<- | Hx];
        [rewrite (proj2 (eqb_eq a a) eq_refl) in Ex; discriminate | ].
      destruct Hy as [<- | Hy];
        [rewrite (proj2 (eqb_eq a a) eq_refl) in Ey; discriminate | ].
      apply IH; [assumption | assumption | now injection E].
Qed.

Lemma StronglySorted_impl_in (R R' : A -> A -> Prop) (l : list A) :
  (forall x y, In x l -> In y l -> R x y -> R' x y) ->
  StronglySorted R l -> StronglySorted R' l.
Proof.
  intros H Hs. induction Hs as [ | a rest Hrest IH Hall].
  - constructor.
  - constructor.
    + apply IH. intros x y Hx Hy. apply H; now right.
    + rewrite Forall_forall in Hall |- *. intros b Hb.
      apply H; [now left | now right | now apply Hall].
Qed.

Lemma StronglySorted_and (R1 R2 : A -> A -> Prop) (l : list A) :
  StronglySorted R1 l -> StronglySorted R2 l ->
  StronglySorted (fun x y => R1 x y /\ R2 x y) l.
Proof.
  induction l as [ | a rest IH]; intros H1 H2.
  - constructor.
  - inversion H1 as [ | ? ? Hr1 Ha1]; subst.
    inversion H2 as [ | ? ? Hr2 Ha2]; subst.
    constructor; [now apply IH | ].
    rewrite Forall_forall in Ha1, Ha2 |- *. auto.
Qed.

Lemma place_sorted (l : list A) :
  NoDup l ->
  StronglySorted (fun x y => (place eqb x l <= place eqb y l)%nat) l.
Proof.
  induction l as [ | a rest IH]; intros Hnd.
  - constructor.
  - inversion Hnd as [ | ? ? Ha Hrest]; subst. constructor.
    + apply (StronglySorted_impl_in
               (fun x y => (place eqb x rest <= place eqb y rest)%nat));
        [ | now apply IH].
      intros x y Hx Hy Hle. cbn [place].
      destruct (eqb x a) eqn:Ex;
        [apply eqb_eq in Ex; subst; contradiction | ].
      destruct (eqb y a) eqn:Ey;
        [apply eqb_eq in Ey; subst; contradiction | ].
      lia.
    + apply Forall_forall. intros b _. cbn [place].
      rewrite (proj2 (eqb_eq a a) eq_refl). lia.
Qed.

(** [x] comes before [y] in the run of [out]. *)
Lemma tie_of_before (out : list A) (x y : A) :
  (key y <? key x) || ((key y =? key x) && tie_of eqb out x y) = true
  <-> key y < key x
      \/ (key y = key x /\ (place eqb x out <= place eqb y out)%nat).
Proof.
  unfold tie_of.
  now rewrite orb_true_iff, andb_true_iff, Z.ltb_lt, Z.eqb_eq, Nat.leb_le.
Qed.

Lemma insert_desc_run (out : list A) (x : A) (l : list A) :
  let R := fun x y =>
             key y < key x
             \/ (key y = key x
                 /\ (place eqb x out <= place eqb y out)%nat) in
  StronglySorted R l ->
  StronglySorted R (insert_desc key (tie_of eqb out) x l).
Proof.
  intros R. induction l as [ | y rest IH]; cbn [insert_desc]; intros Hs.
  - constructor; constructor.
  - inversion Hs as [ | ? ? Hrest Hall]; subst.
    destruct ((key y <? key x) || ((key y =? key x) && tie_of eqb out x y))
      eqn:E.
    + apply tie_of_before in E. constructor; [exact Hs | ].
      constructor; [exact E | ].
      rewrite Forall_forall in Hall |- *. intros z Hz.
      specialize (Hall z Hz). unfold R in Hall |- *. lia.
    + assert (Hyx : R y x).
      { unfold R. destruct (Z.lt_total (key y) (key x)) as [H | [H | H]].
        - exfalso. rewrite (proj2 (tie_of_before out x y)) in E;
            [discriminate | now left].
        - destruct (Nat.le_gt_cases (place eqb x out) (place eqb y out))
            as [Hle | Hgt]; [ | right; split; [now symmetry | lia]].
          exfalso. rewrite (proj2 (tie_of_before out x y)) in E;
            [discriminate | now right].
        - now left. }
      constructor; [now apply IH | ].
      rewrite Forall_forall in Hall |- *. intros z Hz.
      apply (Permutation_in _ (insert_desc_perm key _ x rest)) in Hz.
      destruct Hz as [<- | Hz]; [exact Hyx | now apply Hall].
Qed.

Lemma sorted_perm_unique (R : A -> A -> Prop) (l1 l2 : list A) :
  (forall x y, In x l1 -> In y l1 -> R x y -> R y x -> x = y) ->
  StronglySorted R l1 -> StronglySorted R l2 -> Permutation l1 l2 ->
  l1 = l2.
Proof.
  revert l2. induction l1 as [ | a r1 IH]; intros l2 Hanti H1 H2 Hp.
  - apply Permutation_nil in Hp. now subst.
  - destruct l2 as [ | b r2];
      [apply Permutation_sym, Permutation_nil in Hp; discriminate | ].
    inversion H1 as [ | ? ? Hr1 Ha]; subst.
    inversion H2 as [ | ? ? Hr2 Hb]; subst.
    rewrite Forall_forall in Ha, Hb.
    assert (E : a = b).
    { assert (Hin_a : In a (b :: r2))
        by (apply (Permutation_in _ Hp); now left).
      assert (Hin_b : In b (a :: r1))
        by (apply (Permutation_in _ (Permutation_sym Hp)); now left).
      destruct Hin_a as [Eb | Hin_a]; [now symmetry | ].
      destruct Hin_b as [Ea | Hin_b]; [exact Ea | ].
      apply Hanti; [now left | now right | now apply Ha | now apply Hb]. }
    subst b. f_equal. apply IH; try assumption.
    + intros x y Hx Hy. apply Hanti; now right.
    + now apply Permutation_cons_inv in Hp.
Qed.

(** Any way of putting the rows newest first is the order of the run that
    breaks the ties its way: the model of ORDER BY leaves out none of the
    orders that the statement allows. *)
Lemma order_by_desc_any_run (l out : list A) :
  NoDup out ->
  Permutation l out ->
  StronglySorted (fun a b => key b <= key a) out ->
  order_by_desc key (tie_of eqb out) l = out.
Proof.
  intros Hnd Hp Hs.
  pose (R := fun x y =>
               key y < key x
               \/ (key y = key x
                   /\ (place eqb x out <= place eqb y out)%nat)).
  apply (sorted_perm_unique R).
  - intros x y Hx Hy Hxy Hyx.
    assert (Hin : forall z, In z (order_by_desc key (tie_of eqb out) l) ->
                            In z out).
    { intros z Hz. apply (Permutation_in _ Hp).
      now apply (Permutation_in _
                   (order_by_desc_perm key (tie_of eqb out) l)). }
    apply (place_inj out); [now apply Hin | now apply Hin | ].
    unfold R in Hxy, Hyx. lia.
  - induction l as [ | x rest IH] in |- *; cbn [order_by_desc].
    + constructor.
    + apply insert_desc_run. exact IH.
  - apply (StronglySorted_impl_in
             (fun x y => key y <= key x
                         /\ (place eqb x out <= place eqb y out)%nat)).
    + intros x y _ _ H. unfold R. lia.
    + apply StronglySorted_and; [exact Hs | now apply place_sorted].
  - eapply perm_trans; [apply order_by_desc_perm | exact Hp].
Qed.

End AnyRun.

Lemma StronglySorted_map {A B} (R : A -> A -> Prop) (R' : B -> B -> Prop)
    (f : A -> B) (l : list A) :
  (forall a b, R a b -> R' (f a) (f b)) ->
  StronglySorted R l -> StronglySorted R' (map f l).
Proof.
  intros Hf Hs. induction Hs as [ | a rest Hrest IH Hall]; simpl.
  - constructor.
  - constructor; [exact IH | ].
    rewrite Forall_forall in Hall |- *. intros b Hb.
    apply in_map_iff in Hb. destruct Hb as (x & <- & Hx). auto.
Qed.

Lemma filter_map_comm {A B} (f : A -> B) (p : B -> bool) (l : list A) :
  filter p (map f l) = map f (filter (fun a => p (f a)) l).
Proof.
  induction l as [ | a rest IH]; simpl.
  - reflexivity.
  - destruct (p (f a)); simpl; now rewrite IH.
Qed.

Lemma stats_where_top_level (sid : uuid) (eid : option uuid)
    (c : Comment.row) :
  stats_where (Some sid) eid c = top_level_of sid eid c.
Proof.
  unfold stats_where, top_level_of.
  destruct (N.eqb (Comment.series_id c) sid) eqn:Es;
    destruct (Comment.parent_id c) as [p | ];
    destruct eid as [ep | ];
    destruct (Comment.episode_id c) as [x | ];
    simpl; rewrite ?Es; simpl; try reflexivity;
    destruct (N.eqb x ep); reflexivity.
Qed.

Lemma sql_and_false_r (a : sql_bool) : holds (sql_and a (Some false)) = false.
Proof. destruct a as [[ | ] | ]; reflexivity. Qed.

Lemma stats_where_parent (p_series_id p_episode_id : option uuid)
    (c : Comment.row) :
  stats_where p_series_id p_episode_id c = true -> Comment.parent_id c = None.
Proof.
  unfold stats_where. destruct (Comment.parent_id c) as [p | ];
    [ | reflexivity].
  now rewrite sql_and_false_r.
Qed.

(** The row the query shows for a comment. *)
Lemma comment_of_select (c : Comment.row) (n : option Z) :
  comment_of (stats_select (c, n)) = c.
Proof. destruct c; reflexivity. Qed.

(** The ordered rows, each comment with its count. *)
Lemma stats_ordered_spec (tie : Comment.row -> Comment.row -> bool)
    (p_series_id p_episode_id : option uuid) (db : database) :
  stats_ordered tie p_series_id p_episode_id db
  = order_by_desc (fun j => Comment.created_at (fst j))
      (fun a b => tie (fst a) (fst b))
      (map (fun c => (c, match replies_to (Comment.id c) db with
                         | O => None
                         | S n => Some (Z.of_nat (S n))
                         end))
         (filter (stats_where p_series_id p_episode_id) (comments db))).
Proof.
  unfold stats_ordered.
  now rewrite left_join_reply_counts_spec, filter_map_comm.
Qed.

Lemma limit_offset_incl {A} (p_limit p_offset : option Z)
    (rows rows' : list A) :
  limit_offset p_limit p_offset rows = inr rows' -> incl rows' rows.
Proof.
  unfold limit_offset. intros H.
  apply bind_ok in H. destruct H as (skip & _ & H).
  assert (Hskip : incl (skipn skip rows) rows).
  { intros x Hx. rewrite <- (firstn_skipn skip rows).
    apply in_or_app. now right. }
  destruct p_limit as [l | ].
  - destruct (l <? 0); [discriminate | ]. injection H as <-.
    intros x Hx. apply Hskip.
    rewrite <- (firstn_skipn (Z.to_nat l) (skipn skip rows)).
    apply in_or_app. now left.
  - injection H as <-. exact Hskip.
Qed.

Lemma return_query_rows (tie : Comment.row -> Comment.row -> bool)
    (p_series_id p_episode_id : option uuid)
    (p_limit p_offset : option Z) (db : database)
    (rows : list CommentStats.row) :
  return_query tie p_series_id p_episode_id p_limit p_offset db = inr rows ->
  Forall (fun r => CommentStats.parent_id r = None
                   /\ CommentStats.reply_count r
                      = Z.of_nat (replies_to (CommentStats.id r) db))
    rows.
Proof.
  unfold return_query. intros H.
  apply bind_ok in H. destruct H as (cut & Hcut & H). injection H as <-.
  apply limit_offset_incl in Hcut.
  apply Forall_forall. intros r Hr.
  apply in_map_iff in Hr. destruct Hr as (j & <- & Hj).
  apply Hcut in Hj. rewrite stats_ordered_spec in Hj.
  apply (Permutation_in _ (order_by_desc_perm _ _ _)) in Hj.
  apply in_map_iff in Hj. destruct Hj as (c & <- & Hc).
  apply filter_In in Hc. destruct Hc as [_ Hwhere].
  split.
  - simpl. now apply stats_where_parent in Hwhere.
  - simpl. apply coalesce_reply_count.
Qed.

(** Without LIMIT and OFFSET the statement returns every row it orders. *)
Lemma return_query_all (tie : Comment.row -> Comment.row -> bool)
    (p_series_id p_episode_id : option N) (db : database) :
  return_query tie p_series_id p_episode_id None None db
  = ok (map stats_select (stats_ordered tie p_series_id p_episode_id db)).
Proof. reflexivity. Qed.

Lemma insert_desc_map {A B} (g : A -> B) (key : B -> timestamptz)
    (tie : B -> B -> bool) (x : A) (l : list A) :
  insert_desc key tie (g x) (map g l)
  = map g (insert_desc (fun a => key (g a)) (fun a b => tie (g a) (g b)) x l).
Proof.
  induction l as [ | y rest IH]; cbn [insert_desc map].
  - reflexivity.
  - destruct ((key (g y) <? key (g x))
              || ((key (g y) =? key (g x)) && tie (g x) (g y))).
    + reflexivity.
    + cbn [map]. now rewrite IH.
Qed.

Lemma order_by_desc_map {A B} (g : A -> B) (key : B -> timestamptz)
    (tie : B -> B -> bool) (l : list A) :
  order_by_desc key tie (map g l)
  = map g (order_by_desc (fun a => key (g a)) (fun a b => tie (g a) (g b)) l).
Proof.
  induction l as [ | x rest IH]; cbn [order_by_desc map].
  - reflexivity.
  - now rewrite IH, insert_desc_map.
Qed.

(** The rows a run returns without LIMIT and OFFSET show the selected
    comments in the order of that run. *)
Lemma return_query_comments (tie : Comment.row -> Comment.row -> bool)
    (p_series_id p_episode_id : option uuid) (db : database) :
  exists rows,
    return_query tie p_series_id p_episode_id None None db = ok rows
    /\ map comment_of rows
       = order_by_desc Comment.created_at tie
           (filter (stats_where p_series_id p_episode_id) (comments db)).
Proof.
  eexists. split; [apply return_query_all | ].
  rewrite stats_ordered_spec.
  rewrite (order_by_desc_map
             (fun c => (c, match replies_to (Comment.id c) db with
                           | O => None
                           | S n => Some (Z.of_nat (S n))
                           end))
             (fun j => Comment.created_at (fst j))
             (fun a b => tie (fst a) (fst b))).
  cbn [fst]. rewrite !map_map.
  erewrite map_ext; [ | intros c; apply comment_of_select].
  apply map_id.
Qed.

Lemma comment_eqb_eq (x y : Comment.row) : comment_eqb x y = true <-> x = y.
Proof.
  unfold comment_eqb. destruct (comment_eq_dec x y) as [E | E].
  - tauto.
  - split; [discriminate | contradiction].
Qed.

(** The model of ORDER BY leaves out no order that the statement allows:
    every way of putting the selected comments newest first is what some run
    returns. *)
Lemma return_query_any_run (p_series_id p_episode_id : option uuid)
    (db : database) (out : list Comment.row) :
  NoDup out ->
  Permutation (filter (stats_where p_series_id p_episode_id) (comments db))
    out ->
  StronglySorted
    (fun a b => Comment.created_at b <= Comment.created_at a) out ->
  exists tie rows,
    return_query tie p_series_id p_episode_id None None db = ok rows
    /\ map comment_of rows = out.
Proof.
  intros Hnd Hp Hs. exists (tie_of comment_eqb out).
  destruct (return_query_comments (tie_of comment_eqb out) p_series_id
              p_episode_id db) as (rows & Hrows & Hshow).
  exists rows. split; [exact Hrows | ].
  rewrite Hshow.
  now apply (order_by_desc_any_run comment_eqb Comment.created_at
               comment_eqb_eq).
Qed.




Lemma limit_offset_given {A} (l o : Z) (rows : list A) :
  0 <= l -> 0 <= o ->
  limit_offset (Some l) (Some o) rows
  = ok (firstn (Z.to_nat l) (skipn (Z.to_nat o) rows)).
Proof.
  intros Hl Ho. unfold limit_offset.
  apply Z.ltb_ge in Hl. apply Z.ltb_ge in Ho.
  rewrite Ho. simpl. now rewrite Hl.
Qed.

Lemma return_query_given (tie : Comment.row -> Comment.row -> bool)
    (p_series_id p_episode_id : option uuid) (l o : Z) (db : database) :
  0 <= l -> 0 <= o ->
  return_query tie p_series_id p_episode_id (Some l) (Some o) db
  = ok (firstn (Z.to_nat l)
          (skipn (Z.to_nat o)
             (map stats_select
                (stats_ordered tie p_series_id p_episode_id db)))).
Proof.
  intros Hl Ho. unfold return_query.
  rewrite (limit_offset_given _ _ _ Hl Ho). cbn [bind ok].
  now rewrite skipn_map, firstn_map.
Qed.

(** What the RETURN QUERY statement computes in one run, taken alone: the
    top-level comments of the series (of the episode, when one is given)
    sorted newest first, without the first [offset] of them, at most [limit]
    of the rest; 50 and 0 when the defaults of the parameters are taken. *)
Lemma return_query_page (tie : Comment.row -> Comment.row -> bool)
    (sid : uuid) (eid : option uuid) (limit offset : Z) (db : database) :
  0 <= limit -> 0 <= offset ->
  exists sorted : list CommentStats.row,
    Permutation (map comment_of sorted)
      (filter (top_level_of sid eid) (comments db))
    /\ newest_first sorted
    /\ return_query tie (Some sid) eid (Some limit) (Some offset) db
       = ok (firstn (Z.to_nat limit) (skipn (Z.to_nat offset) sorted))
    /\ (List.length (firstn (Z.to_nat limit) (skipn (Z.to_nat offset) sorted))
        <= Z.to_nat limit)%nat
    /\ return_query tie (Some sid) eid (with_default (Some 50) None)
         (with_default (Some 0) None) db
       = ok (firstn 50 sorted).
Proof.
  intros Hl Ho.
  exists (map stats_select (stats_ordered tie (Some sid) eid db)).
  split; [ | split; [ | split; [ | split]]].
  - rewrite stats_ordered_spec, map_map.
    eapply perm_trans.
    + apply Permutation_map. apply order_by_desc_perm.
    + rewrite map_map.
      erewrite map_ext; [ | intros c; apply comment_of_select].
      rewrite map_id.
      erewrite filter_ext; [apply Permutation_refl | ].
      intros c. apply stats_where_top_level.
  - unfold newest_first, stats_ordered.
    eapply StronglySorted_map; [ | apply order_by_desc_sorted].
    intros a b H. exact H.
  - now apply return_query_given.
  - apply firstn_le_length.
  - cbn [with_default]. rewrite return_query_given by lia. reflexivity.
Qed.

(** C5, where the code departs from it: the subquery of the RETURN QUERY
    statement names the column [parent_id] without a qualifier, and
    [parent_id] is also a column of RETURNS TABLE, hence a variable of the
    function; the statement is refused as ambiguous, so that every call
    raises and none returns the page of comments. *)
Theorem get_comments_with_stats_raises
    (tie : Comment.row -> Comment.row -> bool)
    (p_series_id p_episode_id : option uuid) (p_limit p_offset : option Z)
    (db : database) :
  get_comments_with_stats tie p_series_id p_episode_id p_limit p_offset db
  = throw (ambiguous_column "parent_id").
Proof. reflexivity. Qed.

(** ** [trim] is idempotent *)

Lemma ltrim_head (s : string) :
  ltrim s = ""
  \/ exists c r, ltrim s = String c r /\ is_space c = false.
Proof.
  induction s as [ | c s' IH]; simpl.
  - now left.
  - destruct (is_space c) eqn:E; [exact IH | ].
    right. now exists c, s'.
Qed.

Lemma rtrim_head (c : ascii) (r : string) :
  is_space c = false -> exists r', rtrim (String c r) = String c r'.
Proof.
  intros E. simpl. destruct (rtrim r) as [ | d r'].
  - rewrite E. now exists "".
  - now exists (String d r').
Qed.

Lemma rtrim_idem (s : string) : rtrim (rtrim s) = rtrim s.
Proof.
  induction s as [ | c s' IH]; simpl.
  - reflexivity.
  - destruct (rtrim s') as [ | d r'] eqn:E.
    + destruct (is_space c) eqn:Ec; simpl; [reflexivity | now rewrite Ec].
    + change (rtrim (String c (String d r')))
        with (match rtrim (String d r') with
              | "" => if is_space c then "" else String c ""
              | String a r => String c (String a r)
              end).
      now rewrite IH.
Qed.

Lemma trim_idem (s : string) : trim (trim s) = trim s.
Proof.
  unfold trim.
  destruct (ltrim_head s) as [-> | (c & r & -> & Hc)].
  - reflexivity.
  - destruct (rtrim_head c r Hc) as (r' & Hr). rewrite Hr.
    simpl ltrim. rewrite Hc. rewrite <- Hr. apply rtrim_idem.
Qed.

(** ** [create_comment]: the tests, one by one *)

Lemma length_eqb_empty (s : string) :
  Nat.eqb (String.length s) 0 = String.eqb s "".
Proof. destruct s; reflexivity. Qed.

Lemma required_test (x : option text) :
  holds (sql_or (is_null x) (blank x)) = missing x.
Proof.
  destruct x as [s | ]; simpl; [ | reflexivity].
  rewrite length_eqb_empty. now destruct (String.eqb (trim s) "").
Qed.

Lemma series_test (p_series_id : option uuid) (db : database) :
  holds (is_null p_series_id) = false ->
  negb (series_exists p_series_id db) = no_such_series p_series_id db.
Proof.
  destruct p_series_id as [sid | ]; [intros _ | discriminate].
  unfold series_exists, no_such_series. f_equal.
  apply existsb_pointwise. intros s. simpl.
  now destruct (N.eqb (Series.id s) sid).
Qed.

Lemma episode_test (p_episode_id p_series_id : option uuid) (db : database) :
  holds (sql_and (is_not_null p_episode_id)
           (sql_not (Some (episode_exists p_episode_id p_series_id db))))
  = no_such_episode p_episode_id p_series_id db.
Proof.
  destruct p_episode_id as [ep | ]; [ | reflexivity].
  unfold no_such_episode, episode_exists.
  rewrite (existsb_pointwise _
             (fun x => N.eqb (Episode.id x) ep
                       && match p_series_id with
                          | Some sid => N.eqb (Episode.series_id x) sid
                          | None => false
                          end)).
  - simpl. now destruct (existsb _ _).
  - intros x. simpl. destruct (N.eqb (Episode.id x) ep);
      destruct p_series_id as [sid | ]; simpl; try reflexivity;
      now destruct (N.eqb (Episode.series_id x) sid).
Qed.

Lemma parent_test (p_parent_id p_series_id : option uuid) (db : database) :
  holds (sql_and (is_not_null p_parent_id)
           (sql_not (Some (parent_exists p_parent_id p_series_id db))))
  = no_such_parent p_parent_id p_series_id db.
Proof.
  destruct p_parent_id as [p | ]; [ | reflexivity].
  unfold no_such_parent, parent_exists.
  rewrite (existsb_pointwise _
             (fun c => N.eqb (Comment.id c) p
                       && match p_series_id with
                          | Some sid => N.eqb (Comment.series_id c) sid
                          | None => false
                          end)).
  - simpl. now destruct (existsb _ _).
  - intros c. simpl. destruct (N.eqb (Comment.id c) p);
      destruct p_series_id as [sid | ]; simpl; try reflexivity;
      now destruct (N.eqb (Comment.series_id c) sid).
Qed.

(** The value inserted for [author_email]. *)
Lemma email_value (p_author_email : option text) :
  (if holds (sql_and (is_not_null p_author_email)
               (sql_gt (sql_length (sql_trim p_author_email)) (Some 0%nat)))
   then sql_trim p_author_email else None)
  = normalized_email p_author_email.
Proof.
  destruct p_author_email as [m | ]; simpl; [ | reflexivity].
  destruct (trim m); reflexivity.
Qed.

(** An email is malformed when it is not blank and no reading of the pattern
    of the table covers the whole of it. *)
Lemma malformed_email_spec (m : string) :
  malformed_email (Some m) = true
  <-> trim m <> "" /\ ~ matches email_regex (trim m).
Proof.
  unfold malformed_email. rewrite andb_true_iff, !negb_true_iff.
  rewrite String.eqb_neq, <- re_match_spec, not_true_iff_false. tauto.
Qed.

(** The three CHECKs on the values [create_comment] inserts. *)
Lemma content_check (n : nat) (s : string) :
  trim s <> "" ->
  check_passes
    (sql_and (sql_gt (sql_length (sql_trim (Some (trim s)))) (Some 0%nat))
       (sql_le (sql_length (Some (trim s))) (Some n)))
  = negb (longer_than n (Some s)).
Proof.
  intros H. simpl. rewrite trim_idem, (nonblank_length _ H).
  rewrite Nat.ltb_antisym.
  now destruct (Nat.leb (String.length (trim s)) n).
Qed.

Lemma email_check (p_author_email : option text) :
  check_passes
    (sql_or (is_null (normalized_email p_author_email))
       (sql_imatch (normalized_email p_author_email) email_regex))
  = negb (malformed_email p_author_email).
Proof.
  destruct p_author_email as [m | ]; simpl; [ | reflexivity].
  destruct (String.eqb (trim m) ""); simpl; [reflexivity | ].
  now destruct (re_match email_regex (trim m)).
Qed.

Lemma existsb_weaken {A} (f g : A -> bool) (l : list A) :
  existsb (fun a => f a && g a) l = true -> existsb f l = true.
Proof.
  intros H. apply existsb_exists in H. destruct H as (a & Hin & H).
  apply andb_true_iff in H. apply existsb_exists. exists a. tauto.
Qed.

Lemma missing_false (x : option text) :
  missing x = false -> exists s, x = Some s /\ trim s <> "".
Proof.
  destruct x as [s | ]; simpl; [ | discriminate].
  intros H. exists s. split; [reflexivity | ].
  intros E. rewrite E in H. discriminate.
Qed.

(** The INSERT of [create_comment] once the validation is passed and the
    CHECKs hold: neither the primary key nor a foreign key fires. *)
Lemma insert_comment_ok (e : env) (content author_name : text)
    (p_author_email : option text) (sid : uuid) (p_episode_id
    p_parent_id : option uuid) (db : database) :
  trim content <> "" -> trim author_name <> "" ->
  refused_by_checks (Some content) (Some author_name) p_author_email = false ->
  no_such_series (Some sid) db = false ->
  no_such_episode p_episode_id (Some sid) db = false ->
  no_such_parent p_parent_id (Some sid) db = false ->
  ~ In (gen_random_uuid e) (map Comment.id (comments db)) ->
  let row := Comment.mk (gen_random_uuid e) (trim content) (trim author_name)
               (normalized_email p_author_email) sid p_episode_id p_parent_id
               0 (now e) (now e) in
  insert_comment e (Some (trim content)) (Some (trim author_name))
    (normalized_email p_author_email) (Some sid) p_episode_id p_parent_id db
  = ok (with_comments db (comments db ++ [row]), row).
Proof.
  intros Hc Hn Hchecks Hs Hep Hp Hfresh row.
  unfold refused_by_checks in Hchecks.
  apply orb_false_iff in Hchecks. destruct Hchecks as [Hchecks Hmail].
  apply orb_false_iff in Hchecks. destruct Hchecks as [Hlc Hln].
  unfold insert_comment. cbn [not_null bind ok].
  rewrite (content_check 2000 content Hc), Hlc.
  rewrite (content_check 100 author_name Hn), Hln.
  rewrite email_check, Hmail. cbn [negb].
  rewrite (existsb_id_false _ _ _ Hfresh).
  unfold no_such_series in Hs. rewrite Hs.
  assert (Hfk1 : match p_episode_id with
                 | Some ep =>
                     negb (existsb (fun x => N.eqb (Episode.id x) ep)
                             (episodes db))
                 | None => false
                 end = false).
  { destruct p_episode_id as [ep | ]; [ | reflexivity].
    unfold no_such_episode in Hep. apply negb_false_iff in Hep.
    apply existsb_weaken in Hep. now rewrite Hep. }
  assert (Hfk2 : match p_parent_id with
                 | Some p =>
                     negb (existsb (fun c => N.eqb (Comment.id c) p)
                             (comments db))
                 | None => false
                 end = false).
  { destruct p_parent_id as [p | ]; [ | reflexivity].
    unfold no_such_parent in Hp. apply negb_false_iff in Hp.
    apply existsb_weaken in Hp. now rewrite Hp. }
  rewrite Hfk1, Hfk2. reflexivity.
Qed.

(** A call that no reason refuses inserts the row and returns it. *)
Lemma create_comment_accepts (e : env) (p_content p_author_name
    p_author_email : option text) (p_series_id p_episode_id
    p_parent_id : option uuid) (db : database) :
  refused_by_validation p_content p_author_name p_series_id p_episode_id
    p_parent_id db = false ->
  refused_by_checks p_content p_author_name p_author_email = false ->
  ~ In (gen_random_uuid e) (map Comment.id (comments db)) ->
  exists content author_name sid,
    p_content = Some content /\ trim content <> ""
    /\ p_author_name = Some author_name /\ trim author_name <> ""
    /\ p_series_id = Some sid
    /\ let row :=
         Comment.mk (gen_random_uuid e) (trim content) (trim author_name)
           (normalized_email p_author_email) sid p_episode_id p_parent_id
           0 (now e) (now e) in
       create_comment e p_content p_author_name p_author_email p_series_id
         p_episode_id p_parent_id db
       = ok (with_comments db (comments db ++ [row]), row).
Proof.
  intros Hv Hchecks Hfresh. unfold refused_by_validation in Hv.
  repeat (apply orb_false_iff in Hv; destruct Hv as [Hv ?]).
  destruct (missing_false _ Hv) as (content & -> & Hc).
  destruct (missing_false _ H2) as (author_name & -> & Hn).
  destruct p_series_id as [sid | ]; [ | discriminate].
  exists content, author_name, sid. repeat (split; [assumption || reflexivity | ]).
  intros row. unfold create_comment. resolved.
  rewrite !required_test, Hv, H2.
  cbn [holds is_null]. rewrite series_test, H1 by reflexivity.
  rewrite episode_test, H0, parent_test, H, email_value.
  cbn [sql_trim option_map].
  rewrite (insert_comment_ok e content author_name p_author_email sid
             p_episode_id p_parent_id db Hc Hn Hchecks H1 H0 H Hfresh).
  reflexivity.
Qed.

(** A call that some reason refuses raises. *)
Lemma create_comment_refuses (e : env) (p_content p_author_name
    p_author_email : option text) (p_series_id p_episode_id
    p_parent_id : option uuid) (db : database) :
  refused_by_validation p_content p_author_name p_series_id p_episode_id
    p_parent_id db
  || refused_by_checks p_content p_author_name p_author_email = true ->
  is_ok (create_comment e p_content p_author_name p_author_email p_series_id
           p_episode_id p_parent_id db) = false.
Proof.
  intros H. unfold refused_by_validation in H. unfold create_comment. resolved.
  rewrite !required_test.
  destruct (missing p_content) eqn:Hc; [reflexivity | ].
  destruct (missing p_author_name) eqn:Hn; [reflexivity | ].
  destruct p_series_id as [sid | ]; [ | reflexivity].
  cbn [holds is_null]. rewrite series_test by reflexivity.
  destruct (no_such_series (Some sid) db) eqn:Hs; [reflexivity | ].
  rewrite episode_test.
  destruct (no_such_episode p_episode_id (Some sid) db) eqn:Hep;
    [reflexivity | ].
  rewrite parent_test.
  destruct (no_such_parent p_parent_id (Some sid) db) eqn:Hp;
    [reflexivity | ].
  cbn [orb] in H. unfold refused_by_checks in H.
  destruct (missing_false _ Hc) as (content & -> & Hcontent).
  destruct (missing_false _ Hn) as (author_name & -> & Hname).
  rewrite email_value. cbn [sql_trim option_map].
  unfold insert_comment. cbn [not_null bind ok].
  rewrite email_check.
  destruct (malformed_email p_author_email); [reflexivity | ].
  rewrite (content_check 100 author_name Hname).
  destruct (longer_than 100 (Some author_name)); [reflexivity | ].
  rewrite (content_check 2000 content Hcontent).
  rewrite !orb_false_r in H. rewrite H. reflexivity.
Qed.

Lemma is_ok_false {A} (r : result A) :
  is_ok r = false <-> exists err, r = inl err.
Proof.
  destruct r as [err | a]; simpl; split; intros H.
  - now exists err.
  - reflexivity.
  - discriminate.
  - destruct H as (err & H). discriminate.
Qed.

(** C2, as the code has it: [create_comment] raises, and inserts nothing,
    exactly when the content or the author name is NULL or blank once trimmed,
    or the series id is NULL or the id of no series, or the episode id is
    given and is the id of no episode of that series, or the parent id is
    given and is the id of no comment of that series, or (the CHECKs of the
    table) the trimmed content is longer than 2000 characters, or the trimmed
    author name is longer than 100, or the email is not blank and not of the
    shape of an address. *)
Theorem create_comment_fails_iff (e : env) (p_content p_author_name
    p_author_email : option text) (p_series_id p_episode_id
    p_parent_id : option uuid) (db : database) :
  ~ In (gen_random_uuid e) (map Comment.id (comments db)) ->
  ((exists err,
       create_comment e p_content p_author_name p_author_email p_series_id
         p_episode_id p_parent_id db = inl err)
   <-> refused_by_validation p_content p_author_name p_series_id p_episode_id
         p_parent_id db = true
       \/ refused_by_checks p_content p_author_name p_author_email = true)
  /\ forall err,
       create_comment e p_content p_author_name p_author_email p_series_id
         p_episode_id p_parent_id db = inl err ->
       exec e (CreateComment p_content p_author_name p_author_email
                 p_series_id p_episode_id p_parent_id) db = db.
Proof.
  intros Hfresh. split.
  - split.
    + intros (err & Herr).
      destruct (refused_by_validation p_content p_author_name p_series_id
                  p_episode_id p_parent_id db) eqn:Hv; [now left | ].
      destruct (refused_by_checks p_content p_author_name p_author_email)
        eqn:Hchecks; [now right | ].
      destruct (create_comment_accepts e _ _ _ _ _ _ db Hv Hchecks Hfresh)
        as (c & n & s & _ & _ & _ & _ & _ & Hok).
      simpl in Hok. rewrite Hok in Herr. discriminate.
    + intros H. apply is_ok_false. apply create_comment_refuses.
      apply orb_true_iff. exact H.
  - intros err Herr. simpl. rewrite Herr. reflexivity.
Qed.

Lemma create_comment_fails_iff_witness :
  (exists err,
      create_comment Sample.at2 (Some "   ") (Some "Bob") None (Some 1%N)
        None None Sample.one_comment = inl err)
  <-> refused_by_validation (Some "   ") (Some "Bob") (Some 1%N) None None
        Sample.one_comment = true
      \/ refused_by_checks (Some "   ") (Some "Bob") None = true.
Proof.
  apply (create_comment_fails_iff Sample.at2 (Some "   ") (Some "Bob") None
           (Some 1%N) None None Sample.one_comment).
  vm_compute. intros [H | []]. discriminate.
Defined.

(** C2, as the claim has it, fails: none of its five reasons holds of this
    call, and the call raises, on the CHECK of [author_email]. *)
Lemma create_comment_fails_on_bad_email :
  refused_by_validation (Some "Nice one") (Some "Eve") (Some 1%N) None None
    Sample.empty_db = false
  /\ create_comment Sample.at1 (Some "Nice one") (Some "Eve")
       (Some "not-an-email") (Some 1%N) None None Sample.empty_db
     = throw (check_violation "comments_author_email_check").
Proof. split; reflexivity. Qed.

(** C3, as the code has it: a call with content and author name not blank,
    an existing series and valid episode and parent, whose trimmed content is
    at most 2000 characters, whose trimmed author name is at most 100 and
    whose email is NULL, blank or of the shape of an address, returns the row
    it stored: content and author name trimmed, the email NULL when NULL or
    blank was given and trimmed otherwise, and no likes. *)
Theorem create_comment_returns_row (e : env) (content author_name : text)
    (p_author_email : option text) (sid : uuid) (p_episode_id
    p_parent_id : option uuid) (db : database) :
  trim content <> "" ->
  trim author_name <> "" ->
  no_such_series (Some sid) db = false ->
  no_such_episode p_episode_id (Some sid) db = false ->
  no_such_parent p_parent_id (Some sid) db = false ->
  (String.length (trim content) <= 2000)%nat ->
  (String.length (trim author_name) <= 100)%nat ->
  malformed_email p_author_email = false ->
  ~ In (gen_random_uuid e) (map Comment.id (comments db)) ->
  exists row,
    create_comment e (Some content) (Some author_name) p_author_email
      (Some sid) p_episode_id p_parent_id db
    = ok (with_comments db (comments db ++ [row]), row)
    /\ Comment.content row = trim content
    /\ Comment.author_name row = trim author_name
    /\ Comment.author_email row
       = match p_author_email with
         | None => None
         | Some m => if String.eqb (trim m) "" then None else Some (trim m)
         end
    /\ Comment.likes_count row = 0.
Proof.
  intros Hc Hn Hs Hep Hp Hlc Hln Hmail Hfresh.
  assert (Hv : refused_by_validation (Some content) (Some author_name)
                 (Some sid) p_episode_id p_parent_id db = false).
  { unfold refused_by_validation. rewrite Hs, Hep, Hp. simpl.
    apply String.eqb_neq in Hc. apply String.eqb_neq in Hn.
    now rewrite Hc, Hn. }
  assert (Hchecks : refused_by_checks (Some content) (Some author_name)
                      p_author_email = false).
  { unfold refused_by_checks. rewrite Hmail. simpl.
    apply Nat.ltb_ge in Hlc. apply Nat.ltb_ge in Hln.
    now rewrite Hlc, Hln. }
  destruct (create_comment_accepts e _ _ _ _ _ _ db Hv Hchecks Hfresh)
    as (c & n & s & Ec & _ & En & _ & Es & Hok).
  injection Ec as <-. injection En as <-. injection Es as <-.
  eexists. split; [exact Hok | ]. repeat split.
Qed.

Lemma create_comment_returns_row_witness :
  exists row,
    create_comment Sample.at2 (Some " Agreed ") (Some "Bob") (Some "  ")
      (Some 1%N) (Some 10%N) (Some 100%N) Sample.one_comment
    = ok (with_comments Sample.one_comment
            (comments Sample.one_comment ++ [row]), row)
    /\ Comment.content row = trim " Agreed "
    /\ Comment.author_name row = trim "Bob"
    /\ Comment.author_email row = None
    /\ Comment.likes_count row = 0.
Proof.
  apply (create_comment_returns_row Sample.at2 " Agreed " "Bob" (Some "  ")
           1%N (Some 10%N) (Some 100%N) Sample.one_comment);
    try reflexivity; try (vm_compute; discriminate).
  - vm_compute. lia.
  - vm_compute. lia.
  - vm_compute. intros [H | []]. discriminate.
Defined.

(** C3, as the claim has it, fails: content and author name are not blank,
    the series exists, there is neither episode nor parent, and the call
    raises, on the CHECK of [author_name] (101 letters). *)
Lemma create_comment_fails_on_long_name :
  trim "Nice one" <> ""
  /\ trim Sample.long_name <> ""
  /\ refused_by_validation (Some "Nice one") (Some Sample.long_name)
       (Some 1%N) None None Sample.empty_db = false
  /\ create_comment Sample.at1 (Some "Nice one") (Some Sample.long_name) None
       (Some 1%N) None None Sample.empty_db
     = throw (check_violation "comments_author_name_check").
Proof.
  split; [vm_compute; discriminate | ].
  split; [vm_compute; discriminate | ].
  split; vm_compute; reflexivity.
Qed.

(** ** [admin_update_series_status] *)

Lemma update_series_status_runs (e : env) (sid : uuid) (st : series_status)
    (rows : list Series.row) :
  update_series_status e (Some sid) (Some st) rows
  = ok (map (fun s => if N.eqb (Series.id s) sid
                      then set_status s st (now e) else s) rows,
        List.length (filter (fun s => N.eqb (Series.id s) sid) rows)).
Proof.
  induction rows as [ | s rest IH]; simpl.
  - reflexivity.
  - rewrite IH. destruct (N.eqb (Series.id s) sid); reflexivity.
Qed.

Lemma filter_length_zero {A} (f : A -> bool) (l : list A) :
  Nat.eqb (List.length (filter f l)) 0 = negb (existsb f l).
Proof.
  induction l as [ | a rest IH]; simpl.
  - reflexivity.
  - destruct (f a); simpl; [reflexivity | exact IH].
Qed.

(** With a code that is not NULL, the procedure does what its contract says:
    it raises on a code other than the secret and on an id of no series, and
    otherwise rewrites the status and the update time of that series only. *)
Lemma admin_update_series_status_given_code (e : env) (code : text)
    (sid : uuid) (st : series_status) (db : database) :
  admin_update_series_status e (Some code) (Some sid) (Some st) db
  = if negb (String.eqb code admin_secret)
    then throw (raise_exception "Unauthorized")
    else if negb (existsb (fun s => N.eqb (Series.id s) sid) (series db))
    then throw (raise_exception "Series not found")
    else ok (with_series db
               (map (fun s => if N.eqb (Series.id s) sid
                              then set_status s st (now e) else s)
                  (series db)), tt).
Proof.
  unfold admin_update_series_status. resolved. simpl holds.
  destruct (String.eqb code admin_secret); simpl; [ | reflexivity].
  rewrite update_series_status_runs. cbn [bind ok].
  rewrite filter_length_zero, negb_involutive.
  destruct (existsb _ (series db)); reflexivity.
Qed.

(** C6, where the code departs from it: a NULL [admin_code] is not the secret,
    yet the test [admin_code <> 'Shivam2008'] is then NULL, not TRUE, the
    procedure does not raise 'Unauthorized', and the status is rewritten. *)
Theorem admin_update_series_status_null_code :
  admin_update_series_status Sample.at1 None (Some 1%N) (Some completed)
    Sample.empty_db
  = ok (with_series Sample.empty_db [Series.mk 1%N "Show" 0 completed 1000],
        tt)
  /\ admin_update_series_status Sample.at1 (Some "wrong-code") (Some 1%N)
       (Some completed) Sample.empty_db
     = throw (raise_exception "Unauthorized").
Proof. split; reflexivity. Qed.

(** The same for every database: without a code, any existing series can be
    rewritten. *)
Lemma admin_update_series_status_unguarded (e : env) (sid : uuid)
    (st : series_status) (db : database) :
  admin_update_series_status e None (Some sid) (Some st) db
  = admin_update_series_status e (Some admin_secret) (Some sid) (Some st) db.
Proof. reflexivity. Qed.

(** * Further properties of the procedures *)

(** ** [toggle_comment_like]: every way it can return *)

Lemma hd_error_filter {A} (f : A -> bool) (l : list A) :
  hd_error (filter f l) = find f l.
Proof.
  induction l as [ | a rest IH]; simpl.
  - reflexivity.
  - destruct (f a); [reflexivity | exact IH].
Qed.

Lemma map_hd_error_filter_aux {A B} (g : A -> B) (l : list A) :
  hd_error (map g l) = option_map g (hd_error l).
Proof. destruct l; reflexivity. Qed.

Lemma existsb_id_inv {A} (key : A -> N) (x : N) (l : list A) :
  existsb (fun a => N.eqb (key a) x) l = true -> In x (map key l).
Proof.
  intros H. apply existsb_exists in H. destruct H as (a & Hin & Ha).
  apply N.eqb_eq in Ha. subst x. now apply in_map.
Qed.

Lemma existsb_id_not {A} (key : A -> N) (x : N) (l : list A) :
  existsb (fun a => N.eqb (key a) x) l = false -> ~ In x (map key l).
Proof.
  intros H Hin. apply existsb_id_true in Hin. congruence.
Qed.

Lemma toggle_comment_like_cases (e : env) (p_comment_id : option N)
    (p_user_identifier : option string) (db db' : database)
    (j : ToggleJson.t) :
  toggle_comment_like e p_comment_id p_user_identifier db = inr (db', j) ->
  exists cid uid,
    p_comment_id = Some cid /\ p_user_identifier = Some uid
    /\ trim uid <> ""
    /\ series db' = series db /\ episodes db' = episodes db
    /\ ((liked_by db cid uid = true
         /\ comments db' = map (updated e (-1) cid) (comments db)
         /\ comment_likes db'
            = filter (fun l => negb (like_matches (Some cid) (Some uid) l))
                (comment_likes db)
         /\ j = ToggleJson.mk "unliked"
                  (option_map (fun c => Comment.likes_count c + -1)
                     (find (targets cid) (comments db)))
                  false)
        \/ (liked_by db cid uid = false
            /\ comments db' = map (updated e 1 cid) (comments db)
            /\ comment_likes db'
               = (comment_likes db
                  ++ [CommentLike.mk (gen_random_uuid e) cid uid (now e)])%list
            /\ In cid (map Comment.id (comments db))
            /\ ~ In (gen_random_uuid e)
                 (map CommentLike.id (comment_likes db))
            /\ j = ToggleJson.mk "liked"
                     (option_map (fun c => Comment.likes_count c + 1)
                        (find (targets cid) (comments db)))
                     true))
    /\ Forall (fun c => in_int4 (Comment.likes_count c
                                 + (if liked_by db cid uid then -1 else 1)))
         (filter (targets cid) (comments db)).
Proof.
  unfold toggle_comment_like. resolved. intros H.
  destruct p_comment_id as [cid | ]; [ | discriminate].
  destruct p_user_identifier as [uid | ]; [ | discriminate].
  destruct (holds _) eqn:Hv; [discriminate | ].
  assert (Hblank : trim uid <> "").
  { intros E. simpl in Hv. rewrite E in Hv. discriminate. }
  exists cid, uid. do 3 (split; [reflexivity || assumption | ]).
  fold (liked_by db cid uid) in H.
  destruct (liked_by db cid uid) eqn:Hliked.
  - apply bind_ok in H. destruct H as ([rows returned] & Hupd & H).
    cbn [delete_comment_likes with_comment_likes comments] in Hupd.
    apply update_likes_count_ok in Hupd. destruct Hupd as (-> & -> & Hall).
    injection H as <- <-. cbn [series episodes comments comment_likes
                                 with_comments delete_comment_likes
                                 with_comment_likes].
    rewrite <- hd_error_filter, map_hd_error_filter_aux.
    repeat split; try assumption. left. repeat split.
  - apply bind_ok in H. destruct H as (db1 & Hins & H).
    apply insert_comment_like_inv in Hins.
    destruct Hins as (cid' & uid' & Hc & Hu & -> & Hpk & _ & Hfk).
    injection Hc as <-. injection Hu as <-.
    apply bind_ok in H. destruct H as ([rows returned] & Hupd & H).
    cbn [with_comment_likes comments] in Hupd.
    apply update_likes_count_ok in Hupd. destruct Hupd as (-> & -> & Hall).
    injection H as <- <-. cbn [series episodes comments comment_likes
                                 with_comments with_comment_likes].
    rewrite <- hd_error_filter, map_hd_error_filter_aux.
    repeat split; try assumption. right. repeat split.
    + now apply existsb_id_inv in Hfk.
    + now apply existsb_id_not.
Qed.

(** ** [create_comment]: every way it can return *)

Lemma insert_comment_pk (e : env) (v_content v_author_name
    v_author_email : option string) (v_series_id v_episode_id
    v_parent_id : option N) (db : database) (r : database * Comment.row) :
  insert_comment e v_content v_author_name v_author_email v_series_id
    v_episode_id v_parent_id db = inr r ->
  ~ In (gen_random_uuid e) (map Comment.id (comments db)).
Proof.
  unfold insert_comment. intros H.
  destruct v_content as [content | ]; [ | discriminate].
  destruct v_author_name as [author_name | ]; [ | discriminate].
  destruct v_series_id as [sid | ]; [ | discriminate].
  cbn [not_null bind ok] in H.
  do 3 (destruct (negb (check_passes _)); [discriminate | ]).
  destruct (existsb _ (comments db)) eqn:Hpk in H; [discriminate | ].
  now apply existsb_id_not.
Qed.

Lemma create_comment_pk (e : env) (p_content p_author_name
    p_author_email : option string) (p_series_id p_episode_id
    p_parent_id : option N) (db : database) (r : database * Comment.row) :
  create_comment e p_content p_author_name p_author_email p_series_id
    p_episode_id p_parent_id db = inr r ->
  ~ In (gen_random_uuid e) (map Comment.id (comments db)).
Proof.
  unfold create_comment. resolved. intros H.
  repeat match type of H with
         | (if ?b then _ else _) = _ => destruct b; [discriminate | ]
         end.
  apply bind_ok in H. destruct H as (r1 & Hins & _).
  now apply insert_comment_pk in Hins.
Qed.

(** A call of [create_comment] that returns passed the validation and the
    CHECKs, drew an unused id, and appended the row it returns. *)
Lemma create_comment_cases (e : env) (p_content p_author_name
    p_author_email : option string) (p_series_id p_episode_id
    p_parent_id : option N) (db db' : database) (row : Comment.row) :
  create_comment e p_content p_author_name p_author_email p_series_id
    p_episode_id p_parent_id db = inr (db', row) ->
  refused_by_validation p_content p_author_name p_series_id p_episode_id
    p_parent_id db = false
  /\ refused_by_checks p_content p_author_name p_author_email = false
  /\ ~ In (gen_random_uuid e) (map Comment.id (comments db))
  /\ exists content author_name sid,
       p_content = Some content /\ trim content <> ""
       /\ p_author_name = Some author_name /\ trim author_name <> ""
       /\ p_series_id = Some sid
       /\ row = Comment.mk (gen_random_uuid e) (trim content)
                  (trim author_name) (normalized_email p_author_email) sid
                  p_episode_id p_parent_id 0 (now e) (now e)
       /\ db' = with_comments db (comments db ++ [row]).
Proof.
  intros H.
  pose proof (create_comment_pk _ _ _ _ _ _ _ _ _ H) as Hpk.
  assert (Hok : refused_by_validation p_content p_author_name p_series_id
                  p_episode_id p_parent_id db
                || refused_by_checks p_content p_author_name p_author_email
                = false).
  { destruct (_ || _) eqn:E; [ | reflexivity].
    apply (create_comment_refuses e) in E. rewrite H in E. discriminate. }
  apply orb_false_iff in Hok. destruct Hok as [Hv Hc].
  split; [exact Hv | split; [exact Hc | split; [exact Hpk | ]]].
  destruct (create_comment_accepts e _ _ _ _ _ _ db Hv Hc Hpk)
    as (content & name & sid & Ec & Hcn & En & Hnn & Es & Hres).
  exists content, name, sid.
  cbv zeta in Hres. rewrite Hres in H. injection H as <- <-.
  repeat split; assumption.
Qed.

(** ** [admin_update_series_status]: every way it can return *)

Lemma update_series_status_ok (e : env) (p_series_id : option N)
    (p_status : option series_status) (rows rows' : list Series.row)
    (n : nat) :
  update_series_status e p_series_id p_status rows = inr (rows', n) ->
  Forall2 (fun s s' =>
             Series.id s' = Series.id s /\ Series.title s' = Series.title s
             /\ Series.views_count s' = Series.views_count s
             /\ (Some (Series.id s) <> p_series_id -> s' = s)
             /\ (Some (Series.id s) = p_series_id ->
                 Some (Series.status s') = p_status
                 /\ Series.updated_at s' = now e))
    rows rows'
  /\ n = List.length
           (filter (fun s => holds (sql_eq N.eqb (Some (Series.id s))
                                      p_series_id)) rows).
Proof.
  revert rows' n.
  induction rows as [ | s rest IH];
    cbn [update_series_status filter]; intros rows' n H.
  - injection H as <- <-. split; [constructor | reflexivity].
  - destruct (holds (sql_eq N.eqb (Some (Series.id s)) p_series_id)) eqn:E.
    + apply bind_ok in H. destruct H as (st & Hst & H).
      destruct p_status as [st' | ]; [ | discriminate].
      injection Hst as <-.
      apply bind_ok in H. destruct H as ([r m] & Hrest & H).
      injection H as <- <-. destruct (IH _ _ Hrest) as [Hall ->].
      split; [ | reflexivity]. constructor; [ | exact Hall].
      simpl. repeat (split; [reflexivity | ]). split; [ | now intros].
      intros Hne. exfalso. apply Hne.
      destruct p_series_id as [sid | ]; [ | discriminate].
      simpl in E. destruct (N.eqb (Series.id s) sid) eqn:E'; [ | discriminate].
      apply N.eqb_eq in E'. now subst.
    + apply bind_ok in H. destruct H as ([r m] & Hrest & H).
      injection H as <- <-. destruct (IH _ _ Hrest) as [Hall ->].
      split; [ | reflexivity]. constructor; [ | exact Hall].
      repeat (split; [now intros | ]).
      intros Heq. exfalso. rewrite <- Heq in E.
      simpl in E. rewrite N.eqb_refl in E. discriminate.
Qed.

Lemma admin_update_series_status_cases (e : env) (admin_code : option string)
    (p_series_id : option N) (p_status : option series_status)
    (db db' : database) (u : unit) :
  admin_update_series_status e admin_code p_series_id p_status db
  = inr (db', u) ->
  (admin_code = None \/ admin_code = Some admin_secret)
  /\ (exists s, In s (series db) /\ Some (Series.id s) = p_series_id)
  /\ p_status <> None
  /\ Forall2 (only_status_touched e p_series_id p_status)
       (series db) (series db')
  /\ episodes db' = episodes db
  /\ comments db' = comments db
  /\ comment_likes db' = comment_likes db.
Proof.
  unfold admin_update_series_status. resolved. intros H.
  destruct (holds (sql_neq String.eqb admin_code (Some admin_secret)))
    eqn:Hcode; [discriminate | ].
  apply bind_ok in H. destruct H as ([rows n] & Hupd & H).
  destruct (negb (negb (Nat.eqb n 0))) eqn:Hn; [discriminate | ].
  injection H as <- _.
  apply update_series_status_ok in Hupd. destruct Hupd as [Hall ->].
  rewrite negb_involutive in Hn.
  assert (Hex : exists s, In s (series db)
                          /\ Some (Series.id s) = p_series_id).
  { destruct (filter _ (series db)) as [ | s rest] eqn:Ef; [discriminate | ].
    assert (Hin : In s (filter (fun s => holds (sql_eq N.eqb
                                   (Some (Series.id s)) p_series_id))
                          (series db))) by (rewrite Ef; now left).
    apply filter_In in Hin. destruct Hin as [Hin Hs]. exists s.
    split; [exact Hin | ].
    destruct p_series_id as [sid | ]; [ | discriminate]. simpl in Hs.
    destruct (N.eqb (Series.id s) sid) eqn:E; [ | discriminate].
    apply N.eqb_eq in E. now subst. }
  split; [ | split; [exact Hex | split; [ | repeat split; exact Hall]]].
  - destruct admin_code as [code | ]; [ | now left]. right.
    simpl in Hcode. destruct (String.eqb code admin_secret) eqn:E;
      [ | discriminate].
    apply String.eqb_eq in E. now subst.
  - destruct Hex as (s & Hin & Hs). intros ->.
    clear Hn. induction Hall as [ | a a' l l' Ha _ IH].
    + destruct Hin.
    + destruct Hin as [<- | Hin]; [ | now apply IH].
      destruct Ha as (_ & _ & _ & _ & Ha). destruct (Ha Hs). discriminate.
Qed.

(** ** The like counter is the number of like rows *)









(** ** Every stored comment passed the tests of [create_comment] *)

Lemma longer_than_false (n : nat) (s : string) :
  longer_than n (Some s) = false -> (String.length (trim s) <= n)%nat.
Proof. simpl. apply Nat.ltb_ge. Qed.

Lemma normalized_email_checked (m : option string) :
  malformed_email m = false ->
  match normalized_email m with
  | None => True
  | Some x => trim x = x /\ x <> "" /\ matches email_regex x
  end.
Proof.
  destruct m as [x | ]; simpl; [ | trivial].
  destruct (String.eqb (trim x) "") eqn:E; simpl; [trivial | ].
  intros H. apply negb_false_iff in H.
  split; [apply trim_idem | ]. split.
  - now apply String.eqb_neq.
  - now apply re_match_spec.
Qed.

Lemma series_known (sid : N) (db : database) :
  no_such_series (Some sid) db = false ->
  In sid (map Series.id (series db)).
Proof.
  unfold no_such_series. intros H. apply negb_false_iff in H.
  now apply existsb_id_inv in H.
Qed.

Lemma episode_known (ep sid : N) (db : database) :
  no_such_episode (Some ep) (Some sid) db = false ->
  exists x, In x (episodes db) /\ Episode.id x = ep
            /\ Episode.series_id x = sid.
Proof.
  unfold no_such_episode. intros H. apply negb_false_iff in H.
  apply existsb_exists in H. destruct H as (x & Hin & H).
  apply andb_true_iff in H. destruct H as [H1 H2].
  apply N.eqb_eq in H1. apply N.eqb_eq in H2. now exists x.
Qed.

Lemma Forall2_ids (e : env) (p_series_id : option N)
    (p_status : option series_status) (l l' : list Series.row) :
  Forall2 (only_status_touched e p_series_id p_status) l l' ->
  map Series.id l' = map Series.id l.
Proof.
  intros H. induction H as [ | s s' l l' Hs _ IH]; simpl.
  - reflexivity.
  - destruct Hs as (-> & _). now rewrite IH.
Qed.

Lemma rows_sound_toggle (e : env) (p_comment_id : option N)
    (p_user_identifier : option string) (db db' : database)
    (j : ToggleJson.t) :
  rows_sound db ->
  toggle_comment_like e p_comment_id p_user_identifier db = inr (db', j) ->
  rows_sound db'.
Proof.
  intros Hinv H. apply toggle_comment_like_cases in H.
  destruct H as (cid & uid & _ & _ & _ & Hs & He & Hbranch & _).
  assert (Hmap : forall delta,
             comments db' = map (updated e delta cid) (comments db) ->
             rows_sound db').
  { intros delta Hcs c' Hc'. rewrite Hcs in Hc'. apply in_map_iff in Hc'.
    destruct Hc' as (c & <- & Hc).
    destruct (updated_frame e delta cid c)
      as ((_ & E1 & E2 & E3 & E4 & E5 & _) & _).
    destruct (Hinv c Hc) as [Hchk Hpl].
    unfold row_checked, row_placed. rewrite E1, E2, E3, E4, E5, Hs, He.
    split; assumption. }
  destruct Hbranch as [(_ & Hcs & _) | (_ & Hcs & _)]; eapply Hmap; eassumption.
Qed.

Lemma rows_sound_create (e : env) (p_content p_author_name
    p_author_email : option string) (p_series_id p_episode_id
    p_parent_id : option N) (db db' : database) (row : Comment.row) :
  rows_sound db ->
  create_comment e p_content p_author_name p_author_email p_series_id
    p_episode_id p_parent_id db = inr (db', row) ->
  rows_sound db'.
Proof.
  intros Hinv H. apply create_comment_cases in H.
  destruct H as (Hv & Hchecks & _ & content & name & sid & -> & Hc & -> & Hn
                 & -> & Hrow & ->).
  unfold refused_by_validation in Hv.
  repeat (apply orb_false_iff in Hv; destruct Hv as [Hv ?]).
  unfold refused_by_checks in Hchecks.
  repeat (apply orb_false_iff in Hchecks; destruct Hchecks as [Hchecks ?]).
  intros c Hin. simpl in Hin. apply in_app_or in Hin.
  destruct Hin as [Hin | [<- | []]].
  - destruct (Hinv c Hin) as [Hchk Hpl]. split; assumption.
  - rewrite Hrow. split.
    + unfold row_checked. simpl.
      rewrite !trim_idem.
      repeat split; try assumption.
      * now apply longer_than_false.
      * now apply longer_than_false.
      * now apply normalized_email_checked.
    + unfold row_placed. simpl. split; [now apply series_known | ].
      destruct p_episode_id as [ep | ]; [ | trivial].
      now apply episode_known.
Qed.

Lemma rows_sound_admin (e : env) (admin_code : option string)
    (p_series_id : option N) (p_status : option series_status)
    (db db' : database) (u : unit) :
  rows_sound db ->
  admin_update_series_status e admin_code p_series_id p_status db
  = inr (db', u) ->
  rows_sound db'.
Proof.
  intros Hinv H. apply admin_update_series_status_cases in H.
  destruct H as (_ & _ & _ & Hall & He & Hc & _).
  intros c Hin. rewrite Hc in Hin. destruct (Hinv c Hin) as [Hchk Hpl].
  split; [exact Hchk | ].
  unfold row_placed. rewrite (Forall2_ids _ _ _ _ _ Hall), He. exact Hpl.
Qed.

(** X2: in every state reached through the procedures from a state where it
    holds (the empty tables, for one), every stored comment has a trimmed,
    non-empty content of at most 2000 characters, a trimmed, non-empty author
    name of at most 100, an email that is NULL or a trimmed address matching
    the pattern of the table, a series that exists and, when it has one, an
    episode of that very series. *)
Theorem rows_sound_invariant (init db : database) :
  rows_sound init ->
  reachable init db ->
  forall c, In c (comments db) -> row_checked c /\ row_placed db c.
Proof.
  intros Hinit Hreach. change (rows_sound db).
  revert Hinit Hreach. apply inv_reachable.
  - intros e cid uid d d' j. apply rows_sound_toggle.
  - intros e c n m s ep p d d' row. apply rows_sound_create.
  - intros e code s st d d' u. apply rows_sound_admin.
Qed.

Lemma rows_sound_invariant_witness :
  Forall (fun c => row_checked c /\ row_placed Sample.three_comments c)
    (comments Sample.three_comments).
Proof.
  apply Forall_forall.
  apply (rows_sound_invariant Sample.empty_db).
  - intros c [].
  - apply reach_exec. apply reach_exec. apply reach_exec. apply reach_init.
Defined.

(** ** [toggle_comment_like]: the answer and the database agree *)

Lemma not_liked_after_delete (cid : N) (uid : string)
    (likes : list CommentLike.row) :
  existsb (like_matches (Some cid) (Some uid))
    (filter (fun l => negb (like_matches (Some cid) (Some uid) l)) likes)
  = false.
Proof.
  induction likes as [ | l rest IH]; simpl.
  - reflexivity.
  - destruct (like_matches (Some cid) (Some uid) l) eqn:E; simpl.
    + exact IH.
    + now rewrite E.
Qed.

Lemma likes_of_updated (e : env) (delta : Z) (cid : N) (db db' : database) :
  comments db' = map (updated e delta cid) (comments db) ->
  likes_of db' cid
  = option_map (fun c => Comment.likes_count c + delta)
      (find (targets cid) (comments db)).
Proof.
  intros H. unfold likes_of. rewrite H, find_updated.
  now destruct (find (targets cid) (comments db)).
Qed.

(** X3: the answer of a call that returns describes the database it leaves:
    [likes_count] is the stored counter of the comment, [user_liked] tells
    whether the pair has a like row, and [action] is "liked" exactly when
    [user_liked] is true. *)
Theorem toggle_comment_like_answer (e : env) (C : N) (U : string)
    (db db' : database) (j : ToggleJson.t) :
  toggle_comment_like e (Some C) (Some U) db = inr (db', j) ->
  ToggleJson.likes_count j = likes_of db' C
  /\ ToggleJson.user_liked j = liked_by db' C U
  /\ ToggleJson.action j
     = (if ToggleJson.user_liked j then "liked" else "unliked").
Proof.
  intros H. apply toggle_comment_like_cases in H.
  destruct H as (cid & uid & Hc & Hu & _ & _ & _ & Hbranch & _).
  injection Hc as <-. injection Hu as <-.
  destruct Hbranch as [(_ & Hcs & Hls & ->) | (_ & Hcs & Hls & _ & _ & ->)];
    simpl; rewrite (likes_of_updated _ _ _ _ _ Hcs); unfold liked_by;
    rewrite Hls.
  - now rewrite not_liked_after_delete.
  - now rewrite liked_by_app.
Qed.

Lemma toggle_comment_like_answer_witness :
  ToggleJson.likes_count (ToggleJson.mk "liked" (Some 1) true)
  = likes_of (exec Sample.at3 (ToggleCommentLike (Some 100%N) (Some "u1"))
                Sample.two_comments) 100%N
  /\ ToggleJson.user_liked (ToggleJson.mk "liked" (Some 1) true)
     = liked_by (exec Sample.at3 (ToggleCommentLike (Some 100%N) (Some "u1"))
                   Sample.two_comments) 100%N "u1"
  /\ ToggleJson.action (ToggleJson.mk "liked" (Some 1) true)
     = (if ToggleJson.user_liked (ToggleJson.mk "liked" (Some 1) true)
        then "liked" else "unliked").
Proof.
  apply (toggle_comment_like_answer Sample.at3 100%N "u1"
           Sample.two_comments).
  reflexivity.
Defined.

(** ** [toggle_comment_like]: from a liked state, and in a row *)

(** X4: from a state where user [U] has a like row on the comment [C], one
    call answers "unliked" with the counter of [C] minus one and leaves no
    row for the pair; a second call answers "liked" with the counter back at
    its value.  The comment exists under its primary key, its counter is an
    [integer] above the smallest one, the identifier is not blank, and the
    uuid drawn by the second call is unused. *)
Theorem toggle_comment_like_twice_from_liked (e1 e2 : env) (C : N)
    (U : string) (db : database) (n : Z) :
  NoDup (map Comment.id (comments db)) ->
  likes_of db C = Some n ->
  int4_min < n <= int4_max ->
  trim U <> "" ->
  liked_by db C U = true ->
  ~ In (gen_random_uuid e2) (map CommentLike.id (comment_likes db)) ->
  exists db1 db2 : database,
    toggle_comment_like e1 (Some C) (Some U) db
    = ok (db1, ToggleJson.mk "unliked" (Some (n - 1)) false)
    /\ likes_of db1 C = Some (n - 1)
    /\ liked_by db1 C U = false
    /\ toggle_comment_like e2 (Some C) (Some U) db1
       = ok (db2, ToggleJson.mk "liked" (Some n) true)
    /\ likes_of db2 C = Some n
    /\ liked_by db2 C U = true.
Proof.
  intros Hpk Hlikes Hn Hblank Hyes Hfresh.
  unfold likes_of in Hlikes.
  destruct (find (targets C) (comments db)) as [c | ] eqn:Hfind;
    [ | discriminate].
  injection Hlikes as Hc.
  assert (Hdown : in_int4 (Comment.likes_count c - 1))
    by (unfold in_int4, int4_min, int4_max in *; lia).
  pose proof (toggle_unlike_branch e1 C U db c Hpk Hfind Hdown Hblank Hyes)
    as Hfirst.
  set (db1 := mkdb (series db) (episodes db)
                (map (updated e1 (-1) C) (comments db))
                (filter (fun l => negb (like_matches (Some C) (Some U) l))
                   (comment_likes db)))
    in Hfirst.
  assert (Hpk1 : NoDup (map Comment.id (comments db1)))
    by (simpl; now rewrite map_updated_ids).
  assert (Hfind1 : find (targets C) (comments db1) = Some (bump e1 (-1) c))
    by (simpl; now rewrite find_updated, Hfind).
  assert (Hup : in_int4 (Comment.likes_count (bump e1 (-1) c) + 1))
    by (simpl; unfold in_int4, int4_min, int4_max in *; lia).
  assert (Hnot : liked_by db1 C U = false)
    by (unfold liked_by; simpl; apply not_liked_after_delete).
  assert (Hfresh1 : ~ In (gen_random_uuid e2)
                      (map CommentLike.id (comment_likes db1))).
  { simpl. intros Hin. apply Hfresh. apply in_map_iff in Hin.
    destruct Hin as (l & Hl & Hin). apply filter_In in Hin.
    apply in_map_iff. exists l. tauto. }
  pose proof (toggle_like_branch e2 C U db1 _ Hpk1 Hfind1 Hup Hblank Hnot
                Hfresh1) as Hsecond.
  exists db1. eexists. repeat split.
  - rewrite Hfirst, Hc. reflexivity.
  - unfold likes_of. rewrite Hfind1. simpl. rewrite Hc. f_equal.
  - exact Hnot.
  - rewrite Hsecond. simpl. rewrite Hc.
    replace (n + -1 + 1) with n by lia. reflexivity.
  - unfold likes_of. simpl. rewrite !find_updated, Hfind. simpl.
    rewrite Hc. f_equal. lia.
  - unfold liked_by. simpl. now apply liked_by_app.
Qed.

Lemma toggle_comment_like_twice_from_liked_witness :
  exists db1 db2 : database,
    toggle_comment_like Sample.at1 (Some 100%N) (Some "u1")
      (exec Sample.at3 (ToggleCommentLike (Some 100%N) (Some "u1"))
         Sample.two_comments)
    = ok (db1, ToggleJson.mk "unliked" (Some (1 - 1)) false)
    /\ likes_of db1 100%N = Some (1 - 1)
    /\ liked_by db1 100%N "u1" = false
    /\ toggle_comment_like Sample.at2 (Some 100%N) (Some "u1") db1
       = ok (db2, ToggleJson.mk "liked" (Some 1) true)
    /\ likes_of db2 100%N = Some 1
    /\ liked_by db2 100%N "u1" = true.
Proof.
  apply (toggle_comment_like_twice_from_liked Sample.at1 Sample.at2 100%N
           "u1"
           (exec Sample.at3 (ToggleCommentLike (Some 100%N) (Some "u1"))
              Sample.two_comments) 1).
  - vm_compute. constructor; [intros [H | []]; discriminate | ].
    constructor; [intros [] | constructor].
  - reflexivity.
  - unfold int4_min, int4_max. lia.
  - vm_compute. discriminate.
  - reflexivity.
  - vm_compute. intros [H | []]. discriminate.
Defined.

Lemma liked_by_kept (cid : N) (uid : string) (likes : list CommentLike.row)
    (l : CommentLike.row) :
  existsb (like_matches (Some cid) (Some uid)) likes = true ->
  existsb (like_matches (Some cid) (Some uid)) (likes ++ [l]) = true.
Proof. intros H. rewrite existsb_app, H. reflexivity. Qed.

Lemma not_liked_kept (cid : N) (uid uid' : string)
    (likes : list CommentLike.row) (l : CommentLike.row) :
  CommentLike.user_identifier l = uid' -> uid' <> uid ->
  existsb (like_matches (Some cid) (Some uid)) likes = false ->
  existsb (like_matches (Some cid) (Some uid)) (likes ++ [l]) = false.
Proof.
  intros Hl Hne H. rewrite existsb_app, H. simpl.
  rewrite like_matches_spec, Hl.
  apply String.eqb_neq in Hne. rewrite Hne.
  now rewrite andb_false_r.
Qed.

Lemma toggles_like (steps : list (env * string)) (C : N) :
  forall (db : database) (n : Z),
    NoDup (map Comment.id (comments db)) ->
    likes_of db C = Some n ->
    int4_min <= n ->
    n + Z.of_nat (List.length steps) <= int4_max ->
    Forall (fun s => trim (snd s) <> "" /\ liked_by db C (snd s) = false
                     /\ ~ In (gen_random_uuid (fst s))
                          (map CommentLike.id (comment_likes db)))
      steps ->
    NoDup (map snd steps) ->
    NoDup (map (fun s => gen_random_uuid (fst s)) steps) ->
    likes_of (toggles steps C db) C = Some (n + Z.of_nat (List.length steps))
    /\ List.length (comment_likes (toggles steps C db))
       = (List.length (comment_likes db) + List.length steps)%nat
    /\ forall u, liked_by db C u = true \/ In u (map snd steps) ->
                 liked_by (toggles steps C db) C u = true.
Proof.
  induction steps as [ | [e uid] rest IH];
    intros db n Hpk Hlikes Hlo Hhi Hall Hu Hg.
  - simpl. rewrite Z.add_0_r, Nat.add_0_r.
    split; [exact Hlikes | split; [reflexivity | ]].
    intros u [H | []]. exact H.
  - inversion Hall as [ | ? ? (Hblank & Hnot & Hfresh) Hrest]; subst.
    inversion Hu as [ | ? ? Huid Hu']; subst.
    inversion Hg as [ | ? ? Hgid Hg']; subst.
    simpl in Hblank, Hnot, Hfresh, Huid, Hgid.
    unfold likes_of in Hlikes.
    destruct (find (targets C) (comments db)) as [c | ] eqn:Hfind;
      [ | discriminate].
    injection Hlikes as Hc.
    assert (Hup : in_int4 (Comment.likes_count c + 1)).
    { unfold in_int4, int4_min, int4_max in *.
      cbn [List.length] in Hhi. lia. }
    pose proof (toggle_like_branch e C uid db c Hpk Hfind Hup Hblank Hnot
                  Hfresh) as Hstep.
    cbn [toggles exec]. rewrite Hstep. cbn [commit ok].
    set (db1 := mkdb _ _ _ _).
    destruct (IH db1 (n + 1)) as (Hl1 & Hlen1 & Hliked1).
    + simpl. now rewrite map_updated_ids.
    + unfold likes_of. simpl. rewrite find_updated, Hfind. simpl.
      now rewrite Hc.
    + lia.
    + cbn [List.length] in Hhi. lia.
    + rewrite Forall_forall in Hrest |- *. intros [e' u'] Hin.
      destruct (Hrest _ Hin) as (Hb' & Hn' & Hf'). simpl in Hb', Hn', Hf' |- *.
      split; [exact Hb' | split].
      * unfold liked_by. simpl. apply (not_liked_kept C u' uid);
          [reflexivity | | exact Hn'].
        intros ->. apply Huid. apply in_map_iff. now exists (e', u').
      * rewrite map_app. simpl. intros Hin'. apply in_app_or in Hin'.
        destruct Hin' as [Hin' | [Heq | []]]; [now apply Hf' | ].
        apply Hgid. apply in_map_iff. exists (e', u'). auto.
    + exact Hu'.
    + exact Hg'.
    + split; [ | split].
      * rewrite Hl1. f_equal. cbn [List.length]. lia.
      * rewrite Hlen1. simpl. rewrite length_app. simpl. lia.
      * intros u [Hu0 | Hu0]; apply Hliked1.
        -- left. unfold liked_by. simpl. now apply liked_by_kept.
        -- simpl in Hu0. destruct Hu0 as [<- | Hu0].
           ++ left. unfold liked_by. simpl. now apply liked_by_app.
           ++ now right.
Qed.

(** X5: calls of [toggle_comment_like] on one comment by distinct users none
    of whom has liked it (as the first comment item issues them, a new
    identifier per click) all take the like branch: after [k] of them the
    counter is [k] higher, the like table is [k] rows longer, and each of the
    users has liked.  The counter has room for [k] more, the identifiers are
    not blank, and the uuids drawn are unused and distinct. *)
Theorem toggles_by_distinct_users (steps : list (env * string)) (C : N)
    (db : database) (n : Z) :
  NoDup (map Comment.id (comments db)) ->
  likes_of db C = Some n ->
  int4_min <= n ->
  n + Z.of_nat (List.length steps) <= int4_max ->
  Forall (fun s => trim (snd s) <> "" /\ liked_by db C (snd s) = false
                   /\ ~ In (gen_random_uuid (fst s))
                        (map CommentLike.id (comment_likes db)))
    steps ->
  NoDup (map snd steps) ->
  NoDup (map (fun s => gen_random_uuid (fst s)) steps) ->
  likes_of (toggles steps C db) C = Some (n + Z.of_nat (List.length steps))
  /\ List.length (comment_likes (toggles steps C db))
     = (List.length (comment_likes db) + List.length steps)%nat
  /\ forall u, In u (map snd steps) ->
               liked_by (toggles steps C db) C u = true.
Proof.
  intros Hpk Hlikes Hlo Hhi Hall Hu Hg.
  destruct (toggles_like steps C db n Hpk Hlikes Hlo Hhi Hall Hu Hg)
    as (H1 & H2 & H3).
  split; [exact H1 | split; [exact H2 | ]].
  intros u Hin. apply H3. now right.
Qed.

Lemma toggles_by_distinct_users_witness :
  likes_of (toggles [(Sample.at2, "u1"); (Sample.at3, "u2")] 100%N
              Sample.one_comment) 100%N
  = Some (0 + Z.of_nat 2)
  /\ List.length
       (comment_likes (toggles [(Sample.at2, "u1"); (Sample.at3, "u2")] 100%N
                         Sample.one_comment))
     = (List.length (comment_likes Sample.one_comment) + 2)%nat
  /\ forall u, In u ["u1"; "u2"] ->
               liked_by (toggles [(Sample.at2, "u1"); (Sample.at3, "u2")]
                           100%N Sample.one_comment) 100%N u = true.
Proof.
  apply (toggles_by_distinct_users [(Sample.at2, "u1"); (Sample.at3, "u2")]
           100%N Sample.one_comment 0).
  - vm_compute. constructor; [intros [] | constructor].
  - reflexivity.
  - unfold int4_min. lia.
  - unfold int4_max. simpl. lia.
  - repeat constructor; simpl; try (vm_compute; discriminate);
      vm_compute; intros [].
  - simpl. repeat constructor; simpl; intuition discriminate.
  - simpl. repeat constructor; simpl; intuition discriminate.
Defined.

(** ** [admin_update_series_status]: effect and refusals *)

(** X6: a call of [admin_update_series_status] that returns was made with the
    secret (or with no code at all), named a series that exists and a status
    that is not NULL; it leaves episodes, comments and likes as they were and
    changes, among the series, only the status and the update time of the
    rows with the id given, which become the status given and the time of
    the call. *)
Theorem admin_update_series_status_effect (e : env)
    (admin_code : option string) (p_series_id : option N)
    (p_status : option series_status) (db db' : database) (u : unit) :
  admin_update_series_status e admin_code p_series_id p_status db
  = inr (db', u) ->
  (admin_code = None \/ admin_code = Some admin_secret)
  /\ (exists s, In s (series db) /\ Some (Series.id s) = p_series_id)
  /\ p_status <> None
  /\ Forall2 (only_status_touched e p_series_id p_status)
       (series db) (series db')
  /\ episodes db' = episodes db
  /\ comments db' = comments db
  /\ comment_likes db' = comment_likes db.
Proof. apply admin_update_series_status_cases. Qed.

Lemma admin_update_series_status_effect_witness :
  (Some admin_secret = None \/ Some admin_secret = Some admin_secret)
  /\ (exists s, In s (series Sample.three_comments)
                /\ Some (Series.id s) = Some 1%N)
  /\ Some completed <> None
  /\ Forall2 (only_status_touched Sample.at1 (Some 1%N) (Some completed))
       (series Sample.three_comments)
       (series (exec Sample.at1
                  (AdminUpdateSeriesStatus (Some admin_secret) (Some 1%N)
                     (Some completed)) Sample.three_comments))
  /\ episodes (exec Sample.at1
                 (AdminUpdateSeriesStatus (Some admin_secret) (Some 1%N)
                    (Some completed)) Sample.three_comments)
     = episodes Sample.three_comments
  /\ comments (exec Sample.at1
                 (AdminUpdateSeriesStatus (Some admin_secret) (Some 1%N)
                    (Some completed)) Sample.three_comments)
     = comments Sample.three_comments
  /\ comment_likes (exec Sample.at1
                      (AdminUpdateSeriesStatus (Some admin_secret) (Some 1%N)
                         (Some completed)) Sample.three_comments)
     = comment_likes Sample.three_comments.
Proof.
  apply (admin_update_series_status_effect Sample.at1 (Some admin_secret)
           (Some 1%N) (Some completed) Sample.three_comments _ tt).
  reflexivity.
Defined.

Lemma update_series_status_unknown (e : env) (p_series_id : option N)
    (p_status : option series_status) (rows : list Series.row) :
  (forall s, In s rows -> Some (Series.id s) <> p_series_id) ->
  update_series_status e p_series_id p_status rows = ok (rows, 0%nat).
Proof.
  induction rows as [ | s rest IH]; cbn [update_series_status]; intros H.
  - reflexivity.
  - assert (E : holds (sql_eq N.eqb (Some (Series.id s)) p_series_id) = false).
    { destruct p_series_id as [sid | ]; [ | reflexivity]. simpl.
      destruct (N.eqb (Series.id s) sid) eqn:E; [ | reflexivity].
      apply N.eqb_eq in E. exfalso. apply (H s); [now left | now subst]. }
    rewrite E, IH; [reflexivity | ].
    intros s' Hs'. apply H. now right.
Qed.

(** X7: with a code that is not NULL and not the secret the call raises
    'Unauthorized', whatever the series id and the status (NULL included), and
    the database is left as it was. *)
Theorem admin_update_series_status_wrong_code (e : env) (code : string)
    (p_series_id : option N) (p_status : option series_status)
    (db : database) :
  code <> admin_secret ->
  admin_update_series_status e (Some code) p_series_id p_status db
  = throw (raise_exception "Unauthorized")
  /\ exec e (AdminUpdateSeriesStatus (Some code) p_series_id p_status) db = db.
Proof.
  intros Hne.
  assert (H : admin_update_series_status e (Some code) p_series_id p_status db
              = throw (raise_exception "Unauthorized")).
  { unfold admin_update_series_status. resolved. simpl holds.
    apply String.eqb_neq in Hne. now rewrite Hne. }
  split; [exact H | ]. simpl. now rewrite H.
Qed.

Lemma admin_update_series_status_wrong_code_witness :
  admin_update_series_status Sample.at1 (Some "shivam2008") None None
    Sample.three_comments
  = throw (raise_exception "Unauthorized")
  /\ exec Sample.at1 (AdminUpdateSeriesStatus (Some "shivam2008") None None)
       Sample.three_comments
     = Sample.three_comments.
Proof.
  apply (admin_update_series_status_wrong_code Sample.at1 "shivam2008" None
           None Sample.three_comments).
  vm_compute. discriminate.
Defined.

(** X8: with the secret, a series id that is NULL or the id of no series
    raises 'Series not found', whatever the status, and the database is left
    as it was. *)
Theorem admin_update_series_status_unknown_series (e : env)
    (p_series_id : option N) (p_status : option series_status)
    (db : database) :
  (forall s, In s (series db) -> Some (Series.id s) <> p_series_id) ->
  admin_update_series_status e (Some admin_secret) p_series_id p_status db
  = throw (raise_exception "Series not found")
  /\ exec e (AdminUpdateSeriesStatus (Some admin_secret) p_series_id
               p_status) db = db.
Proof.
  intros Hno.
  assert (H : admin_update_series_status e (Some admin_secret) p_series_id
                p_status db
              = throw (raise_exception "Series not found")).
  { unfold admin_update_series_status. resolved. simpl holds.
    now rewrite (update_series_status_unknown _ _ _ _ Hno). }
  split; [exact H | ]. simpl. now rewrite H.
Qed.

Lemma admin_update_series_status_unknown_series_witness :
  admin_update_series_status Sample.at1 (Some admin_secret) None
    (Some completed) Sample.three_comments
  = throw (raise_exception "Series not found")
  /\ exec Sample.at1
       (AdminUpdateSeriesStatus (Some admin_secret) None (Some completed))
       Sample.three_comments
     = Sample.three_comments.
Proof.
  apply (admin_update_series_status_unknown_series Sample.at1 None
           (Some completed) Sample.three_comments).
  intros s _. discriminate.
Defined.

(** ** [create_comment]: which error a refused call raises *)

Lemma validation_message_none (p_content p_author_name : option string)
    (p_series_id p_episode_id p_parent_id : option N) (db : database) :
  validation_message p_content p_author_name p_series_id p_episode_id
    p_parent_id db = None
  <-> refused_by_validation p_content p_author_name p_series_id p_episode_id
        p_parent_id db = false.
Proof.
  unfold validation_message, refused_by_validation.
  destruct (missing p_content); [simpl; split; discriminate | ].
  destruct (missing p_author_name); [simpl; split; discriminate | ].
  destruct p_series_id as [sid | ]; [ | simpl; split; discriminate].
  destruct (no_such_series (Some sid) db); [simpl; split; discriminate | ].
  destruct (no_such_episode p_episode_id (Some sid) db);
    [simpl; split; discriminate | ].
  destruct (no_such_parent p_parent_id (Some sid) db);
    simpl; split; congruence.
Qed.

Lemma create_comment_raises (e : env) (p_content p_author_name
    p_author_email : option string) (p_series_id p_episode_id
    p_parent_id : option N) (db : database) :
  match validation_message p_content p_author_name p_series_id p_episode_id
          p_parent_id db with
  | Some message =>
      create_comment e p_content p_author_name p_author_email p_series_id
        p_episode_id p_parent_id db = throw (raise_exception message)
  | None =>
      refused_by_checks p_content p_author_name p_author_email = true ->
      exists constraint,
        create_comment e p_content p_author_name p_author_email p_series_id
          p_episode_id p_parent_id db = throw (check_violation constraint)
  end.
Proof.
  unfold validation_message, create_comment. resolved.
  rewrite !required_test.
  destruct (missing p_content) eqn:Hc; [reflexivity | ].
  destruct (missing p_author_name) eqn:Hn; [reflexivity | ].
  destruct p_series_id as [sid | ]; [ | reflexivity].
  cbn [holds is_null]. rewrite series_test by reflexivity.
  destruct (no_such_series (Some sid) db) eqn:Hs; [reflexivity | ].
  rewrite episode_test.
  destruct (no_such_episode p_episode_id (Some sid) db) eqn:Hep;
    [reflexivity | ].
  rewrite parent_test.
  destruct (no_such_parent p_parent_id (Some sid) db) eqn:Hp;
    [reflexivity | ].
  intros H. unfold refused_by_checks in H.
  destruct (missing_false _ Hc) as (content & -> & Hcontent).
  destruct (missing_false _ Hn) as (author_name & -> & Hname).
  rewrite email_value. cbn [sql_trim option_map].
  unfold insert_comment. cbn [not_null bind ok].
  rewrite email_check.
  destruct (malformed_email p_author_email); [eexists; reflexivity | ].
  rewrite (content_check 100 author_name Hname).
  destruct (longer_than 100 (Some author_name)); [eexists; reflexivity | ].
  rewrite (content_check 2000 content Hcontent).
  rewrite !orb_false_r in H. rewrite H. eexists. reflexivity.
Qed.

(** X9: a call that the validation refuses raises the message of the first
    test that fails, in the order content, author name, series id, series,
    episode, parent, whatever else is wrong with it; a call that passes the
    validation and breaks a limit of the table raises a check violation.  In
    both cases the database is left as it was. *)
Theorem create_comment_error (e : env) (p_content p_author_name
    p_author_email : option string) (p_series_id p_episode_id
    p_parent_id : option N) (db : database) :
  match validation_message p_content p_author_name p_series_id p_episode_id
          p_parent_id db with
  | Some message =>
      create_comment e p_content p_author_name p_author_email p_series_id
        p_episode_id p_parent_id db = throw (raise_exception message)
  | None =>
      refused_by_checks p_content p_author_name p_author_email = true ->
      exists constraint,
        create_comment e p_content p_author_name p_author_email p_series_id
          p_episode_id p_parent_id db = throw (check_violation constraint)
  end
  /\ (is_ok (create_comment e p_content p_author_name p_author_email
               p_series_id p_episode_id p_parent_id db) = false ->
      exec e (CreateComment p_content p_author_name p_author_email
                p_series_id p_episode_id p_parent_id) db = db).
Proof.
  split.
  - apply create_comment_raises.
  - intros H. simpl.
    destruct (create_comment _ _ _ _ _ _ _ _); [reflexivity | discriminate].
Qed.

Lemma create_comment_error_witness :
  (exists constraint,
      create_comment Sample.at1 (Some "Hi") (Some Sample.long_name) None
        (Some 1%N) None None Sample.empty_db
      = throw (check_violation constraint))
  /\ exec Sample.at1
       (CreateComment (Some "Hi") (Some Sample.long_name) None (Some 1%N) None
          None) Sample.empty_db
     = Sample.empty_db.
Proof.
  pose proof (create_comment_error Sample.at1 (Some "Hi")
                (Some Sample.long_name) None (Some 1%N) None None
                Sample.empty_db) as [H1 H2].
  assert (Hv : validation_message (Some "Hi") (Some Sample.long_name)
                 (Some 1%N) None None Sample.empty_db = None)
    by reflexivity.
  rewrite Hv in H1.
  split; [apply H1 | apply H2]; reflexivity.
Defined.

(** ** The shape of an accepted email *)

Lemma matches_star_class (p : ascii -> bool) (s : string) :
  matches (Star (Class p)) s <-> all_chars p s = true.
Proof.
  split.
  - intros H. remember (Star (Class p)) as r eqn:Er.
    induction H as [ | | | | | | r' s1 s2 H1 _ _ IH2]; try discriminate.
    + reflexivity.
    + injection Er as ->. apply matches_class_inv in H1.
      destruct H1 as (c & -> & Hc). simpl. rewrite Hc. now apply IH2.
  - induction s as [ | c rest IH]; simpl; intros H.
    + constructor.
    + apply andb_true_iff in H. destruct H as [Hc Hrest].
      apply (matches_star_cons (Class p) (String c "") rest).
      * now constructor.
      * now apply IH.
Qed.

Lemma matches_plus_class (p : ascii -> bool) (s : string) :
  matches (Plus (Class p)) s <-> s <> "" /\ all_chars p s = true.
Proof.
  unfold Plus. split.
  - intros H. apply matches_cat_inv in H.
    destruct H as (s1 & s2 & -> & H1 & H2).
    apply matches_class_inv in H1. destruct H1 as (c & -> & Hc).
    apply matches_star_class in H2. simpl. rewrite Hc, H2.
    split; [discriminate | reflexivity].
  - intros [Hne H]. destruct s as [ | c rest]; [congruence | ].
    simpl in H. apply andb_true_iff in H. destruct H as [Hc Hrest].
    apply (matches_cat (Class p) (Star (Class p)) (String c "") rest).
    + now constructor.
    + now apply matches_star_class.
Qed.

Lemma matches_lit (a : ascii) (s : string) :
  matches (lit a) s <-> s = String a "".
Proof.
  unfold lit. split.
  - intros H. apply matches_class_inv in H. destruct H as (c & -> & Hc).
    apply Ascii.eqb_eq in Hc. now subst.
  - intros ->. constructor. apply Ascii.eqb_refl.
Qed.

(** X10: the pattern of [author_email] accepts exactly the strings made of a
    non-empty local part over letters, digits and [._%+-], an [@], a
    non-empty domain over letters, digits and [.-], a dot, and at least two
    letters. *)
Theorem email_shape (s : string) :
  re_match email_regex s = true
  <-> exists local domain tld : string,
        s = (local ++ "@" ++ domain ++ "." ++ tld)%string
        /\ local <> "" /\ all_chars email_local local = true
        /\ domain <> "" /\ all_chars email_domain domain = true
        /\ (2 <= String.length tld)%nat /\ all_chars alpha tld = true.
Proof.
  rewrite re_match_spec. unfold email_regex. split.
  - intros H.
    apply matches_cat_inv in H. destruct H as (l & r1 & -> & Hl & H).
    apply matches_cat_inv in H. destruct H as (a & r2 & -> & Ha & H).
    apply matches_cat_inv in H. destruct H as (d & r3 & -> & Hd & H).
    apply matches_cat_inv in H. destruct H as (dot & r4 & -> & Hdot & H).
    apply matches_cat_inv in H. destruct H as (t1 & r5 & -> & Ht1 & H).
    apply matches_cat_inv in H. destruct H as (t2 & t3 & -> & Ht2 & Ht3).
    apply matches_plus_class in Hl. apply matches_plus_class in Hd.
    apply matches_lit in Ha. apply matches_lit in Hdot. subst a dot.
    apply matches_class_inv in Ht1. destruct Ht1 as (c1 & -> & Hc1).
    apply matches_class_inv in Ht2. destruct Ht2 as (c2 & -> & Hc2).
    apply matches_star_class in Ht3.
    exists l, d, (String c1 (String c2 t3)).
    split; [reflexivity | ].
    destruct Hl as [Hl1 Hl2]. destruct Hd as [Hd1 Hd2].
    repeat split; try assumption.
    + simpl. lia.
    + simpl. now rewrite Hc1, Hc2, Ht3.
  - intros (l & d & t & -> & Hl1 & Hl2 & Hd1 & Hd2 & Hlen & Ht).
    destruct t as [ | c1 [ | c2 t3]]; simpl in Hlen; try lia.
    simpl in Ht. apply andb_true_iff in Ht. destruct Ht as [Hc1 Ht].
    apply andb_true_iff in Ht. destruct Ht as [Hc2 Ht3].
    apply matches_cat; [now apply matches_plus_class | ].
    apply (matches_cat _ _ "@"); [now apply matches_lit | ].
    apply matches_cat; [now apply matches_plus_class | ].
    apply (matches_cat _ _ "."); [now apply matches_lit | ].
    apply (matches_cat _ _ (String c1 "")); [now constructor | ].
    apply (matches_cat _ _ (String c2 "")); [now constructor | ].
    now apply matches_star_class.
Qed.

(** ** The RETURN QUERY statement: pages that follow each other, and edges *)

Lemma firstn_add_skipn {A} (a b : nat) (l : list A) :
  firstn (a + b) l = (firstn a l ++ firstn b (skipn a l))%list.
Proof.
  revert l. induction a as [ | a IH]; intros l; simpl.
  - reflexivity.
  - destruct l as [ | x rest]; simpl.
    + now rewrite firstn_nil.
    + now rewrite IH.
Qed.

Lemma skipn_add {A} (a b : nat) (l : list A) :
  skipn (a + b) l = skipn b (skipn a l).
Proof.
  revert l. induction a as [ | a IH]; intros l; simpl.
  - reflexivity.
  - destruct l as [ | x rest]; simpl.
    + now rewrite skipn_nil.
    + apply IH.
Qed.

Lemma insert_desc_distinct {A} (key : A -> timestamptz)
    (t1 t2 : A -> A -> bool) (x : A) (l : list A) :
  (forall y, In y l -> key y <> key x) ->
  insert_desc key t1 x l = insert_desc key t2 x l.
Proof.
  induction l as [ | y rest IH]; cbn [insert_desc]; intros H.
  - reflexivity.
  - assert (E : (key y =? key x) = false)
      by (apply Z.eqb_neq, H; now left).
    rewrite E. cbn [andb]. rewrite IH by (intros z Hz; apply H; now right).
    reflexivity.
Qed.

(** Where the times differ the order is the same in every run. *)
Lemma order_by_desc_distinct {A} (key : A -> timestamptz)
    (t1 t2 : A -> A -> bool) (l : list A) :
  NoDup (map key l) ->
  order_by_desc key t1 l = order_by_desc key t2 l.
Proof.
  induction l as [ | x rest IH]; cbn [order_by_desc map]; intros Hnd.
  - reflexivity.
  - inversion Hnd as [ | ? ? Hx Hrest]; subst.
    rewrite (IH Hrest). apply insert_desc_distinct.
    intros y Hy E. apply Hx. rewrite <- E. apply in_map.
    now apply (Permutation_in _ (order_by_desc_perm key t2 rest)).
Qed.

Lemma stats_ordered_distinct (t1 t2 : Comment.row -> Comment.row -> bool)
    (p_series_id p_episode_id : option N) (db : database) :
  distinct_times p_series_id p_episode_id db ->
  stats_ordered t1 p_series_id p_episode_id db
  = stats_ordered t2 p_series_id p_episode_id db.
Proof.
  intros Hd. rewrite !stats_ordered_spec.
  apply order_by_desc_distinct. now rewrite map_map.
Qed.

(** X11: three runs of the statement of RETURN QUERY on one database in which
    no two of the selected comments were created at the same time: the page
    of [l1] rows at offset [o] followed by the page of [l2] rows at offset
    [o + l1] is the page of [l1 + l2] rows at offset [o], so that pages that
    follow each other neither repeat nor skip a row. *)
Theorem return_query_consecutive_pages
    (t1 t2 t3 : Comment.row -> Comment.row -> bool)
    (p_series_id p_episode_id : option N) (l1 l2 o : Z) (db : database) :
  distinct_times p_series_id p_episode_id db ->
  0 <= l1 -> 0 <= l2 -> 0 <= o ->
  exists page1 page2 : list CommentStats.row,
    return_query t1 p_series_id p_episode_id (Some l1) (Some o) db = ok page1
    /\ return_query t2 p_series_id p_episode_id (Some l2) (Some (o + l1)) db
       = ok page2
    /\ return_query t3 p_series_id p_episode_id (Some (l1 + l2)) (Some o) db
       = ok (page1 ++ page2)%list.
Proof.
  intros Hd H1 H2 Ho.
  rewrite !return_query_given by lia.
  rewrite (stats_ordered_distinct t2 t1 _ _ _ Hd).
  rewrite (stats_ordered_distinct t3 t1 _ _ _ Hd).
  do 2 eexists. split; [reflexivity | split; [reflexivity | ]].
  rewrite !Z2Nat.inj_add by lia.
  now rewrite firstn_add_skipn, skipn_add.
Qed.

Lemma return_query_consecutive_pages_witness :
  exists page1 page2 : list CommentStats.row,
    return_query Pages.lower_id_first (Some 1%N) None (Some 1) (Some 0)
      Pages.apart = ok page1
    /\ return_query Pages.higher_id_first (Some 1%N) None (Some 1)
         (Some (0 + 1)) Pages.apart = ok page2
    /\ return_query (fun _ _ => true) (Some 1%N) None (Some (1 + 1)) (Some 0)
         Pages.apart = ok (page1 ++ page2)%list.
Proof.
  apply (return_query_consecutive_pages Pages.lower_id_first
           Pages.higher_id_first (fun _ _ => true) (Some 1%N) None 1 1 0
           Pages.apart); [ | lia | lia | lia].
  unfold distinct_times. simpl.
  constructor; [simpl; intros [H | []]; discriminate | ].
  constructor; [intros [] | constructor].
Defined.

(** Where two of the selected comments were created at the same time, the
    rows of two runs need not fit together: the first page of one run and the
    second page of another can show the same comment, and a comment can be
    on neither. *)
Lemma return_query_pages_can_repeat :
  exists r : CommentStats.row,
    return_query Pages.lower_id_first (Some 1%N) None (Some 1) (Some 0)
      Pages.together = ok [r]
    /\ return_query Pages.higher_id_first (Some 1%N) None (Some 1) (Some 1)
         Pages.together = ok [r]
    /\ CommentStats.id r = 100%N
    /\ exists c, In c (comments Pages.together) /\ Comment.id c = 101%N
                 /\ stats_where (Some 1%N) None c = true.
Proof.
  eexists. split; [reflexivity | ]. split; [reflexivity | ].
  split; [reflexivity | ].
  eexists. split; [right; left; reflexivity | ]. split; reflexivity.
Qed.

Lemma stats_where_null_series (p_episode_id : option N) (c : Comment.row) :
  stats_where None p_episode_id c = false.
Proof.
  unfold stats_where. cbn [sql_eq].
  destruct (sql_or (is_null p_episode_id)
              (sql_eq N.eqb (Comment.episode_id c) p_episode_id))
    as [[ | ] | ];
    destruct (Comment.parent_id c); reflexivity.
Qed.

Lemma filter_none {A} (f : A -> bool) (l : list A) :
  (forall a, f a = false) -> filter f l = [].
Proof.
  intros H. induction l as [ | a rest IH]; simpl;
    [reflexivity | now rewrite H].
Qed.

Lemma stats_ordered_length (tie : Comment.row -> Comment.row -> bool)
    (p_series_id p_episode_id : option N) (db : database) :
  List.length (stats_ordered tie p_series_id p_episode_id db)
  = List.length (filter (stats_where p_series_id p_episode_id) (comments db)).
Proof.
  rewrite stats_ordered_spec.
  rewrite (Permutation_length (order_by_desc_perm _ _ _)).
  apply length_map.
Qed.

Lemma stats_ordered_comments (tie : Comment.row -> Comment.row -> bool)
    (p_series_id p_episode_id : option N) (db : database) :
  Permutation
    (map comment_of
       (map stats_select (stats_ordered tie p_series_id p_episode_id db)))
    (filter (stats_where p_series_id p_episode_id) (comments db)).
Proof.
  rewrite stats_ordered_spec, map_map.
  eapply perm_trans; [apply Permutation_map, order_by_desc_perm | ].
  rewrite map_map.
  erewrite map_ext; [ | intros c; apply comment_of_select].
  rewrite map_id. apply Permutation_refl.
Qed.

(** X12: one run of the statement of RETURN QUERY, whatever order it takes
    among rows of equal time.  A negative OFFSET raises, whatever the limit;
    a negative LIMIT raises under every offset that is NULL or not negative.
    With a limit [l] and an offset [o] that are not negative the page holds
    [min l (N - o)] rows, [N] being the number of comments that the WHERE
    clause keeps (none below zero).  Without LIMIT and OFFSET the rows are
    the comments that the WHERE clause keeps, each once, newest first.  A
    NULL series id selects no row. *)
Theorem return_query_edges (tie : Comment.row -> Comment.row -> bool)
    (p_series_id p_episode_id : option N) (db : database) :
  (forall p_limit n,
      n < 0 ->
      return_query tie p_series_id p_episode_id p_limit (Some n) db
      = throw invalid_row_count_in_result_offset_clause)
  /\ (forall n p_offset,
         n < 0 ->
         (forall o, p_offset = Some o -> 0 <= o) ->
         return_query tie p_series_id p_episode_id (Some n) p_offset db
         = throw invalid_row_count_in_limit_clause)
  /\ (forall l o,
         0 <= l -> 0 <= o ->
         exists page,
           return_query tie p_series_id p_episode_id (Some l) (Some o) db
           = ok page
           /\ List.length page
              = Nat.min (Z.to_nat l)
                  (List.length
                     (filter (stats_where p_series_id p_episode_id)
                        (comments db))
                   - Z.to_nat o))
  /\ (exists rows,
         return_query tie p_series_id p_episode_id None None db = ok rows
         /\ Permutation (map comment_of rows)
              (filter (stats_where p_series_id p_episode_id) (comments db))
         /\ newest_first rows)
  /\ return_query tie None p_episode_id None None db = ok [].
Proof.
  split; [ | split; [ | split; [ | split]]].
  - intros p_limit n Hn. unfold return_query, limit_offset.
    apply Z.ltb_lt in Hn. now rewrite Hn.
  - intros n p_offset Hn Ho. unfold return_query, limit_offset.
    apply Z.ltb_lt in Hn.
    destruct p_offset as [o | ]; cbn [bind ok]; [ | now rewrite Hn].
    specialize (Ho o eq_refl). apply Z.ltb_ge in Ho. rewrite Ho.
    cbn [bind ok]. now rewrite Hn.
  - intros l o Hl Ho. eexists. split; [now apply return_query_given | ].
    rewrite length_firstn, length_skipn, length_map.
    now rewrite stats_ordered_length.
  - eexists. split; [apply return_query_all | ].
    split; [apply stats_ordered_comments | ].
    unfold newest_first, stats_ordered.
    eapply StronglySorted_map; [ | apply order_by_desc_sorted].
    intros a b H. exact H.
  - rewrite return_query_all. unfold stats_ordered.
    rewrite (filter_none _ _ (fun j => stats_where_null_series p_episode_id
                                         (fst j))).
    reflexivity.
Qed.

Lemma return_query_edges_witness :
  return_query Pages.lower_id_first (Some 1%N) None (Some 10) (Some (-1))
    Pages.together
  = throw invalid_row_count_in_result_offset_clause
  /\ return_query Pages.lower_id_first (Some 1%N) None (Some (-1)) (Some 7)
       Pages.together
     = throw invalid_row_count_in_limit_clause
  /\ exists page,
       return_query Pages.lower_id_first (Some 1%N) None (Some 5) (Some 1)
         Pages.together = ok page
       /\ List.length page = 1%nat.
Proof.
  pose proof (return_query_edges Pages.lower_id_first (Some 1%N) None
                Pages.together) as (Hoff & Hlim & Hpage & _).
  split; [apply Hoff; lia | ].
  split; [apply Hlim; [lia | intros o E; injection E as <-; lia] | ].
  destruct (Hpage 5 1) as (page & Hp & Hlen); [lia | lia | ].
  exists page. split; [exact Hp | ]. rewrite Hlen. reflexivity.
Defined.

(** * The client *)

(** ** What the form trims, the procedure leaves alone *)

Lemma space_is_js_white_space (c : ascii) :
  is_space c = true -> js_white_space c = true.
Proof.
  unfold is_space. intros H. apply Ascii.eqb_eq in H. now subst.
Qed.

Lemma not_js_white_space_not_space (c : ascii) :
  js_white_space c = false -> is_space c = false.
Proof.
  intros H. destruct (is_space c) eqn:E; [ | reflexivity].
  apply space_is_js_white_space in E. congruence.
Qed.

Lemma js_trim_start_head (s : string) :
  js_trim_start s = ""
  \/ exists c r, js_trim_start s = String c r /\ js_white_space c = false.
Proof.
  induction s as [ | c s' IH]; simpl.
  - now left.
  - destruct (js_white_space c) eqn:E; [exact IH | ].
    right. now exists c, s'.
Qed.

Lemma js_trim_end_head (c : ascii) (r : string) :
  js_white_space c = false ->
  exists r', js_trim_end (String c r) = String c r'.
Proof.
  intros E. simpl. destruct (js_trim_end r) as [ | d r'].
  - rewrite E. now exists "".
  - now exists (String d r').
Qed.

Lemma rtrim_js_trim_end (s : string) : rtrim (js_trim_end s) = js_trim_end s.
Proof.
  induction s as [ | c s' IH]; simpl.
  - reflexivity.
  - destruct (js_trim_end s') as [ | d r'] eqn:E.
    + destruct (js_white_space c) eqn:Ec; simpl; [reflexivity | ].
      now rewrite (not_js_white_space_not_space _ Ec).
    + change (rtrim (String c (String d r')))
        with (match rtrim (String d r') with
              | "" => if is_space c then "" else String c ""
              | String a r => String c (String a r)
              end).
      now rewrite IH.
Qed.

Lemma trim_js_trim (s : string) : trim (js_trim s) = js_trim s.
Proof.
  unfold trim, js_trim.
  destruct (js_trim_start_head s) as [-> | (c & r & -> & Hc)].
  - reflexivity.
  - destruct (js_trim_end_head c r Hc) as (r' & Hr). rewrite Hr.
    simpl ltrim. rewrite (not_js_white_space_not_space _ Hc).
    rewrite <- Hr. apply rtrim_js_trim_end.
Qed.

Lemma create_comment_validated (e : env) (p_content p_author_name
    p_author_email : option string) (p_series_id p_episode_id
    p_parent_id : option N) (db : database) :
  validation_message p_content p_author_name p_series_id p_episode_id
    p_parent_id db = None ->
  create_comment e p_content p_author_name p_author_email p_series_id
    p_episode_id p_parent_id db
  = (r <- insert_comment e (sql_trim p_content) (sql_trim p_author_name)
            (normalized_email p_author_email) p_series_id p_episode_id
            p_parent_id db ;;
     ok r).
Proof.
  unfold validation_message, create_comment. resolved.
  rewrite !required_test.
  destruct (missing p_content); [discriminate | ].
  destruct (missing p_author_name); [discriminate | ].
  destruct p_series_id as [sid | ]; [ | discriminate].
  cbn [holds is_null]. rewrite series_test by reflexivity.
  destruct (no_such_series (Some sid) db); [discriminate | ].
  rewrite episode_test.
  destruct (no_such_episode p_episode_id (Some sid) db); [discriminate | ].
  rewrite parent_test.
  destruct (no_such_parent p_parent_id (Some sid) db); [discriminate | ].
  intros _. rewrite email_value.
  destruct (insert_comment _ _ _ _ _ _ _ _) as [err | [db' nc]]; reflexivity.
Qed.

(** The INSERT raises constraint violations only. *)
Lemma insert_comment_error (e : env) (v_content v_author_name
    v_author_email : option string) (v_series_id v_episode_id
    v_parent_id : option N) (db : database) (message : string) :
  insert_comment e v_content v_author_name v_author_email v_series_id
    v_episode_id v_parent_id db <> throw (raise_exception message).
Proof.
  unfold insert_comment.
  destruct v_content as [content | ]; [ | discriminate].
  destruct v_author_name as [author_name | ]; [ | discriminate].
  destruct v_series_id as [sid | ]; [ | discriminate].
  cbn [not_null bind ok].
  repeat match goal with
         | |- (if ?b then _ else _) <> _ => destruct b; [discriminate | ]
         end.
  discriminate.
Qed.

(** X13: the form sends no request when the content or the name is empty
    once trimmed.  Otherwise it requests [create_comment] with the trimmed
    texts, and then: the procedure never answers that the content, the
    author name or the series id is required; a row it returns holds exactly
    the content and the name the form trimmed, and the trimmed email, or NULL
    for an email empty once trimmed. *)
Theorem handleSubmit_request (content authorName authorEmail : string)
    (seriesId : N) (episodeId parentId : option N) :
  (js_trim content = "" \/ js_trim authorName = "" ->
   exists title,
     handleSubmit content authorName authorEmail seriesId episodeId parentId
     = Toasted title)
  /\ (js_trim content <> "" -> js_trim authorName <> "" ->
      let p_author_email :=
        if String.eqb (js_trim authorEmail) "" then None
        else Some (js_trim authorEmail) in
      handleSubmit content authorName authorEmail seriesId episodeId parentId
      = Requested
          (CreateComment (Some (js_trim content)) (Some (js_trim authorName))
             p_author_email (Some seriesId) episodeId parentId)
      /\ forall (e : env) (db : database),
           (forall message,
               create_comment e (Some (js_trim content))
                 (Some (js_trim authorName)) p_author_email (Some seriesId)
                 episodeId parentId db = throw (raise_exception message) ->
               message <> "Comment content is required"
               /\ message <> "Author name is required"
               /\ message <> "Series ID is required")
           /\ forall db' row,
               create_comment e (Some (js_trim content))
                 (Some (js_trim authorName)) p_author_email (Some seriesId)
                 episodeId parentId db = inr (db', row) ->
               Comment.content row = js_trim content
               /\ Comment.author_name row = js_trim authorName
               /\ Comment.author_email row = p_author_email).
Proof.
  split.
  - unfold handleSubmit. intros [H | H].
    + rewrite H. simpl. eexists. reflexivity.
    + rewrite H. destruct (String.eqb (js_trim content) "");
        eexists; reflexivity.
  - intros Hc Hn p_author_email. split.
    + unfold handleSubmit.
      apply String.eqb_neq in Hc. apply String.eqb_neq in Hn.
      now rewrite Hc, Hn.
    + intros e db.
      assert (Hmc : missing (Some (js_trim content)) = false).
      { simpl. rewrite trim_js_trim. now apply String.eqb_neq. }
      assert (Hmn : missing (Some (js_trim authorName)) = false).
      { simpl. rewrite trim_js_trim. now apply String.eqb_neq. }
      split.
      * intros message Hm.
        destruct (validation_message (Some (js_trim content))
                    (Some (js_trim authorName)) (Some seriesId) episodeId
                    parentId db) as [m | ] eqn:Hvm.
        -- pose proof (create_comment_raises e (Some (js_trim content))
                         (Some (js_trim authorName)) p_author_email
                         (Some seriesId) episodeId parentId db) as Herr.
           rewrite Hvm in Herr. rewrite Herr in Hm. injection Hm as <-.
           unfold validation_message in Hvm. rewrite Hmc, Hmn in Hvm.
           destruct (no_such_series (Some seriesId) db);
             [ | destruct (no_such_episode episodeId (Some seriesId) db);
                 [ | destruct (no_such_parent parentId (Some seriesId) db)]];
             try discriminate; injection Hvm as <-;
             repeat split; discriminate.
        -- exfalso.
           rewrite (create_comment_validated _ _ _ _ _ _ _ _ Hvm) in Hm.
           destruct (insert_comment e _ _ _ _ _ _ db) as [err | r] eqn:Hins;
             [ | discriminate].
           simpl in Hm. injection Hm as ->.
           now apply insert_comment_error in Hins.
      * intros db' row H. apply create_comment_cases in H.
        destruct H as (_ & _ & _ & c & n & s & Ec & _ & En & _ & _ & -> & _).
        injection Ec as <-. injection En as <-. simpl.
        rewrite !trim_js_trim. repeat split.
        unfold p_author_email.
        destruct (String.eqb (js_trim authorEmail) "") eqn:E;
          [reflexivity | ].
        simpl. now rewrite trim_js_trim, E.
Qed.

Lemma handleSubmit_request_witness :
  handleSubmit " Nice " "Al" " " 1%N None None
  = Requested
      (CreateComment (Some "Nice") (Some "Al") None (Some 1%N) None None)
  /\ exists db' row,
       create_comment Sample.at1 (Some "Nice") (Some "Al") None (Some 1%N)
         None None Sample.empty_db = inr (db', row)
       /\ Comment.content row = "Nice"
       /\ Comment.author_name row = "Al"
       /\ Comment.author_email row = None.
Proof.
  pose proof (proj2 (handleSubmit_request " Nice " "Al" " " 1%N None None))
    as H.
  assert (H1 : js_trim " Nice " <> "") by (vm_compute; discriminate).
  assert (H2 : js_trim "Al" <> "") by (vm_compute; discriminate).
  specialize (H H1 H2). cbv zeta in H. destruct H as [Hreq Hrest].
  split; [exact Hreq | ].
  destruct (Hrest Sample.at1 Sample.empty_db) as [_ Hrow].
  destruct (create_comment Sample.at1 (Some "Nice") (Some "Al") None
              (Some 1%N) None None Sample.empty_db)
    as [err | [db' row]] eqn:E; [vm_compute in E; discriminate | ].
  exists db', row. split; [reflexivity | ]. apply (Hrow db' row). exact E.
Defined.

(** ** The count of the list and the rows of the statement *)

Lemma filter_length_perm {A} (f : A -> bool) (l l' : list A) :
  Permutation l l' ->
  List.length (filter f l) = List.length (filter f l').
Proof.
  intros H. induction H as [ | x l l' _ IH | x y l | l l' l'' _ IH1 _ IH2];
    simpl.
  - reflexivity.
  - destruct (f x); simpl; now rewrite IH.
  - destruct (f x), (f y); reflexivity.
  - now rewrite IH1.
Qed.

Lemma filter_filter_and {A} (f g : A -> bool) (l : list A) :
  filter f (filter g l) = filter (fun a => g a && f a) l.
Proof.
  induction l as [ | a rest IH]; simpl.
  - reflexivity.
  - destruct (g a); simpl; [destruct (f a) | ]; now rewrite IH.
Qed.

(** X15: the count that the comments list shows and compares with the rows
    loaded ([hasMore]) is, when an episode is given, the number of rows that
    the statement of RETURN QUERY selects; when none is given it counts, of
    the rows the statement selects, only those that have no episode.  The
    order a run takes among rows of equal time plays no part. *)
Theorem totalCount_of_statement (tie : Comment.row -> Comment.row -> bool)
    (seriesId : N) (episodeId : option N) (db : database) :
  exists rows : list CommentStats.row,
    return_query tie (Some seriesId) episodeId None None db = ok rows
    /\ totalCount seriesId episodeId db
       = List.length
           (filter (fun r => match episodeId, CommentStats.episode_id r with
                             | None, Some _ => false
                             | _, _ => true
                             end) rows).
Proof.
  eexists. split; [apply return_query_all | ].
  rewrite stats_ordered_spec, filter_map_comm, length_map.
  rewrite (filter_length_perm _ _ _ (order_by_desc_perm _ _ _)).
  rewrite filter_map_comm, length_map, filter_filter_and.
  unfold totalCount. f_equal. apply filter_ext. intros c.
  rewrite stats_where_top_level. unfold top_level_of. simpl.
  destruct (N.eqb (Comment.series_id c) seriesId);
    destruct (Comment.parent_id c); destruct episodeId as [ep | ];
    destruct (Comment.episode_id c) as [x | ]; simpl; try reflexivity;
    now destruct (N.eqb x ep).
Qed.

(** ** The replies an expansion loads *)

Lemma insert_asc_perm {A} (key : A -> Z) (tie : A -> A -> bool) (x : A)
    (l : list A) :
  Permutation (insert_asc key tie x l) (x :: l).
Proof.
  induction l as [ | y rest IH]; simpl.
  - apply Permutation_refl.
  - destruct ((key x <? key y) || ((key x =? key y) && tie x y)).
    + apply Permutation_refl.
    + eapply perm_trans; [apply perm_skip, IH | apply perm_swap].
Qed.

Lemma order_by_asc_perm {A} (key : A -> Z) (tie : A -> A -> bool)
    (l : list A) :
  Permutation (order_by_asc key tie l) l.
Proof.
  induction l as [ | x rest IH]; simpl.
  - apply perm_nil.
  - eapply perm_trans; [apply insert_asc_perm | apply perm_skip, IH].
Qed.

Lemma insert_asc_sorted {A} (key : A -> Z) (tie : A -> A -> bool) (x : A)
    (l : list A) :
  StronglySorted (fun a b => key a <= key b) l ->
  StronglySorted (fun a b => key a <= key b) (insert_asc key tie x l).
Proof.
  induction l as [ | y rest IH]; simpl; intros Hs.
  - constructor; constructor.
  - inversion Hs as [ | ? ? Hrest Hall]; subst.
    destruct ((key x <? key y) || ((key x =? key y) && tie x y)) eqn:E.
    + apply before_or_tie in E. constructor; [exact Hs | ].
      constructor; [lia | ].
      rewrite Forall_forall in Hall |- *. intros z Hz.
      specialize (Hall z Hz). simpl in Hall. lia.
    + apply not_before_nor_tie in E. constructor; [now apply IH | ].
      rewrite Forall_forall in Hall |- *. intros z Hz.
      apply (Permutation_in _ (insert_asc_perm key tie x rest)) in Hz.
      destruct Hz as [<- | Hz]; [lia | now apply Hall].
Qed.

Lemma order_by_asc_sorted {A} (key : A -> Z) (tie : A -> A -> bool)
    (l : list A) :
  StronglySorted (fun a b => key a <= key b) (order_by_asc key tie l).
Proof.
  induction l as [ | x rest IH]; simpl.
  - constructor.
  - now apply insert_asc_sorted.
Qed.

(** X16: [loadReplies] of the first comment item sends no query in an item
    that is itself a reply, nor while replies are being loaded.  In a
    top-level item at rest it loads exactly the comments whose parent is the
    comment, oldest first, and as many of them as the [reply_count] that the
    statement of RETURN QUERY attaches to the comment, whatever order the
    two queries take among rows of equal time. *)
Theorem loadReplies_reply_count (tie : Comment.row -> Comment.row -> bool)
    (comment_id : N) (db : database) :
  (forall isLoadingReplies,
      loadReplies tie isLoadingReplies true comment_id db = None)
  /\ (forall isReply, loadReplies tie true isReply comment_id db = None)
  /\ exists replies,
       loadReplies tie false false comment_id db = Some replies
       /\ (forall c, In c replies
                     <-> In c (comments db)
                         /\ Comment.parent_id c = Some comment_id)
       /\ StronglySorted
            (fun a b => Comment.created_at a <= Comment.created_at b) replies
       /\ (forall tie' p_series_id p_episode_id p_limit p_offset rows r,
              return_query tie' p_series_id p_episode_id p_limit p_offset db
              = inr rows ->
              In r rows -> CommentStats.id r = comment_id ->
              CommentStats.reply_count r = Z.of_nat (List.length replies)).
Proof.
  split; [ | split].
  - intros l. unfold loadReplies. now rewrite orb_true_r.
  - reflexivity.
  - unfold loadReplies. cbn [orb]. eexists. split; [reflexivity | ].
    split; [ | split].
    + intros c. split.
      * intros H. apply (Permutation_in _ (order_by_asc_perm _ _ _)) in H.
        apply filter_In in H. destruct H as [Hin Hp]. split; [exact Hin | ].
        destruct (Comment.parent_id c) as [p | ]; [ | discriminate].
        apply N.eqb_eq in Hp. now subst.
      * intros [Hin Hp].
        apply (Permutation_in _ (Permutation_sym (order_by_asc_perm _ _ _))).
        apply filter_In. split; [exact Hin | ]. rewrite Hp. apply N.eqb_refl.
    + apply order_by_asc_sorted.
    + intros tie' ps pe pl po rows r Hrows Hr Hid.
      apply return_query_rows in Hrows. rewrite Forall_forall in Hrows.
      destruct (Hrows r Hr) as [_ Hcount]. rewrite Hcount, Hid.
      unfold replies_to.
      now rewrite (Permutation_length (order_by_asc_perm _ _ _)).
Qed.

Lemma loadReplies_reply_count_witness :
  loadReplies Pages.lower_id_first false true 101%N Sample.three_comments
  = None
  /\ exists replies rows r,
       loadReplies Pages.lower_id_first false false 100%N
         Sample.three_comments = Some replies
       /\ return_query Pages.higher_id_first (Some 1%N) None (Some 50)
            (Some 0) Sample.three_comments = inr rows
       /\ In r rows
       /\ CommentStats.id r = 100%N
       /\ CommentStats.reply_count r = Z.of_nat (List.length replies).
Proof.
  pose proof (loadReplies_reply_count Pages.lower_id_first 101%N
                Sample.three_comments) as (Hreply & _).
  split; [apply Hreply | ].
  pose proof (loadReplies_reply_count Pages.lower_id_first 100%N
                Sample.three_comments) as (_ & _ & replies & Hl & _ & _ & Hc).
  destruct (return_query Pages.higher_id_first (Some 1%N) None (Some 50)
              (Some 0) Sample.three_comments) as [err | rows] eqn:E;
    [vm_compute in E; discriminate | ].
  destruct rows as [ | r rest]; [vm_compute in E; discriminate | ].
  assert (Hid : CommentStats.id r = 100%N).
  { pose proof E as E'. vm_compute in E'. injection E' as <- _. reflexivity. }
  exists replies, (r :: rest), r.
  split; [exact Hl | ]. split; [reflexivity | ].
  split; [left; reflexivity | ]. split; [exact Hid | ].
  apply (Hc Pages.higher_id_first (Some 1%N) None (Some 50) (Some 0)
           (r :: rest) r E); [left; reflexivity | exact Hid].
Defined.

(** ** [create_comment]: what a call that returns did *)

(** X17: a call of [create_comment] that returns leaves series, episodes and
    likes as they were and every stored comment in its place, and appends one
    row: the row it returns, under an id that no stored comment had, with no
    likes, created and updated at the time of the call, under the series,
    episode and parent given. *)
Theorem create_comment_effect (e : env) (p_content p_author_name
    p_author_email : option string) (p_series_id p_episode_id
    p_parent_id : option N) (db db' : database) (row : Comment.row) :
  create_comment e p_content p_author_name p_author_email p_series_id
    p_episode_id p_parent_id db = inr (db', row) ->
  series db' = series db
  /\ episodes db' = episodes db
  /\ comment_likes db' = comment_likes db
  /\ comments db' = (comments db ++ [row])%list
  /\ ~ In (Comment.id row) (map Comment.id (comments db))
  /\ Comment.likes_count row = 0
  /\ Comment.created_at row = now e
  /\ Comment.updated_at row = now e
  /\ Some (Comment.series_id row) = p_series_id
  /\ Comment.episode_id row = p_episode_id
  /\ Comment.parent_id row = p_parent_id.
Proof.
  intros H. apply create_comment_cases in H.
  destruct H as (_ & _ & Hfresh & c & n & s & _ & _ & _ & _ & -> & -> & ->).
  simpl. repeat split. exact Hfresh.
Qed.

Lemma create_comment_effect_witness :
  series Sample.two_comments = series Sample.one_comment
  /\ episodes Sample.two_comments = episodes Sample.one_comment
  /\ comment_likes Sample.two_comments = comment_likes Sample.one_comment
  /\ comments Sample.two_comments
     = (comments Sample.one_comment
        ++ [Comment.mk 101%N "Agreed" "Bob" (Some "bob@example.com") 1%N
              (Some 10%N) (Some 100%N) 0 2000 2000])%list
  /\ ~ In (Comment.id (Comment.mk 101%N "Agreed" "Bob"
                         (Some "bob@example.com") 1%N (Some 10%N)
                         (Some 100%N) 0 2000 2000))
         (map Comment.id (comments Sample.one_comment))
  /\ Comment.likes_count (Comment.mk 101%N "Agreed" "Bob"
                            (Some "bob@example.com") 1%N (Some 10%N)
                            (Some 100%N) 0 2000 2000) = 0
  /\ Comment.created_at (Comment.mk 101%N "Agreed" "Bob"
                           (Some "bob@example.com") 1%N (Some 10%N)
                           (Some 100%N) 0 2000 2000) = now Sample.at2
  /\ Comment.updated_at (Comment.mk 101%N "Agreed" "Bob"
                           (Some "bob@example.com") 1%N (Some 10%N)
                           (Some 100%N) 0 2000 2000) = now Sample.at2
  /\ Some (Comment.series_id (Comment.mk 101%N "Agreed" "Bob"
                                (Some "bob@example.com") 1%N (Some 10%N)
                                (Some 100%N) 0 2000 2000)) = Some 1%N
  /\ Comment.episode_id (Comment.mk 101%N "Agreed" "Bob"
                           (Some "bob@example.com") 1%N (Some 10%N)
                           (Some 100%N) 0 2000 2000) = Some 10%N
  /\ Comment.parent_id (Comment.mk 101%N "Agreed" "Bob"
                          (Some "bob@example.com") 1%N (Some 10%N)
                          (Some 100%N) 0 2000 2000) = Some 100%N.
Proof.
  apply (create_comment_effect Sample.at2 (Some "Agreed") (Some "Bob")
           (Some "bob@example.com") (Some 1%N) (Some 10%N) (Some 100%N)
           Sample.one_comment Sample.two_comments).
  reflexivity.
Defined.

(** ** [toggle_comment_like]: the errors it can raise *)



